(** * PAYMINT content-script engine: platform detection, checkout extraction,
      pay-button injection and gift-card redemption

    A shallow embedding of
      - extension/src/content/platforms/amazon.ts
      - extension/src/content/platforms/netflix.ts
      - extension/src/content/platforms/dominos.ts
      - extension/src/content/platforms/index.ts
      - extension/src/content/content-script.ts
    followed by the properties of the engine that were checked against it. *)

From Stdlib Require Import List String Ascii Bool Arith NArith ZArith QArith Lia.
From Stdlib Require Import DecimalString.
From Stdlib Require Import Lqa.
Import ListNotations.

Local Open Scope string_scope.
Local Open Scope N_scope.

(* ===================================================================== *)
(** * JavaScript strings *)
(* ===================================================================== *)

(** A JavaScript string is a sequence of UTF-16 code units. *)
Definition jsstring := list N.

(** Source literals are written in UTF-8; [utf16] re-encodes the bytes of
    such a literal as UTF-16 code units (a four-byte sequence becomes a
    surrogate pair). *)
Fixpoint utf16 (bs : list N) : jsstring :=
  match bs with
  | [] => []
  | b0 :: r0 =>
    if b0 <? 128 then b0 :: utf16 r0
    else
      match r0 with
      | [] => []
      | b1 :: r1 =>
        if b0 <? 224 then ((b0 - 192) * 64 + (b1 - 128)) :: utf16 r1
        else
          match r1 with
          | [] => []
          | b2 :: r2 =>
            if b0 <? 240
            then ((b0 - 224) * 4096 + (b1 - 128) * 64 + (b2 - 128)) :: utf16 r2
            else
              match r2 with
              | [] => []
              | b3 :: r3 =>
                let cp := (b0 - 240) * 262144 + (b1 - 128) * 4096
                          + (b2 - 128) * 64 + (b3 - 128) in
                let v := cp - 65536 in
                (55296 + v / 1024) :: (56320 + v mod 1024) :: utf16 r3
              end
          end
      end
  end.

Definition js (s : string) : jsstring :=
  utf16 (map N_of_ascii (list_ascii_of_string s)).

Definition jsstring_eqb (a b : jsstring) : bool :=
  if list_eq_dec N.eq_dec a b then true else false.

(** Code units the parsers name explicitly. *)
Definition ch_dollar : N := 36.    (* $ *)
Definition ch_comma  : N := 44.    (* , *)
Definition ch_dot    : N := 46.    (* . *)
Definition ch_slash  : N := 47.    (* / *)
Definition ch_colon  : N := 58.    (* : *)
Definition ch_space  : N := 32.
Definition ch_pound  : N := 163.   (* U+00A3 *)
Definition ch_euro   : N := 8364.  (* U+20AC *)
Definition ch_rupee  : N := 8377.  (* U+20B9 *)

Definition is_digit (c : N) : bool := (48 <=? c) && (c <=? 57).
Definition is_upper (c : N) : bool := (65 <=? c) && (c <=? 90).
Definition is_lower (c : N) : bool := (97 <=? c) && (c <=? 122).

(** [\s] of a regular expression, which is also what [trim] strips:
    WhiteSpace and LineTerminator of ECMAScript. *)
Definition is_space (c : N) : bool :=
  existsb (N.eqb c)
    [9; 10; 11; 12; 13; 32; 160; 5760; 8232; 8233; 8239; 8287; 12288; 65279]
  || ((8192 <=? c) && (c <=? 8202)).

(** Canonical form of a code unit under the [i] flag (no [u] flag): the
    upper-case mapping.  Given for the letters the patterns of this program
    contain: ASCII and the basic Cyrillic range. *)
Definition canonicalize (c : N) : N :=
  if is_lower c then c - 32
  else if (1072 <=? c) && (c <=? 1103) then c - 32
  else c.

(** [s.includes(t)] *)
Fixpoint js_prefix (t s : jsstring) : bool :=
  match t, s with
  | [], _ => true
  | _ :: _, [] => false
  | a :: t', b :: s' => (a =? b) && js_prefix t' s'
  end.

Fixpoint js_includes (s t : jsstring) : bool :=
  js_prefix t s ||
  match s with
  | [] => false
  | _ :: s' => js_includes s' t
  end.

(** [s.toLowerCase()], on the ASCII letters (the needles searched for
    afterwards are ASCII words). *)
Definition toLowerCase (s : jsstring) : jsstring :=
  map (fun c => if is_upper c then c + 32 else c) s.

(** [s.trim()] *)
Fixpoint trimStart (s : jsstring) : jsstring :=
  match s with
  | c :: s' => if is_space c then trimStart s' else s
  | [] => []
  end.

Definition trim (s : jsstring) : jsstring :=
  rev (trimStart (rev (trimStart s))).

(** [s.replace(/\s+/g, ' ')]: every maximal run of white space becomes one
    space. *)
Fixpoint collapse_spaces (in_run : bool) (s : jsstring) : jsstring :=
  match s with
  | [] => []
  | c :: s' =>
    if is_space c
    then if in_run then collapse_spaces true s'
         else ch_space :: collapse_spaces true s'
    else c :: collapse_spaces false s'
  end.

(** [s.replace(/,/g, '')] *)
Definition remove_commas (s : jsstring) : jsstring :=
  filter (fun c => negb (c =? ch_comma)) s.

(** The [cleanText] of every price parser:
    [priceText.replace(/\s+/g, ' ').trim()]. *)
Definition cleanText (priceText : jsstring) : jsstring :=
  trim (collapse_spaces false priceText).

(* ===================================================================== *)
(** * Numbers *)
(* ===================================================================== *)

(** Amounts are the decimal values of the digit strings that [parseFloat]
    reads, kept exact as rationals. *)

Fixpoint digits_value (acc : Z) (s : jsstring) : Z * nat * jsstring :=
  match s with
  | c :: s' =>
    if is_digit c
    then let '(v, n, rest) := digits_value (acc * 10 + Z.of_N (c - 48)) s' in
         (v, S n, rest)
    else (acc, O, s)
  | [] => (acc, O, [])
  end.

(** [parseFloat(s)] on the unsigned decimal literals that reach it here (the
    captured groups hold digits and at most one dot): the longest prefix
    [digits], [digits.digits] or [.digits]; [None] is [NaN]. *)
Definition parseFloat (s : jsstring) : option Q :=
  let '(ip, ni, rest) := digits_value 0 s in
  match rest with
  | c :: rest' =>
    if c =? ch_dot then
      let '(fp, nf, _) := digits_value ip rest' in
      match ni, nf with
      | O, O => None
      | _, _ => Some (Qmake fp (Z.to_pos (10 ^ Z.of_nat nf)))
      end
    else match ni with O => None | _ => Some (Qmake ip 1) end
  | [] => match ni with O => None | _ => Some (Qmake ip 1) end
  end.

(* ===================================================================== *)
(** * Regular expressions *)
(* ===================================================================== *)

(** The fragment of ECMAScript regular expressions the price parsers use,
    with its backtracking semantics: quantifiers are greedy, alternatives
    are tried left to right, and [match]/[test] report the leftmost match. *)
Module Regex.

Inductive cclass :=
| COne (c : N)            (* a literal character *)
| CSet (cs : list N)      (* [...] listing characters *)
| CDigit                  (* \d *)
| CSpace                  (* \s *)
| CUpper.                 (* [A-Z] *)

Inductive regex :=
| Eps
| Chr (cl : cclass)
| Seq (a b : regex)
| Alt (a b : regex)
| Star (a : regex)
| Group (i : nat) (a : regex).

(** Derived forms. *)
Definition Opt (a : regex) : regex := Alt a Eps.            (* a?  *)
Definition Plus (a : regex) : regex := Seq a (Star a).      (* a+  *)
Fixpoint Times (n : nat) (a : regex) : regex :=             (* a{n} *)
  match n with
  | O => Eps
  | S n' => Seq a (Times n' a)
  end.
Fixpoint UpTo (n : nat) (a : regex) : regex :=              (* a{0,n} *)
  match n with
  | O => Eps
  | S n' => Opt (Seq a (UpTo n' a))
  end.
Definition Range (lo hi : nat) (a : regex) : regex :=       (* a{lo,hi} *)
  Seq (Times lo a) (UpTo (hi - lo) a).
Fixpoint Str (s : jsstring) : regex :=                      (* a literal word *)
  match s with
  | [] => Eps
  | c :: s' => Seq (Chr (COne c)) (Str s')
  end.

(** Does the code unit [c] belong to the class?  [ic] is the [i] flag:
    both sides are compared in canonical form. *)
Definition in_class (ic : bool) (cl : cclass) (c : N) : bool :=
  match cl with
  | COne d => if ic then canonicalize c =? canonicalize d else c =? d
  | CSet ds =>
    if ic then existsb (fun d => canonicalize c =? canonicalize d) ds
    else existsb (N.eqb c) ds
  | CDigit => is_digit c
  | CSpace => is_space c
  | CUpper => if ic then is_upper (canonicalize c) else is_upper c
  end.

Definition captures := list (nat * jsstring).

Fixpoint capture (i : nat) (cs : captures) : option jsstring :=
  match cs with
  | [] => None
  | (j, v) :: cs' => if Nat.eqb i j then Some v else capture i cs'
  end.

(** [exec ic r s cs k]: match [r] at the head of [s], then continue with
    [k] on what is left; a failing continuation makes the matcher
    backtrack into [r]. *)
Fixpoint exec (ic : bool) (r : regex) (s : jsstring) (cs : captures)
         (k : jsstring -> captures -> option captures) : option captures :=
  match r with
  | Eps => k s cs
  | Chr cl =>
    match s with
    | c :: s' => if in_class ic cl c then k s' cs else None
    | [] => None
    end
  | Seq a b => exec ic a s cs (fun s' cs' => exec ic b s' cs' k)
  | Alt a b =>
    match exec ic a s cs k with
    | Some res => Some res
    | None => exec ic b s cs k
    end
  | Star a =>
    (fix loop (fuel : nat) (s : jsstring) (cs : captures) {struct fuel} :=
       match fuel with
       | O => k s cs
       | S fuel' =>
         match exec ic a s cs
                 (fun s' cs' =>
                    if (List.length s' <? List.length s)%nat
                    then loop fuel' s' cs' else None) with
         | Some res => Some res
         | None => k s cs
         end
       end) (List.length s) s cs
  | Group i a =>
    exec ic a s cs
      (fun s' cs' => k s' ((i, firstn (List.length s - List.length s') s) :: cs'))
  end.

(** The leftmost match; group 0 is the matched text. *)
Fixpoint search (ic : bool) (r : regex) (s : jsstring) : option captures :=
  match exec ic (Group 0 r) s [] (fun _ cs => Some cs) with
  | Some cs => Some cs
  | None =>
    match s with
    | [] => None
    | _ :: s' => search ic r s'
    end
  end.

(** [re.test(s)] *)
Definition test (ic : bool) (r : regex) (s : jsstring) : bool :=
  match search ic r s with Some _ => true | None => false end.

End Regex.
Import Regex.

(** [s.match(re)] for a pattern without the [g] flag: the groups of the
    leftmost match, or [None] for [null]. *)
Definition str_match (ic : bool) (r : regex) (s : jsstring) : option captures :=
  search ic r s.

(** A string is truthy when it is not empty; a group that did not take part
    in the match is [undefined], which is falsy. *)
Definition truthy (g : option jsstring) : bool :=
  match g with
  | Some (_ :: _) => true
  | _ => false
  end.

Definition group_text (g : option jsstring) : jsstring :=
  match g with Some v => v | None => [] end.

(* ===================================================================== *)
(** * Exceptions *)
(* ===================================================================== *)

Inductive exn :=
| SyntaxError (selector : string).   (* DOMException raised by the selector engine *)

Inductive Exc (A : Type) :=
| Ok (a : A)
| Throw (e : exn).
Arguments Ok {A} a.
Arguments Throw {A} e.

Definition bind {A B : Type} (m : Exc A) (f : A -> Exc B) : Exc B :=
  match m with
  | Ok a => f a
  | Throw e => Throw e
  end.

Notation "x <- m ;; f" := (bind m (fun x => f))
  (at level 61, m at next level, right associativity).

(** [try { body } catch (error) { return fallback; }] *)
Definition try_catch {A : Type} (body : Exc A) (fallback : A) : A :=
  match body with
  | Ok a => a
  | Throw _ => fallback
  end.

(* ===================================================================== *)
(** * The page *)
(* ===================================================================== *)

(** The engine reads the merchant page only through [querySelector],
    [querySelectorAll], [textContent], [hasAttribute] and [location]; an
    element is therefore what those calls return for it, and a document is
    its location together with the elements each selector resolves to, in
    document order. *)
#[local] Unset Elimination Schemes.
Inductive Element := mkElement {
  textContent : jsstring;
  attributes : list string;
  within : string -> list Element
}.
#[local] Set Elimination Schemes.

Record Document := mkDocument {
  hostname : jsstring;
  pathname : jsstring;
  href : jsstring;
  select : string -> list Element
}.

(** Every selector the engine passes is well-formed CSS except the ones
    written with [:contains(...)], which is a jQuery extension: the
    browser's selector engine rejects those with a SyntaxError. *)
Definition valid_selector (sel : string) : bool :=
  negb (js_includes (js sel) (js ":contains(")).

Definition querySelectorAll (d : Document) (sel : string) : Exc (list Element) :=
  if valid_selector sel then Ok (select d sel) else Throw (SyntaxError sel).

Definition querySelector (d : Document) (sel : string) : Exc (option Element) :=
  els <- querySelectorAll d sel ;; Ok (hd_error els).

Definition elem_querySelectorAll (e : Element) (sel : string) : Exc (list Element) :=
  if valid_selector sel then Ok (within e sel) else Throw (SyntaxError sel).

Definition elem_querySelector (e : Element) (sel : string) : Exc (option Element) :=
  els <- elem_querySelectorAll e sel ;; Ok (hd_error els).

Definition hasAttribute (e : Element) (a : string) : bool :=
  existsb (String.eqb a) (attributes e).

(** [selectors.join(', ')] *)
Fixpoint join (sels : list string) : string :=
  match sels with
  | [] => ""
  | [x] => x
  | x :: rest => x ++ ", " ++ join rest
  end.

(** Selector literals of the source use double quotes inside; here they are
    written with apostrophes and [dq] puts the double quotes back. *)
Fixpoint dq (s : string) : string :=
  match s with
  | EmptyString => EmptyString
  | String c s' =>
    String (if Ascii.eqb c "'" then ascii_of_nat 34 else c) (dq s')
  end.

Definition isSome {A : Type} (o : option A) : bool :=
  match o with Some _ => true | None => false end.

(** [findElement(selectors)], the private helper each platform class
    carries a copy of: the first element any selector of the chain resolves
    to. *)
Fixpoint findElement (d : Document) (selectors : list string) : Exc (option Element) :=
  match selectors with
  | [] => Ok None
  | selector :: rest =>
    element <- querySelector d selector ;;
    match element with
    | Some el => Ok (Some el)
    | None => findElement d rest
    end
  end.

(** [[...].some(x => s.includes(x))] *)
Definition some_included (s : jsstring) (needles : list string) : bool :=
  existsb (fun x => js_includes s (js x)) needles.

(* ===================================================================== *)
(** * Checkout data (platforms/types.ts) *)
(* ===================================================================== *)

Record Price := mkPrice {
  amount : Q;
  currency : jsstring
}.

Record CheckoutItem := mkItem {
  item_name : jsstring;
  item_platform : string;
  item_price : option Q;
  item_type : option string
}.

Record CheckoutInfo := mkCheckoutInfo {
  platform : string;
  totalAmount : Q;
  ci_currency : jsstring;
  items : list CheckoutItem;
  checkoutUrl : jsstring;
  timestamp : Z
}.

Record GiftCardData := mkGiftCard {
  code : jsstring;
  gc_amount : Q;
  gc_currency : jsstring;
  gc_platform : string
}.

(** [`${index + 1}`] *)
Definition number_text (n : nat) : jsstring :=
  js (NilZero.string_of_uint (Nat.to_uint n)).

(** [text?.trim() || fallback] *)
Definition trimmed_or (e : option Element) (fallback : jsstring) : jsstring :=
  match e with
  | Some el =>
    match trim (textContent el) with
    | [] => fallback
    | t => t
    end
  | None => fallback
  end.

(** The loop shared by the three [extract...Price] methods:
    [for (const selector of chain) { const element =
    document.querySelector(selector); if (element) { const parsed =
    parse(element.textContent || ''); if (parsed) return parsed; } }];
    [None] means the loop fell through. *)
Fixpoint price_from_chain (parse : jsstring -> option Price) (d : Document)
         (chain : list string) : Exc (option Price) :=
  match chain with
  | [] => Ok None
  | selector :: rest =>
    element <- querySelector d selector ;;
    match element with
    | Some el =>
      match parse (textContent el) with
      | Some parsed => Ok (Some parsed)
      | None => price_from_chain parse d rest
      end
    | None => price_from_chain parse d rest
    end
  end.

(** The same loop over elements already in hand. *)
Fixpoint price_from_elements (parse : jsstring -> option Price)
         (els : list Element) : option Price :=
  match els with
  | [] => None
  | el :: rest =>
    match parse (textContent el) with
    | Some parsed => Some parsed
    | None => price_from_elements parse rest
    end
  end.

(** [for (const selector of chain) { if (document.querySelector(selector))
    return true; }]; [false] means the loop fell through. *)
Fixpoint any_resolves (d : Document) (chain : list string) : Exc bool :=
  match chain with
  | [] => Ok false
  | selector :: rest =>
    element <- querySelector d selector ;;
    if isSome element then Ok true else any_resolves d rest
  end.

(** [for (const selector of chain) { const element =
    document.querySelector(selector); if (element &&
    element.textContent?.toLowerCase().includes(word)) return true; }] *)
Fixpoint any_says (word : string) (d : Document) (chain : list string) : Exc bool :=
  match chain with
  | [] => Ok false
  | selector :: rest =>
    element <- querySelector d selector ;;
    match element with
    | Some el =>
      if js_includes (toLowerCase (textContent el)) (js word)
      then Ok true else any_says word d rest
    | None => any_says word d rest
    end
  end.

(** Pieces of the price patterns. *)
Definition digit : regex := Chr CDigit.
Definition spaces : regex := Star (Chr CSpace).                 (* \s* *)
Definition cents : regex :=                                     (* (?:\.\d{2})? *)
  Opt (Seq (Chr (COne ch_dot)) (Times 2 digit)).
Definition plain_amount : regex := Seq (Plus digit) cents.      (* \d+(?:\.\d{2})? *)
Definition iso_code : regex := Times 3 (Chr CUpper).            (* [A-Z]{3} *)

(* ===================================================================== *)
(** * Amazon (platforms/amazon.ts) *)
(* ===================================================================== *)

Module Amazon.

Definition name : string := "amazon".
Definition displayName : string := "Amazon".
Definition supportedDomains : list string :=
  ["amazon.com"; "amazon.co.uk"; "amazon.de"; "amazon.fr";
   "amazon.it"; "amazon.es"; "amazon.ca"; "amazon.com.au"].

Module selectors.
Definition checkout_totalPrice : list string :=
  ["#subtotals-marketplace-table .grand-total-price";
   ".grand-total-price-value";
   "#subtotals-marketplace-spc .a-offscreen";
   dq "span[data-feature-name='subtotals'] .currencyINR"].
Definition checkout_giftCardSection : list string :=
  ["#gc-redemption-section";
   dq ".a-box[data-testid='gift-cards-and-promotional-codes']";
   "#gift-cards-and-promotional-codes"].
Definition checkout_giftCardInput : list string :=
  ["#gc-redemption-input";
   dq "input[name='giftCardCode']";
   dq "input[aria-label*='gift card']"].
Definition checkout_applyButton : list string :=
  ["#gc-redemption-apply-button";
   dq "button[aria-label*='Apply gift card']";
   dq ".a-button[data-testid='apply-gift-card-button']"].
Definition product_price : list string :=
  [".a-price-whole"; "#priceblock_dealprice"; "#priceblock_ourprice";
   ".a-offscreen"].
Definition product_buyNowButton : list string :=
  ["#buy-now-button"; dq "input[name='submit.buy-now']"].
End selectors.

Definition checkoutPaths : list string :=
  ["/gp/buy/"; "/checkout/"; "/gp/cart/view.html"; "/gp/cart/"; "/ap/signin"].

Definition isDetected (d : Document) : Exc bool :=
  let isAmazonDomain := some_included (hostname d) supportedDomains in
  if negb isAmazonDomain then Ok false
  else
    let isCheckoutPage := some_included (pathname d) checkoutPaths in
    buyNow <- findElement d selectors.product_buyNowButton ;;
    let hasBuyNowButton := isSome buyNow in
    Ok (isCheckoutPage || hasBuyNowButton).

(** [\d+(?:,\d{3})*(?:\.\d{2})?] *)
Definition grouped_amount : regex :=
  Seq (Plus digit)
      (Seq (Star (Seq (Chr (COne ch_comma)) (Times 3 digit))) cents).

Definition patterns : list regex :=
  [ Seq (Chr (COne ch_dollar)) (Group 1 grouped_amount);
    Seq (Chr (COne ch_pound)) (Group 1 grouped_amount);
    Seq (Chr (COne ch_euro)) (Group 1 grouped_amount);
    Seq (Group 1 grouped_amount) (Seq spaces (Str (js "USD")));
    Seq (Group 1 grouped_amount) (Seq spaces (Chr (COne ch_dollar)));
    Seq (Chr (COne ch_rupee)) (Group 1 grouped_amount) ].

Definition currency_of (clean : jsstring) : jsstring :=
  if js_includes clean [ch_pound] then js "GBP"
  else if js_includes clean [ch_euro] then js "EUR"
  else if js_includes clean [ch_rupee] then js "INR"
  else if js_includes clean (js "USD") then js "USD"
  else js "USD".

Fixpoint try_patterns (clean : jsstring) (ps : list regex) : option Price :=
  match ps with
  | [] => None
  | pattern :: rest =>
    match str_match false pattern clean with
    | Some m =>
      let amountStr := remove_commas (group_text (capture 1 m)) in
      match parseFloat amountStr with
      | None => try_patterns clean rest            (* isNaN: continue *)
      | Some a => Some (mkPrice a (currency_of clean))
      end
    | None => try_patterns clean rest
    end
  end.

Definition parseAmazonPrice (priceText : jsstring) : option Price :=
  match priceText with
  | [] => None
  | _ => try_patterns (cleanText priceText) patterns
  end.

Definition extractTotalPrice (d : Document) : Exc (option Price) :=
  checkout <- price_from_chain parseAmazonPrice d selectors.checkout_totalPrice ;;
  match checkout with
  | Some p => Ok (Some p)
  | None => price_from_chain parseAmazonPrice d selectors.product_price
  end.

Definition itemSelectors : list string :=
  [".sc-item-content-group"; ".a-row.sc-item-row";
   dq "[data-name='Active Items'] .sc-list-item"].

(** The [forEach] body: one item per element, named after its title or
    after its position. *)
Fixpoint items_of (els : list Element) (index : nat) : Exc (list CheckoutItem) :=
  match els with
  | [] => Ok []
  | element :: rest =>
    titleElement <- elem_querySelector element ".sc-product-title, .a-truncate-full" ;;
    let title := trimmed_or titleElement (js "Item " ++ number_text (index + 1))%list in
    more <- items_of rest (S index) ;;
    Ok (mkItem title "amazon" None None :: more)
  end.

Fixpoint collect_items (d : Document) (sels : list string) : Exc (list CheckoutItem) :=
  match sels with
  | [] => Ok []
  | selector :: rest =>
    itemElements <- querySelectorAll d selector ;;
    found <- items_of itemElements 0 ;;
    match found with
    | [] => collect_items d rest
    | _ => Ok found                                  (* items.length > 0: break *)
    end
  end.

Definition extractItems (d : Document) : Exc (list CheckoutItem) :=
  found <- collect_items d itemSelectors ;;
  Ok (firstn 5 found).

Definition getCheckoutInfo (d : Document) (now : Z) : option CheckoutInfo :=
  try_catch
    (totalPrice <- extractTotalPrice d ;;
     match totalPrice with
     | None => Ok None
     | Some total =>
       its <- extractItems d ;;
       Ok (Some (mkCheckoutInfo name (amount total) (currency total) its
                                (href d) now))
     end)
    None.

Definition successSelectors : list string :=
  [".a-alert-success"; ".gc-redemption-success";
   dq "[data-testid='gc-redemption-success']";
   dq ".a-alert-content:contains('applied')"].
Definition balanceSelectors : list string :=
  [".gc-redemption-balance"; dq "[data-testid='gift-card-balance']"].

Definition verifyGiftCardApplication (d : Document) : Exc bool :=
  said <- any_says "applied" d successSelectors ;;
  if said then Ok true
  else
    shown <- any_resolves d balanceSelectors ;;
    if shown then Ok true
    else
      newTotal <- extractTotalPrice d ;;
      match newTotal with
      | Some t => if Qlt_le_dec 0 (amount t) then Ok true else Ok false
      | None => Ok false
      end.

Definition injectionSelectors : list string :=
  ["#checkout-button-group"; "#placeYourOrder"; ".a-button-group-vertical";
   ".pmts-button-group"].
Definition fallbackSelectors : list string :=
  ["#subtotals-marketplace-table"; ".a-box-group"].

Definition buttonId : string := "paymint-amazon-button".

End Amazon.

(* ===================================================================== *)
(** * Shared shape of the Netflix and Domino's price parsers *)
(* ===================================================================== *)

(** Both parsers run the same loop body over their own pattern list; they
    differ in the symbol class, in the symbol table and in whether commas
    are stripped before [parseFloat]. *)
Section SymbolParsers.

Variable symbol_class : list N.                    (* the class tested on match[1] *)
Variable getCurrencyFromSymbol : jsstring -> jsstring.
Variable number_of : jsstring -> option Q.

Fixpoint try_symbol_patterns (clean : jsstring) (ps : list (bool * regex))
  : option Price :=
  match ps with
  | [] => None
  | (ic, pattern) :: rest =>
    match str_match ic pattern clean with
    | Some m =>
      let m1 := capture 1 m in
      let m2 := capture 2 m in
      if truthy m1 && truthy m2
         && Regex.test false (Chr (CSet symbol_class)) (group_text m1)
      then (* currency symbol first *)
        match number_of (group_text m2) with
        | None => try_symbol_patterns clean rest
        | Some a => Some (mkPrice a (getCurrencyFromSymbol (group_text m1)))
        end
      else if truthy m1 && truthy m2
              && Regex.test false iso_code (group_text m2)
      then (* amount first, currency code after *)
        match number_of (group_text m1) with
        | None => try_symbol_patterns clean rest
        | Some a => Some (mkPrice a (group_text m2))
        end
      else try_symbol_patterns clean rest
    | None => try_symbol_patterns clean rest
    end
  end.

End SymbolParsers.

(* ===================================================================== *)
(** * Domino's (platforms/dominos.ts) *)
(* ===================================================================== *)

Module Dominos.

Definition name : string := "dominos".
Definition displayName : string := "Domino's Pizza".
Definition supportedDomains : list string :=
  ["dominos.com"; "dominos.co.uk"; "dominos.de"; "dominos.com.au";
   "dominos.ca"; "dominos.co.nz"; "dominos.ie"; "dominos.fr"].

Module selectors.
Definition checkout_totalPrice : list string :=
  [dq "[data-quid='order-summary-total']";
   ".order-total .price";
   "#total-price";
   ".checkout-total .amount";
   ".order-summary-total-row .total-amount"].
Definition checkout_giftCardSection : list string :=
  [dq "[data-quid='gift-card-section']";
   ".gift-card-container";
   "#gift-card-form";
   ".payment-gift-card";
   ".promo-gift-card-section"].
Definition checkout_giftCardInput : list string :=
  [dq "[data-quid='gift-card-input']";
   dq "input[name='giftCardNumber']";
   "#gift-card-number";
   dq "input[placeholder*='gift card']";
   dq "input[aria-label*='gift card']"].
Definition checkout_applyButton : list string :=
  [dq "[data-quid='apply-gift-card']";
   dq "button[data-quid='gift-card-apply']";
   ".apply-gift-card-btn";
   dq "button:contains('Apply Gift Card')";
   ".btn-apply-gift-card"].
Definition cart_cartItems : list string :=
  [".cart-item"; dq "[data-quid='cart-item']"; ".order-item"; ".pizza-item"].
Definition cart_itemName : list string :=
  [".item-name"; dq "[data-quid='item-name']"; ".product-name"].
Definition cart_itemPrice : list string :=
  [".item-price"; dq "[data-quid='item-price']"; ".product-price"].
Definition payment_paymentSection : list string :=
  [dq "[data-quid='payment-section']";
   ".payment-methods";
   "#payment-container";
   ".checkout-payment"].
Definition payment_creditCardOption : list string :=
  [dq "[data-quid='credit-card-payment']";
   ".payment-method-credit";
   "#credit-card-option"].
End selectors.

Definition relevantPaths : list string :=
  ["/checkout"; "/cart"; "/order-summary"; "/payment"; "/review-order"].

Definition isDetected (d : Document) : Exc bool :=
  let isDominosDomain := some_included (hostname d) supportedDomains in
  if negb isDominosDomain then Ok false
  else
    let isRelevantPage := some_included (pathname d) relevantPaths in
    total <- findElement d selectors.checkout_totalPrice ;;
    cart <- findElement d selectors.cart_cartItems ;;
    pay <- findElement d selectors.payment_paymentSection ;;
    let hasOrderTotal := isSome total in
    let hasCartItems := isSome cart in
    let hasPaymentSection := isSome pay in
    Ok (isRelevantPage || hasOrderTotal || hasCartItems || hasPaymentSection).

Definition symbols : list N := [ch_pound; ch_dollar; ch_euro].   (* [£$€] *)
Definition symbol : regex := Chr (CSet symbols).

Definition patterns : list (bool * regex) :=
  [ (* /([£$€])(\d+(?:\.\d{2})?)/ *)
    (false, Seq (Group 1 symbol) (Group 2 plain_amount));
    (* /(\d+(?:\.\d{2})?)\s*([A-Z]{3})/ *)
    (false, Seq (Group 1 plain_amount) (Seq spaces (Group 2 iso_code)));
    (* /total:?\s*([£$€])(\d+(?:\.\d{2})?)/i *)
    (true, Seq (Str (js "total"))
               (Seq (Opt (Chr (COne ch_colon)))
                    (Seq spaces (Seq (Group 1 symbol) (Group 2 plain_amount)))));
    (* /([£$€])(\d{1,3}(?:,\d{3})*(?:\.\d{2})?)/ *)
    (false, Seq (Group 1 symbol)
                (Group 2 (Seq (Range 1 3 digit)
                              (Seq (Star (Seq (Chr (COne ch_comma)) (Times 3 digit)))
                                   cents)))) ].

(** [mapping[symbol] || 'USD'] *)
Definition getCurrencyFromSymbol (sym : jsstring) : jsstring :=
  if jsstring_eqb sym [ch_dollar] then js "USD"
  else if jsstring_eqb sym [ch_pound] then js "GBP"
  else if jsstring_eqb sym [ch_euro] then js "EUR"
  else js "USD".

Definition parseDominosPrice (priceText : jsstring) : option Price :=
  match priceText with
  | [] => None
  | _ =>
    try_symbol_patterns symbols getCurrencyFromSymbol
      (fun t => parseFloat (remove_commas t))
      (cleanText priceText) patterns
  end.

(** /[\$£€]\d+\.\d{2}/ *)
Definition looks_like_price : regex :=
  Seq (Chr (CSet [ch_dollar; ch_pound; ch_euro]))
      (Seq (Plus digit) (Seq (Chr (COne ch_dot)) (Times 2 digit))).

Definition extractTotalPrice (d : Document) : Exc (option Price) :=
  main <- price_from_chain parseDominosPrice d selectors.checkout_totalPrice ;;
  match main with
  | Some p => Ok (Some p)
  | None =>
    totalElements <- querySelectorAll d (dq "*[class*='total'], *[data-quid*='total']") ;;
    Ok (price_from_elements parseDominosPrice
          (filter (fun el => isSome (str_match false looks_like_price (textContent el)))
                  totalElements))
  end.

Definition item_of (element : Element) (index : nat) : Exc CheckoutItem :=
  nameElement <- elem_querySelector element (join selectors.cart_itemName) ;;
  let nm := trimmed_or nameElement (js "Pizza Item " ++ number_text (index + 1))%list in
  priceElement <- elem_querySelector element (join selectors.cart_itemPrice) ;;
  let price :=
    match priceElement with
    | Some pe =>
      match parseDominosPrice (textContent pe) with
      | Some parsed => amount parsed                (* parsed?.amount || 0 *)
      | None => 0%Q
      end
    | None => 0%Q
    end in
  Ok (mkItem nm "dominos" (Some price) (Some "food")).

Fixpoint items_of (els : list Element) (index : nat) : Exc (list CheckoutItem) :=
  match els with
  | [] => Ok []
  | element :: rest =>
    it <- item_of element index ;;
    more <- items_of rest (S index) ;;
    Ok (it :: more)
  end.

Definition genericItem : CheckoutItem :=
  mkItem (js "Domino's Order") "dominos" None (Some "food").

Definition extractOrderItems (d : Document) : Exc (list CheckoutItem) :=
  itemElements <- querySelectorAll d (join selectors.cart_cartItems) ;;
  found <- items_of itemElements 0 ;;
  let its := match found with [] => [genericItem] | _ => found end in
  Ok (firstn 10 its).

Definition getCheckoutInfo (d : Document) (now : Z) : option CheckoutInfo :=
  try_catch
    (totalPrice <- extractTotalPrice d ;;
     match totalPrice with
     | None => Ok None
     | Some total =>
       its <- extractOrderItems d ;;
       Ok (Some (mkCheckoutInfo name (amount total) (currency total) its
                                (href d) now))
     end)
    None.

Definition successSelectors : list string :=
  [".gift-card-success"; ".promo-success"; dq "[data-quid*='success']";
   ".alert-success"].
Definition balanceSelectors : list string :=
  [".gift-card-balance"; dq "[data-quid*='gift-card-applied']";
   ".applied-gift-card"].
Definition discountSelectors : list string :=
  [".discount-line"; ".gift-card-discount"; dq "[data-quid*='discount']"].

Definition verifyGiftCardApplication (d : Document) : Exc bool :=
  said <- any_says "applied" d successSelectors ;;
  if said then Ok true
  else
    shown <- any_resolves d balanceSelectors ;;
    if shown then Ok true
    else
      newTotal <- extractTotalPrice d ;;
      let positive :=
        match newTotal with
        | Some t => if Qlt_le_dec 0 (amount t) then true else false
        | None => false
        end in
      if positive then Ok true
      else any_resolves d discountSelectors.

Definition injectionSelectors : list string :=
  [dq "[data-quid='payment-section']"; ".payment-methods";
   ".checkout-payment"; ".payment-options"].
Definition fallbackSelectors : list string :=
  [".checkout-container"; ".order-summary"; ".cart-summary";
   "#checkout-content"].

Definition buttonId : string := "paymint-dominos-button".

End Dominos.

(* ===================================================================== *)
(** * Netflix (platforms/netflix.ts) *)
(* ===================================================================== *)

Module Netflix.

Definition name : string := "netflix".
Definition displayName : string := "Netflix".
Definition supportedDomains : list string :=
  ["netflix.com"; "netflix.co.uk"; "netflix.de"; "netflix.fr";
   "netflix.it"; "netflix.es"; "netflix.ca"; "netflix.com.au";
   "netflix.co.jp"; "netflix.in"].

Module selectors.
Definition checkout_totalPrice : list string :=
  [dq "[data-uia='plan-price']";
   ".price-display .currency-price";
   ".plan-price .amount";
   ".plan-selection-price"].
Definition checkout_giftCardSection : list string :=
  [dq "[data-uia='gift-card-section']";
   ".gift-card-redemption";
   "#gift-code-section";
   ".redeem-gift-container"].
Definition checkout_giftCardInput : list string :=
  [dq "[data-uia='gift-code-input']";
   dq "input[name='giftCode']";
   "#gift-code-input";
   dq "input[placeholder*='gift']"].
Definition checkout_applyButton : list string :=
  [dq "[data-uia='redeem-gift-button']";
   dq "button[data-uia='redeem-button']";
   ".redeem-button";
   dq "button:contains('Redeem')"].
Definition plans_planSelection : list string :=
  [dq "[data-uia='plan-selection-container']";
   ".plan-selection-wrapper";
   ".planGrid"].
Definition plans_selectedPlan : list string :=
  [dq "[data-uia='plan-selection-option'][aria-checked='true']";
   ".plan-option.selected";
   ".plan-selected"].
Definition signup_paymentStep : list string :=
  [dq "[data-uia='payment-picker-container']";
   ".payment-method-container";
   ".payment-picker"].
Definition signup_continueButton : list string :=
  [dq "[data-uia='payment-picker-continue']";
   dq "button[data-uia='continue-button']";
   ".btn-continue"].
End selectors.

Definition relevantPaths : list string :=
  ["/signup"; "/redeem"; "/gift-redemption"; "/payment"; "/planform"].

Definition isDetected (d : Document) : Exc bool :=
  let isNetflixDomain := some_included (hostname d) supportedDomains in
  if negb isNetflixDomain then Ok false
  else
    let isRelevantPage := some_included (pathname d) relevantPaths in
    plan <- findElement d selectors.plans_planSelection ;;
    step <- findElement d selectors.signup_paymentStep ;;
    gift <- findElement d selectors.checkout_giftCardSection ;;
    let hasPlanSelection := isSome plan in
    let hasPaymentStep := isSome step in
    let hasGiftCardSection := isSome gift in
    Ok (isRelevantPage || hasPlanSelection || hasPaymentStep || hasGiftCardSection).

Definition symbols : list N := [ch_pound; ch_dollar; ch_euro; ch_rupee].  (* [£$€₹] *)
Definition symbol : regex := Chr (CSet symbols).

(** The tail shared by the first two patterns: [\s*] followed by the
    non-capturing group whose alternatives are [\/], [\s*per\s*] and
    [\s*]. *)
Definition per : regex :=
  Seq spaces
      (Alt (Chr (COne ch_slash))
           (Alt (Seq spaces (Seq (Str (js "per")) spaces)) spaces)).

Definition patterns : list (bool * regex) :=
  [ (* /([£$€₹])(\d+(?:\.\d{2})?) per (?:month|mo|месяц)?/i *)
    (true, Seq (Group 1 symbol)
               (Seq (Group 2 plain_amount)
                    (Seq per
                         (Opt (Alt (Str (js "month"))
                                   (Alt (Str (js "mo")) (Str (js "месяц"))))))));
    (* /(\d+(?:\.\d{2})?)\s*([A-Z]{3}) per (?:month|mo)?/i *)
    (true, Seq (Group 1 plain_amount)
               (Seq spaces
                    (Seq (Group 2 iso_code)
                         (Seq per
                              (Opt (Alt (Str (js "month")) (Str (js "mo"))))))));
    (* /([£$€₹])(\d+(?:\.\d{2})?)/ *)
    (false, Seq (Group 1 symbol) (Group 2 plain_amount));
    (* /(\d+(?:\.\d{2})?)\s*([A-Z]{3})/ *)
    (false, Seq (Group 1 plain_amount) (Seq spaces (Group 2 iso_code))) ].

(** [mapping[symbol] || 'USD'] *)
Definition getCurrencyFromSymbol (sym : jsstring) : jsstring :=
  if jsstring_eqb sym [ch_dollar] then js "USD"
  else if jsstring_eqb sym [ch_pound] then js "GBP"
  else if jsstring_eqb sym [ch_euro] then js "EUR"
  else if jsstring_eqb sym [ch_rupee] then js "INR"
  else js "USD".

Definition parseNetflixPrice (priceText : jsstring) : option Price :=
  match priceText with
  | [] => None
  | _ =>
    try_symbol_patterns symbols getCurrencyFromSymbol parseFloat
      (cleanText priceText) patterns
  end.

Definition extractPlanPrice (d : Document) : Exc (option Price) :=
  main <- price_from_chain parseNetflixPrice d selectors.checkout_totalPrice ;;
  match main with
  | Some p => Ok (Some p)
  | None =>
    selectedPlan <- findElement d selectors.plans_selectedPlan ;;
    match selectedPlan with
    | Some plan =>
      priceElements <- elem_querySelectorAll plan (dq ".price, .amount, [data-uia*='price']") ;;
      Ok (price_from_elements parseNetflixPrice priceElements)
    | None => Ok None
    end
  end.

Definition extractSelectedPlan (d : Document) : Exc (list CheckoutItem) :=
  selectedPlan <- findElement d selectors.plans_selectedPlan ;;
  match selectedPlan with
  | Some plan =>
    titleElement <- elem_querySelector plan (dq "[data-uia*='plan'], .plan-title, .plan-name") ;;
    let title := trimmed_or titleElement (js "Netflix Subscription") in
    Ok [mkItem title "netflix" None (Some "subscription")]
  | None =>
    Ok [mkItem (js "Netflix Subscription") "netflix" None (Some "subscription")]
  end.

Definition getCheckoutInfo (d : Document) (now : Z) : option CheckoutInfo :=
  try_catch
    (totalPrice <- extractPlanPrice d ;;
     match totalPrice with
     | None => Ok None
     | Some total =>
       its <- extractSelectedPlan d ;;
       Ok (Some (mkCheckoutInfo name (amount total) (currency total) its
                                (href d) now))
     end)
    None.

Definition successSelectors : list string :=
  [dq "[data-uia='redeem-success']"; ".redeem-success-message";
   ".gift-success"; ".success-message"].
Definition balanceSelectors : list string :=
  [dq "[data-uia='account-balance']"; ".account-balance"; ".gift-balance"].

Definition verifyGiftCardRedemption (d : Document) : Exc bool :=
  said <- any_says "success" d successSelectors ;;
  if said then Ok true
  else
    shown <- any_resolves d balanceSelectors ;;
    if shown then Ok true
    else
      continueButton <- findElement d selectors.signup_continueButton ;;
      match continueButton with
      | Some b => Ok (negb (hasAttribute b "disabled"))
      | None => Ok false
      end.

Definition injectionSelectors : list string :=
  [dq "[data-uia='payment-picker-container']"; ".payment-method-container";
   ".plan-selection-wrapper"; ".redeem-gift-container"].
Definition fallbackSelectors : list string :=
  [".signup-body"; ".main-content"; ".center-content"].

Definition buttonId : string := "paymint-netflix-button".

End Netflix.

(* ===================================================================== *)
(** * The platform interface and registry (platforms/types.ts, index.ts) *)
(* ===================================================================== *)

(** The pay button a platform creates.  [document.createElement] returns a
    new element on every call; [serial] is that identity and [button_id] the
    [id] the platform gives the element. *)
Record Button := mkButton { button_id : string; serial : nat }.

(** [getButtonInjectionPoint()], the same two loops in each class: the
    first resolving selector of the preferred list, else of the fallback
    list.  The element is identified by the selector that found it. *)
Fixpoint first_resolving (d : Document) (sels : list string) : Exc (option string) :=
  match sels with
  | [] => Ok None
  | selector :: rest =>
    element <- querySelector d selector ;;
    if isSome element then Ok (Some selector) else first_resolving d rest
  end.

Definition injection_point (preferred fallback : list string) (d : Document)
  : Exc (option string) :=
  p <- first_resolving d preferred ;;
  match p with
  | Some sel => Ok (Some sel)
  | None => first_resolving d fallback
  end.

(** The interface of types.ts.  [applyGiftCard] is asynchronous; its calls
    are the pending attempts of the content script's state below. *)
Record PlatformDetector := mkPlatform {
  pd_name : string;
  pd_displayName : string;
  pd_supportedDomains : list string;
  isDetected : Document -> Exc bool;
  getCheckoutInfo : Document -> Z -> option CheckoutInfo;
  createPayButton : nat -> Button;
  getButtonInjectionPoint : Document -> Exc (option string)
}.

Definition AmazonPlatform : PlatformDetector :=
  mkPlatform Amazon.name Amazon.displayName Amazon.supportedDomains
             Amazon.isDetected Amazon.getCheckoutInfo
             (mkButton Amazon.buttonId)
             (injection_point Amazon.injectionSelectors Amazon.fallbackSelectors).

Definition NetflixPlatform : PlatformDetector :=
  mkPlatform Netflix.name Netflix.displayName Netflix.supportedDomains
             Netflix.isDetected Netflix.getCheckoutInfo
             (mkButton Netflix.buttonId)
             (injection_point Netflix.injectionSelectors Netflix.fallbackSelectors).

Definition DominosPlatform : PlatformDetector :=
  mkPlatform Dominos.name Dominos.displayName Dominos.supportedDomains
             Dominos.isDetected Dominos.getCheckoutInfo
             (mkButton Dominos.buttonId)
             (injection_point Dominos.injectionSelectors Dominos.fallbackSelectors).

Definition PLATFORM_LIST : list PlatformDetector :=
  [AmazonPlatform; NetflixPlatform; DominosPlatform].

(** [for (const platform of PLATFORM_LIST) { if (platform.isDetected())
    return platform; } return null;] *)
Fixpoint detect_in (d : Document) (ps : list PlatformDetector)
  : Exc (option PlatformDetector) :=
  match ps with
  | [] => Ok None
  | p :: rest =>
    detected <- isDetected p d ;;
    if detected then Ok (Some p) else detect_in d rest
  end.

Definition detectCurrentPlatform (d : Document) : Exc (option PlatformDetector) :=
  detect_in d PLATFORM_LIST.

Definition isSupportedDomain (host : jsstring) : bool :=
  existsb (fun p => some_included host (pd_supportedDomains p)) PLATFORM_LIST.

(* ===================================================================== *)
(** * The content script (content/content-script.ts) *)
(* ===================================================================== *)

(** The script runs on the page's single event loop: every handler below
    runs to completion on the state it finds.  The state holds the fields of
    [PaymintContentScript] and what the script has set up in the browser:
    its timers, its observer, the elements it has added and the messages it
    has sent. *)

Inductive Callback :=
| RetryDetection                      (* () => this.retryPlatformDetection() *)
| RemoveNotification (n : nat).       (* the auto-remove of showNotification *)

Record Timer := mkTimer {
  timer_id : nat;
  due : Z;
  callback : Callback
}.

Inductive NotificationType := NSuccess | NError | NInfo.

Record Notification := mkNotification {
  notification_id : nat;
  notification_type : NotificationType;
  notification_message : jsstring
}.

Inductive Outgoing :=
| CHECKOUT_INFO_DETECTED (platform : string) (checkoutInfo : CheckoutInfo)
| PAY_BUTTON_INJECTED (platform : string) (url : jsstring)
| INITIATE_CRYPTO_PAYMENT (platform : string) (checkoutInfo : CheckoutInfo) (timestamp : Z)
| GIFT_CARD_APPLIED_SUCCESS (platform : string) (giftCard : GiftCardData)
| GIFT_CARD_APPLIED_FAILED (platform : string) (giftCard : GiftCardData).

Inductive Incoming :=
| APPLY_GIFT_CARD (giftCardData : GiftCardData)
| GET_CHECKOUT_INFO
| PAYMENT_COMPLETED
| PAYMENT_FAILED (error : option jsstring)
| OtherMessage (type : string).

Inductive Response :=
| Success (ok : bool) (error : option string)       (* { success, error? } *)
| CheckoutInfoResponse (checkoutInfo : option CheckoutInfo).

(** A call of [platform.applyGiftCard(giftCardData)] whose promise is still
    pending. *)
Record Attempt := mkAttempt {
  attempt_id : nat;
  attempt_platform : PlatformDetector;
  attempt_data : GiftCardData
}.

Record State := mkState {
  currentPlatform : option PlatformDetector   (* this.currentPlatform *);
  payButton : option Button   (* this.payButton *);
  isInitialized : bool   (* this.isInitialized *);
  observer : bool   (* this.observer is a connected MutationObserver *);
  detectionTimeout : option nat   (* (this as any).detectionTimeout *);
  clock : Z   (* milliseconds *);
  timers : list Timer   (* pending setTimeout callbacks, oldest first *);
  next_timer : nat   (* the id the next setTimeout returns *);
  created : nat   (* elements created so far *);
  mounted : list (string * Button)   (* pay buttons in the page, with their mount point *);
  loading : bool   (* the pay button shows its processing state *);
  notifications : list Notification   (* notification boxes in the page *);
  sent : list Outgoing   (* chrome.runtime.sendMessage calls so far *);
  attempts : list Attempt   (* platform.applyGiftCard promises not yet settled *);
  started : nat   (* redemption attempts started so far *);
  rescans : nat   (* how often retryPlatformDetection has run *)
}.

Definition set_currentPlatform (v : option PlatformDetector) (s : State) : State :=
  mkState v (payButton s) (isInitialized s) (observer s) (detectionTimeout s) (clock s) (timers s) (next_timer s) (created s) (mounted s) (loading s) (notifications s) (sent s) (attempts s) (started s) (rescans s).
Definition set_payButton (v : option Button) (s : State) : State :=
  mkState (currentPlatform s) v (isInitialized s) (observer s) (detectionTimeout s) (clock s) (timers s) (next_timer s) (created s) (mounted s) (loading s) (notifications s) (sent s) (attempts s) (started s) (rescans s).
Definition set_isInitialized (v : bool) (s : State) : State :=
  mkState (currentPlatform s) (payButton s) v (observer s) (detectionTimeout s) (clock s) (timers s) (next_timer s) (created s) (mounted s) (loading s) (notifications s) (sent s) (attempts s) (started s) (rescans s).
Definition set_observer (v : bool) (s : State) : State :=
  mkState (currentPlatform s) (payButton s) (isInitialized s) v (detectionTimeout s) (clock s) (timers s) (next_timer s) (created s) (mounted s) (loading s) (notifications s) (sent s) (attempts s) (started s) (rescans s).
Definition set_detectionTimeout (v : option nat) (s : State) : State :=
  mkState (currentPlatform s) (payButton s) (isInitialized s) (observer s) v (clock s) (timers s) (next_timer s) (created s) (mounted s) (loading s) (notifications s) (sent s) (attempts s) (started s) (rescans s).
Definition set_clock (v : Z) (s : State) : State :=
  mkState (currentPlatform s) (payButton s) (isInitialized s) (observer s) (detectionTimeout s) v (timers s) (next_timer s) (created s) (mounted s) (loading s) (notifications s) (sent s) (attempts s) (started s) (rescans s).
Definition set_timers (v : list Timer) (s : State) : State :=
  mkState (currentPlatform s) (payButton s) (isInitialized s) (observer s) (detectionTimeout s) (clock s) v (next_timer s) (created s) (mounted s) (loading s) (notifications s) (sent s) (attempts s) (started s) (rescans s).
Definition set_next_timer (v : nat) (s : State) : State :=
  mkState (currentPlatform s) (payButton s) (isInitialized s) (observer s) (detectionTimeout s) (clock s) (timers s) v (created s) (mounted s) (loading s) (notifications s) (sent s) (attempts s) (started s) (rescans s).
Definition set_created (v : nat) (s : State) : State :=
  mkState (currentPlatform s) (payButton s) (isInitialized s) (observer s) (detectionTimeout s) (clock s) (timers s) (next_timer s) v (mounted s) (loading s) (notifications s) (sent s) (attempts s) (started s) (rescans s).
Definition set_mounted (v : list (string * Button)) (s : State) : State :=
  mkState (currentPlatform s) (payButton s) (isInitialized s) (observer s) (detectionTimeout s) (clock s) (timers s) (next_timer s) (created s) v (loading s) (notifications s) (sent s) (attempts s) (started s) (rescans s).
Definition set_loading (v : bool) (s : State) : State :=
  mkState (currentPlatform s) (payButton s) (isInitialized s) (observer s) (detectionTimeout s) (clock s) (timers s) (next_timer s) (created s) (mounted s) v (notifications s) (sent s) (attempts s) (started s) (rescans s).
Definition set_notifications (v : list Notification) (s : State) : State :=
  mkState (currentPlatform s) (payButton s) (isInitialized s) (observer s) (detectionTimeout s) (clock s) (timers s) (next_timer s) (created s) (mounted s) (loading s) v (sent s) (attempts s) (started s) (rescans s).
Definition set_sent (v : list Outgoing) (s : State) : State :=
  mkState (currentPlatform s) (payButton s) (isInitialized s) (observer s) (detectionTimeout s) (clock s) (timers s) (next_timer s) (created s) (mounted s) (loading s) (notifications s) v (attempts s) (started s) (rescans s).
Definition set_attempts (v : list Attempt) (s : State) : State :=
  mkState (currentPlatform s) (payButton s) (isInitialized s) (observer s) (detectionTimeout s) (clock s) (timers s) (next_timer s) (created s) (mounted s) (loading s) (notifications s) (sent s) v (started s) (rescans s).
Definition set_started (v : nat) (s : State) : State :=
  mkState (currentPlatform s) (payButton s) (isInitialized s) (observer s) (detectionTimeout s) (clock s) (timers s) (next_timer s) (created s) (mounted s) (loading s) (notifications s) (sent s) (attempts s) v (rescans s).
Definition set_rescans (v : nat) (s : State) : State :=
  mkState (currentPlatform s) (payButton s) (isInitialized s) (observer s) (detectionTimeout s) (clock s) (timers s) (next_timer s) (created s) (mounted s) (loading s) (notifications s) (sent s) (attempts s) (started s) v.

(** The fields as the class declares them, in a page where nothing has
    happened yet. *)
Definition fresh : State :=
  mkState None None false false None 0%Z [] 0%nat 0%nat [] false [] [] [] 0%nat 0%nat.

Definition setTimeout (cb : Callback) (ms : Z) (s : State) : nat * State :=
  let id := next_timer s in
  (id, set_next_timer (S id)
         (set_timers (timers s ++ [mkTimer id (clock s + ms) cb]) s)).

(** [clearTimeout(handle)]; an undefined or spent handle clears nothing. *)
Definition clearTimeout (handle : option nat) (s : State) : State :=
  match handle with
  | Some id => set_timers (filter (fun t => negb (timer_id t =? id)%nat) (timers s)) s
  | None => s
  end.

Definition sendMessage (m : Outgoing) (s : State) : State :=
  set_sent (sent s ++ [m]) s.

Definition showNotification (ty : NotificationType) (message : jsstring)
           (s : State) : State :=
  let n := next_timer s in
  let s1 := set_notifications (notifications s ++ [mkNotification n ty message]) s in
  snd (setTimeout (RemoveNotification n) 5000 s1).

Definition setPayButtonLoading (b : bool) (s : State) : State :=
  match payButton s with
  | None => s
  | Some _ => set_loading b s
  end.

Definition injectPayButton (d : Document) (s : State) : State :=
  match currentPlatform s, payButton s with
  | Some p, None =>
    match getButtonInjectionPoint p d with
    | Ok (Some injectionPoint) =>
      let button := createPayButton p (created s) in
      let s1 := set_created (S (created s)) (set_payButton (Some button) s) in
      let s2 := set_mounted (mounted s1 ++ [(injectionPoint, button)]) s1 in
      sendMessage (PAY_BUTTON_INJECTED (pd_name p) (href d)) s2
    | Ok None => s                      (* will retry *)
    | Throw _ => s                      (* caught and logged *)
    end
  | _, _ => s
  end.

Definition setupPlatformIntegration (d : Document) (s : State) : State :=
  match currentPlatform s with
  | None => s
  | Some p =>
    let s1 :=
      match getCheckoutInfo p d (clock s) with
      | Some checkoutInfo => sendMessage (CHECKOUT_INFO_DETECTED (pd_name p) checkoutInfo) s
      | None => s
      end in
    injectPayButton d s1
  end.

(** An exception of [detectCurrentPlatform()] leaves the method before the
    assignment to [this.currentPlatform]. *)
Definition detectAndSetupPlatform (d : Document) (s : State) : Exc State :=
  found <- detectCurrentPlatform d ;;
  let s1 := set_currentPlatform found s in
  match found with
  | None => Ok s1                        (* will retry on DOM changes *)
  | Some _ => Ok (setupPlatformIntegration d s1)
  end.

(** [rescans] counts the calls.  An exception of the awaited
    [detectAndSetupPlatform()] rejects the promise of this call and nothing
    has been assigned. *)
Definition retryPlatformDetection (d : Document) (s : State) : State :=
  let s0 := set_rescans (S (rescans s)) s in
  if isSome (currentPlatform s0) && isSome (payButton s0)
  then s0                                (* already detected and set up *)
  else
    match detectAndSetupPlatform d s0 with
    | Ok s1 => s1
    | Throw _ => s0
    end.

Definition handlePayButtonClick (d : Document) (s : State) : State :=
  match currentPlatform s with
  | None => s
  | Some p =>
    match getCheckoutInfo p d (clock s) with
    | None => showNotification NError (js "Unable to process payment. Please try again.") s
    | Some checkoutInfo =>
      sendMessage (INITIATE_CRYPTO_PAYMENT (pd_name p) checkoutInfo (clock s))
                  (setPayButtonLoading true s)
    end
  end.

(** [applyGiftCard(giftCardData)] up to its [await]: with a platform, the
    platform's own [applyGiftCard] is called and its promise awaited. *)
Definition applyGiftCard (giftCardData : GiftCardData) (s : State) : State :=
  match currentPlatform s with
  | None => s
  | Some p =>
    set_started (S (started s))
      (set_attempts (attempts s ++ [mkAttempt (started s) p giftCardData]) s)
  end.

(** The [catch] block of [applyGiftCard]. *)
Definition caughtApplying : State -> State :=
  showNotification NError (js "Error applying gift card. Please try manually.").

(** [applyGiftCard] after its [await], once the promise of attempt [n] has
    settled with [outcome].  [this.currentPlatform] is read again here; if
    it has become [null] the property access throws and the [catch] block
    runs. *)
Definition giftCardSettled (n : nat) (outcome : Exc bool) (s : State) : State :=
  match find (fun a => (attempt_id a =? n)%nat) (attempts s) with
  | None => s
  | Some a =>
    let s0 := set_attempts (filter (fun b => negb (attempt_id b =? n)%nat) (attempts s)) s in
    match outcome with
    | Throw _ => caughtApplying s0
    | Ok true =>
      match currentPlatform s0 with
      | Some p =>
        sendMessage (GIFT_CARD_APPLIED_SUCCESS (pd_name p) (attempt_data a))
          (showNotification NSuccess
             (js ("Gift card applied to " ++ pd_displayName p ++ "!")) s0)
      | None => caughtApplying s0
      end
    | Ok false =>
      let s1 := showNotification NError
                  (js "Gift card application failed. Please try manually.") s0 in
      match currentPlatform s1 with
      | Some p => sendMessage (GIFT_CARD_APPLIED_FAILED (pd_name p) (attempt_data a)) s1
      | None => caughtApplying s1
      end
    end
  end.

(** Mutation records, as far as the observer callback looks at them. *)
Record MutationRecord := mkMutation {
  mutation_type : string;
  addedNodes : list N                  (* the nodeType of each added node *)
}.

Definition ELEMENT_NODE : N := 1.

Definition shouldCheck (mutations : list MutationRecord) : bool :=
  existsb (fun m => String.eqb (mutation_type m) "childList"
                    && (0 <? List.length (addedNodes m))%nat
                    && existsb (fun nodeType => nodeType =? ELEMENT_NODE) (addedNodes m))
          mutations.

Definition setupMutationObserver (s : State) : State := set_observer true s.

(** [initialize()], from the point where [waitForPageLoad()] has resolved
    and [d] is the loaded page.  The message listener is registered in the
    same run as [isInitialized] is set, so an initialized script is one that
    listens. *)
Definition initialize (d : Document) (s : State) : State :=
  if isInitialized s then s
  else if negb (isSupportedDomain (hostname d)) then s
  else
    try_catch
      (s1 <- detectAndSetupPlatform d s ;;
       Ok (set_isInitialized true (setupMutationObserver s1)))
      s.

(** The callback handed to [new MutationObserver]. *)
Definition observerCallback (mutations : list MutationRecord) (s : State) : State :=
  if shouldCheck mutations then
    let s1 := clearTimeout (detectionTimeout s) s in
    let '(id, s2) := setTimeout RetryDetection 1000 s1 in
    set_detectionTimeout (Some id) s2
  else s.

(** The listener of [setupMessageListener]. *)
Definition onMessage (message : Incoming) (d : Document) (s : State)
  : State * Response :=
  match message with
  | APPLY_GIFT_CARD giftCardData =>
    (applyGiftCard giftCardData s, Success true None)
  | GET_CHECKOUT_INFO =>
    (s, CheckoutInfoResponse
          match currentPlatform s with
          | Some p => getCheckoutInfo p d (clock s)
          | None => None
          end)
  | PAYMENT_COMPLETED =>
    (showNotification NSuccess (js "Payment completed successfully!")
       (setPayButtonLoading false s),
     Success true None)
  | PAYMENT_FAILED err =>
    (showNotification NError
       match err with
       | Some (c :: e) => c :: e
       | _ => js "Payment failed. Please try again."
       end
       (setPayButtonLoading false s),
     Success true None)
  | OtherMessage _ => (s, Success false (Some "Unknown message type"))
  end.

Definition cleanup (s : State) : State :=
  let s1 := if observer s then set_observer false s else s in
  match payButton s1 with
  | Some b =>
    set_payButton None
      (set_mounted (filter (fun m => negb (serial (snd m) =? serial b)%nat) (mounted s1)) s1)
  | None => s1
  end.

(** ** The event loop *)

Definition run_callback (cb : Callback) (d : Document) (s : State) : State :=
  match cb with
  | RetryDetection => retryPlatformDetection d s
  | RemoveNotification n =>
    set_notifications
      (filter (fun x => negb (notification_id x =? n)%nat) (notifications s)) s
  end.

(** The timer to run next among those due by [t]: the earliest, and among
    equally early ones the oldest. *)
Fixpoint next_due (t : Z) (ts : list Timer) : option Timer :=
  match ts with
  | [] => None
  | x :: rest =>
    match next_due t rest with
    | Some y => if ((due x <=? t) && (due x <=? due y))%Z then Some x else Some y
    | None => if (due x <=? t)%Z then Some x else None
    end
  end.

Fixpoint fire (fuel : nat) (t : Z) (d : Document) (s : State) : State :=
  match fuel with
  | O => s
  | S fuel' =>
    match next_due t (timers s) with
    | None => s
    | Some tm =>
      let s1 := clearTimeout (Some (timer_id tm)) s in
      let s2 := set_clock (Z.max (clock s1) (due tm)) s1 in
      fire fuel' t d (run_callback (callback tm) d s2)
    end
  end.

(** Time passes until [t]; the callbacks that come due see the page [d].  No
    callback of the script starts a timer that is due at once, so one pass
    over the timers pending at the start suffices. *)
Definition advance (t : Z) (d : Document) (s : State) : State :=
  let s1 := fire (List.length (timers s)) t d s in
  set_clock (Z.max (clock s1) t) s1.

(** What can happen to the script.  Changes the script itself makes to the
    page (mounting the button, showing a notification) reach its observer
    like any other change: in a run they appear as [Mutations] events. *)
Inductive Event :=
| PageLoaded (d : Document)                       (* the script starts on d *)
| Tick (t : Z) (d : Document)                     (* time passes until t *)
| Mutations (records : list MutationRecord)       (* the page's subtree changed *)
| Message (message : Incoming) (d : Document)     (* chrome.runtime.onMessage *)
| Settled (n : nat) (outcome : Exc bool)          (* a platform promise settles *)
| Click (d : Document)                            (* the pay button is clicked *)
| BeforeUnload.                                   (* window 'beforeunload' *)

Definition step (e : Event) (s : State) : State :=
  match e with
  | PageLoaded d => initialize d s
  | Tick t d => advance t d s
  | Mutations records => if observer s then observerCallback records s else s
  | Message m d => if isInitialized s then fst (onMessage m d s) else s
  | Settled n outcome => giftCardSettled n outcome s
  | Click d => if isSome (payButton s) then handlePayButtonClick d s else s
  | BeforeUnload => cleanup s
  end.

Definition run (es : list Event) (s : State) : State :=
  fold_left (fun st e => step e st) es s.

(* ===================================================================== *)
(** * Vocabulary and fixtures of the properties *)
(* ===================================================================== *)

Local Open Scope list_scope.

Definition resolves (d : Document) (sel : string) : bool :=
  isSome (hd_error (select d sel)).

Definition chain_resolves (d : Document) (chain : list string) : bool :=
  existsb (resolves d) chain.

(** The platforms by name ([PlatformName] of types.ts), to speak of what
    each detector looks at. *)
Inductive PlatformName := amazon | netflix | dominos.

Definition platform_of (n : PlatformName) : PlatformDetector :=
  match n with
  | amazon => AmazonPlatform
  | netflix => NetflixPlatform
  | dominos => DominosPlatform
  end.

(** The path fragments a detector searches the pathname for. *)
Definition detection_paths (n : PlatformName) : list string :=
  match n with
  | amazon => Amazon.checkoutPaths
  | netflix => Netflix.relevantPaths
  | dominos => Dominos.relevantPaths
  end.

(** The selector chains a detector probes. *)
Definition probed_chains (n : PlatformName) : list (list string) :=
  match n with
  | amazon => [Amazon.selectors.product_buyNowButton]
  | netflix => [Netflix.selectors.plans_planSelection;
                Netflix.selectors.signup_paymentStep;
                Netflix.selectors.checkout_giftCardSection]
  | dominos => [Dominos.selectors.checkout_totalPrice;
                Dominos.selectors.cart_cartItems;
                Dominos.selectors.payment_paymentSection]
  end.

(** The four chains of the profile's [checkout] selectors. *)
Definition checkout_chains (n : PlatformName) : list (list string) :=
  match n with
  | amazon => [Amazon.selectors.checkout_totalPrice;
               Amazon.selectors.checkout_giftCardSection;
               Amazon.selectors.checkout_giftCardInput;
               Amazon.selectors.checkout_applyButton]
  | netflix => [Netflix.selectors.checkout_totalPrice;
                Netflix.selectors.checkout_giftCardSection;
                Netflix.selectors.checkout_giftCardInput;
                Netflix.selectors.checkout_applyButton]
  | dominos => [Dominos.selectors.checkout_totalPrice;
                Dominos.selectors.checkout_giftCardSection;
                Dominos.selectors.checkout_giftCardInput;
                Dominos.selectors.checkout_applyButton]
  end.

Definition on_listed_domain (n : PlatformName) (d : Document) : bool :=
  some_included (hostname d) (pd_supportedDomains (platform_of n)).

Definition detection_evidence (n : PlatformName) (d : Document) : bool :=
  some_included (pathname d) (detection_paths n)
  || existsb (chain_resolves d) (probed_chains n).

Definition no_children : string -> list Element := fun _ => [].

(** A page answering [sel] with one element of the given text and nothing
    else. *)
Definition only (sel : string) (text : jsstring) : string -> list Element :=
  fun q => if String.eqb q sel then [mkElement text [] no_children] else [].

(** An Amazon page that shows the order total, at a path none of the
    detector's fragments occurs in and without a Buy Now button. *)
Definition amazon_total_only : Document :=
  mkDocument (js "amazon.com") (js "/") (js "https://amazon.com/")
             (only ".grand-total-price-value" (js "$25.99")).

(** A checkout path on a foreign host whose name merely contains a listed
    domain. *)
Definition lookalike_host : Document :=
  mkDocument (js "amazon.com.shop.example") (js "/checkout/")
             (js "https://amazon.com.shop.example/checkout/") (fun _ => []).

(** A Domino's cart page: one cart item, no path evidence. *)
Definition dominos_cart : Document :=
  mkDocument (js "www.dominos.com") (js "/en/") (js "https://www.dominos.com/en/")
             (only ".cart-item" (js "Large Pepperoni")).

Definition USD : jsstring := js "USD".
Definition GBP : jsstring := js "GBP".
Definition EUR : jsstring := js "EUR".

Definition has_digit (s : jsstring) : bool := existsb is_digit s.

(** Every match of the pattern contains a digit. *)
Fixpoint needs_digit (r : regex) : bool :=
  match r with
  | Eps => false
  | Chr CDigit => true
  | Chr _ => false
  | Seq a b => needs_digit a || needs_digit b
  | Alt a b => needs_digit a && needs_digit b
  | Star _ => false
  | Group _ a => needs_digit a
  end.

(** A Domino's checkout page on which the redemption changed nothing: it
    shows the order total it showed before, and no success message, balance
    or discount line. *)
Definition dominos_unchanged : Document :=
  mkDocument (js "www.dominos.com") (js "/checkout")
             (js "https://www.dominos.com/checkout")
             (only "#total-price" (js "$25.99")).

(** The fourth heuristic as the specification words it: the total
    re-extracted after the attempt is lower than the total shown before
    it. *)
Definition spec_total_decreased (before after : Document) : bool :=
  match Dominos.extractTotalPrice before, Dominos.extractTotalPrice after with
  | Ok (Some was), Ok (Some is_now) =>
    if Qlt_le_dec (amount is_now) (amount was) then true else false
  | _, _ => false
  end.


Definition parser (n : PlatformName) : jsstring -> option Price :=
  match n with
  | amazon => Amazon.parseAmazonPrice
  | netflix => Netflix.parseNetflixPrice
  | dominos => Dominos.parseDominosPrice
  end.



Definition extractLineItems (n : PlatformName) : Document -> Exc (list CheckoutItem) :=
  match n with
  | amazon => Amazon.extractItems
  | netflix => Netflix.extractSelectedPlan
  | dominos => Dominos.extractOrderItems
  end.


(** An Amazon order page: the grand total, two line items. *)
Definition amazon_order : Document :=
  mkDocument (js "www.amazon.com") (js "/gp/buy/spc/handlers/display.html")
             (js "https://www.amazon.com/gp/buy/spc/handlers/display.html")
             (fun q =>
                if String.eqb q ".grand-total-price-value"
                then [mkElement (js "$25.99") [] no_children]
                else if String.eqb q ".sc-item-content-group"
                then [mkElement (js "Kettle") [] (only ".sc-product-title, .a-truncate-full" (js " Kettle "));
                      mkElement (js "Mug") [] no_children]
                else []).

(** At most one pay button is in the page, and it is the one the script
    holds. *)
Definition one_button (s : State) : Prop :=
  match payButton s with
  | Some b => exists point, mounted s = [(point, b)]
  | None => mounted s = []
  end.

(** A Domino's checkout page with a payment section to mount the button
    in. *)
Definition dominos_checkout : Document :=
  mkDocument (js "www.dominos.com") (js "/checkout")
             (js "https://www.dominos.com/checkout")
             (fun q =>
                if String.eqb q "#total-price"
                then [mkElement (js "$25.99") [] no_children]
                else if String.eqb q ".payment-methods"
                then [mkElement (js "Pay with card") [] no_children]
                else []).

(** The script has started on a Domino's page that does not show a mount
    point yet. *)
Definition dominos_detected : State := initialize dominos_unchanged fresh.

Definition card_A : GiftCardData := mkGiftCard (js "AB12") 25 USD "amazon".
Definition card_B : GiftCardData := mkGiftCard (js "XY89") 25 USD "amazon".

Definition element_added : list MutationRecord :=
  [mkMutation "childList" [ELEMENT_NODE]].

Definition is_retry (cb : Callback) : bool :=
  match cb with
  | RetryDetection => true
  | RemoveNotification _ => false
  end.

Definition pending_retries (s : State) : list Timer :=
  filter (fun tm => is_retry (callback tm)) (timers s).

(** Timer ids are the ones [setTimeout] has handed out, each once. *)
Definition wf_timers (s : State) : Prop :=
  NoDup (map timer_id (timers s))
  /\ Forall (fun tm => (timer_id tm < next_timer s)%nat) (timers s).

Record Signal := mkSignal {
  at_time : Z;
  page : Document;
  records : list MutationRecord
}.

(** The page as the timers see it when the signal arrives, then the
    observer callback. *)
Definition deliver (sg : Signal) : list Event :=
  [Tick (at_time sg) (page sg); Mutations (records sg)].

Definition burst (sgs : list Signal) : list Event := flat_map deliver sgs.

(** Every signal follows the previous one by less than the 1000 ms of the
    detection timeout. *)
Fixpoint debounced (prev : Z) (sgs : list Signal) : Prop :=
  match sgs with
  | [] => True
  | sg :: rest =>
    (prev <= at_time sg < prev + 1000)%Z /\ debounced (at_time sg) rest
  end.

Definition not_due (t : Z) (tm : Timer) : bool := (t <? due tm)%Z.
Definition other_id (id : nat) (tm : Timer) : bool := negb (timer_id tm =? id)%nat.

Definition due_retry (t : Z) (tm : Timer) : bool :=
  is_retry (callback tm) && negb (not_due t tm).

(** What detection and the timer callbacks leave alone. *)
Definition same_timing (s s' : State) : Prop :=
  timers s' = timers s
  /\ next_timer s' = next_timer s
  /\ observer s' = observer s
  /\ detectionTimeout s' = detectionTimeout s
  /\ clock s' = clock s.

Fixpoint last_time (prev : Z) (sgs : list Signal) : Z :=
  match sgs with
  | [] => prev
  | sg :: rest => last_time (at_time sg) rest
  end.

(** After a signal at [t]: one detection timer is pending, due a second
    later, and [detectionTimeout] is its handle. *)
Definition armed (r0 : nat) (t : Z) (s : State) : Prop :=
  wf_timers s
  /\ observer s = true
  /\ rescans s = r0
  /\ clock s = t
  /\ exists id, detectionTimeout s = Some id
                /\ pending_retries s = [mkTimer id (t + 1000) RetryDetection].

(** A state a signal at [t] may arrive in: whatever detection timer is
    pending is not due yet and is the one [detectionTimeout] names. *)
Definition quiet (t : Z) (s : State) : Prop :=
  wf_timers s
  /\ observer s = true
  /\ (clock s <= t)%Z
  /\ forall r, In r (pending_retries s) ->
               (t < due r)%Z /\ detectionTimeout s = Some (timer_id r).

Definition three_signals : list Signal :=
  [mkSignal 300 dominos_checkout element_added;
   mkSignal 900 dominos_checkout [mkMutation "attributes" [];
                                  mkMutation "childList" [3; ELEMENT_NODE]]].

(** ** The rest of the registry (platforms/index.ts) *)





(** [[...new Set(domains)]]: the first occurrence of each, in order. *)
Fixpoint unique (l : list string) : list string :=
  match l with
  | [] => []
  | x :: rest => x :: filter (fun y => negb (String.eqb x y)) (unique rest)
  end.

Definition getAllSupportedDomains : list string :=
  unique (flat_map pd_supportedDomains PLATFORM_LIST).

(** The selectors [getButtonInjectionPoint()] tries, in order. *)
Definition mount_points (n : PlatformName) : list string :=
  match n with
  | amazon => Amazon.injectionSelectors ++ Amazon.fallbackSelectors
  | netflix => Netflix.injectionSelectors ++ Netflix.fallbackSelectors
  | dominos => Dominos.injectionSelectors ++ Dominos.fallbackSelectors
  end.


(** How many items a platform's snapshot holds at most. *)
Definition item_limit (n : PlatformName) : nat :=
  match n with
  | amazon => 5
  | netflix => 1
  | dominos => 10
  end.

(** The currency Amazon's parser reports, read off the text as a whole. *)
Definition amazon_currency (text : jsstring) : jsstring :=
  if existsb (N.eqb ch_pound) text then GBP
  else if existsb (N.eqb ch_euro) text then EUR
  else if existsb (N.eqb ch_rupee) text then js "INR"
  else USD.

(** No capture group occurs in the pattern. *)
Fixpoint group_free (r : regex) : bool :=
  match r with
  | Eps | Chr _ => true
  | Seq a b | Alt a b => group_free a && group_free b
  | Star a => group_free a
  | Group _ _ => false
  end.

(** The text starts with a currency symbol of Domino's class followed by a
    digit. *)
Definition symbol_then_digit (s : jsstring) : bool :=
  match s with
  | c :: c2 :: _ => existsb (N.eqb c) Dominos.symbols && is_digit c2
  | _ => false
  end.

(** Domino's parser with the first two patterns of its list only. *)
Definition parseDominosPrice_two_patterns (priceText : jsstring) : option Price :=
  match priceText with
  | [] => None
  | _ =>
    try_symbol_patterns Dominos.symbols Dominos.getCurrencyFromSymbol
      (fun t => parseFloat (remove_commas t))
      (cleanText priceText) (firstn 2 Dominos.patterns)
  end.

(** ** What the script's timers and notifications keep *)

(** A pending timer is one [setTimeout] has handed out; a removal timer
    carries the id of its notification and is due within 5000 ms, a
    detection timer is the one [detectionTimeout] names and is due within
    1000 ms. *)
Definition timer_ok (next : nat) (now : Z) (handle : option nat) (tm : Timer) : Prop :=
  (timer_id tm < next)%nat
  /\ match callback tm with
     | RemoveNotification n => timer_id tm = n /\ (due tm <= now + 5000)%Z
     | RetryDetection => handle = Some (timer_id tm) /\ (due tm <= now + 1000)%Z
     end.

(** The handle in [detectionTimeout] is one [setTimeout] returned for a
    detection timer. *)
Definition handle_ok (ts : list Timer) (next : nat) (handle : option nat) : Prop :=
  match handle with
  | Some id =>
    (id < next)%nat
    /\ forall tm, In tm ts -> timer_id tm = id -> callback tm = RetryDetection
  | None => True
  end.

(** The removal of a notification on the page is pending. *)
Definition shown_ok (ts : list Timer) (x : Notification) : Prop :=
  exists tm, In tm ts /\ timer_id tm = notification_id x
             /\ callback tm = RemoveNotification (notification_id x).

Definition timing_inv (s : State) : Prop :=
  NoDup (map timer_id (timers s))
  /\ (forall tm, In tm (timers s) ->
                 timer_ok (next_timer s) (clock s) (detectionTimeout s) tm)
  /\ handle_ok (timers s) (next_timer s) (detectionTimeout s)
  /\ (forall x, In x (notifications s) -> shown_ok (timers s) x).

(** The script has not become active: every field is as at the start, only
    time has passed. *)
Definition inactive (s : State) : Prop := s = set_clock (clock s) fresh.

(** Attempt ids are the values [started] has had, each once. *)
Definition attempts_ok (s : State) : Prop :=
  NoDup (map attempt_id (attempts s))
  /\ forall a, In a (attempts s) -> (attempt_id a < started s)%nat.

(** An initialized script whose observer is disconnected, with at most
    [budget] re-scans in all once its pending detection timers have
    fired. *)
Definition wound_down (budget : nat) (s : State) : Prop :=
  isInitialized s = true
  /\ observer s = false
  /\ wf_timers s
  /\ (rescans s + List.length (pending_retries s) <= budget)%nat.

(** What [applyGiftCard] of the content script reports to the background
    script for an outcome of the platform's promise. *)
Definition report (success : bool) (p : PlatformDetector) (g : GiftCardData) : Outgoing :=
  if success then GIFT_CARD_APPLIED_SUCCESS (pd_name p) g
  else GIFT_CARD_APPLIED_FAILED (pd_name p) g.

(** The script starts on a Domino's checkout page and is asked to redeem a
    gift card. *)
Definition dominos_redeeming : list Event :=
  [PageLoaded dominos_checkout; Message (APPLY_GIFT_CARD card_A) dominos_checkout].

(* ===================================================================== *)
(** * Redeeming a gift card ([applyGiftCard] of the platform classes) *)
(* ===================================================================== *)

(** [applyGiftCard] is an async method.  Between two
    [await this.wait(ms)] it runs to completion on the page as it is, and
    while it waits the page is free to change or to go away.  A run is
    determined by the page the method finds each time it resumes and by
    the values [Math.random()] returns; what the method does to the page
    is kept as a log.

    In every stretch between two waits the method reads the page before
    it acts on it: the selector lookups and the read of [input.value] in
    [input.value += char] come first, so what they see is the page as the
    last wait left it.  The one lookup that follows an action is that of
    the continue button in Netflix's [continueSignupFlow], after the
    notification box has been appended; the box has no class and no
    attribute that one of those selectors could match.  Awaiting an async
    method of the class that has run to its end resumes within the same
    task. *)

Inductive Action :=
| ScrollIntoView (el : Element)
| Focus (el : Element)
| SetValue (el : Element) (value : jsstring)     (* input.value = value *)
| DispatchEvent (type : string) (el : Element)   (* new Event(type, { bubbles: true }) *)
| KeyDown (key : string) (el : Element)          (* new KeyboardEvent('keydown', ...) *)
| ClickOn (el : Element)                         (* el.click() *)
| SetLocation (url : jsstring)                   (* window.location.href = url *)
| Wait (ms : Q)                                  (* setTimeout(resolve, ms) *)
| ShowSuccessNotification (message : jsstring).

(** What the method finds when a timer it awaits has fired: the page then,
    and the value of the input field it holds, given the value it left
    there. *)
Record Reaction := mkReaction {
  page_then : Document;
  value_then : jsstring -> jsstring
}.

(** Assigning to [input.value] does not store the string as it is: the
    field runs its value sanitization on it, which depends on the kind of
    field.  A text field strips line breaks. *)
Definition strip_line_breaks (s : jsstring) : jsstring :=
  filter (fun c => negb ((c =? 10) || (c =? 13))) s.

Record World := mkWorld {
  document : Document   (* the page now *);
  input_value : jsstring   (* inputField.value *);
  reactions : list Reaction   (* one for each timer the page lives to see fire *);
  entropy : nat -> Q   (* the results of the calls of Math.random(), in order *);
  drawn : nat   (* calls of Math.random() so far *);
  log : list Action;
  sanitize : jsstring -> jsstring   (* what the field holds once a string is assigned to it *)
}.

Inductive Outcome (A : Type) :=
| Returned (a : A) (w : World)
| Thrown (e : exn) (w : World)
| Suspended (w : World).        (* the page went away while the method waited *)
Arguments Returned {A} a w.
Arguments Thrown {A} e w.
Arguments Suspended {A} w.

Definition Task (A : Type) := World -> Outcome A.

Definition ret {A : Type} (a : A) : Task A := fun w => Returned a w.

Definition and_then {A B : Type} (m : Task A) (f : A -> Task B) : Task B :=
  fun w =>
    match m w with
    | Returned a w' => f a w'
    | Thrown e w' => Thrown e w'
    | Suspended w' => Suspended w'
    end.

Notation "x <-- m ;; f" := (and_then m (fun x => f))
  (at level 61, m at next level, right associativity).

(** A synchronous read of the page. *)
Definition look {A : Type} (f : Document -> Exc A) : Task A :=
  fun w =>
    match f (document w) with
    | Ok a => Returned a w
    | Throw e => Thrown e w
    end.

Definition act (a : Action) : Task unit :=
  fun w =>
    Returned tt (mkWorld (document w) (input_value w) (reactions w) (entropy w)
                         (drawn w) (log w ++ [a]) (sanitize w)).

(** [input.value] *)
Definition get_value : Task jsstring := fun w => Returned (input_value w) w.

(** [input.value = value] *)
Definition set_value (input : Element) (value : jsstring) : Task unit :=
  fun w =>
    Returned tt (mkWorld (document w) (sanitize w value) (reactions w) (entropy w)
                         (drawn w) (log w ++ [SetValue input value]) (sanitize w)).

(** [Math.random()] *)
Definition random : Task Q :=
  fun w =>
    Returned (entropy w (drawn w))
             (mkWorld (document w) (input_value w) (reactions w) (entropy w)
                      (S (drawn w)) (log w) (sanitize w)).

(** [await this.wait(ms)] *)
Definition wait (ms : Q) : Task unit :=
  fun w =>
    match reactions w with
    | [] =>
      Suspended (mkWorld (document w) (input_value w) [] (entropy w)
                         (drawn w) (log w ++ [Wait ms]) (sanitize w))
    | r :: rest =>
      Returned tt (mkWorld (page_then r) (value_then r (input_value w)) rest
                           (entropy w) (drawn w) (log w ++ [Wait ms]) (sanitize w))
    end.

(** [try { body } catch (error) { return false; }] *)
Definition catch_false (body : Task bool) : Task bool :=
  fun w =>
    match body w with
    | Thrown _ w' => Returned false w'
    | o => o
    end.

(** The characters [for (const char of text)] yields: the code points of
    the string, a surrogate pair being one of them. *)
Definition is_high_surrogate (c : N) : bool := (55296 <=? c) && (c <=? 56319).
Definition is_low_surrogate (c : N) : bool := (56320 <=? c) && (c <=? 57343).

Fixpoint code_points (s : jsstring) : list jsstring :=
  match s with
  | [] => []
  | c :: rest =>
    match rest with
    | c2 :: rest' =>
      if is_high_surrogate c && is_low_surrogate c2
      then [c; c2] :: code_points rest'
      else [c] :: code_points rest
    | [] => [[c]]
    end
  end.

Fixpoint dispatch_all (types : list string) (el : Element) : Task unit :=
  match types with
  | [] => ret tt
  | type :: more => _ <-- act (DispatchEvent type el) ;; dispatch_all more el
  end.

(** The loop of [typeText]; the three classes differ in the events they
    dispatch after each character and in the pause that follows:
    [base + Math.random() * span]. *)
Fixpoint type_chars (events : list string) (base span : Q) (input : Element)
         (chars : list jsstring) : Task unit :=
  match chars with
  | [] => ret tt
  | char :: rest =>
    value <-- get_value ;;
    _ <-- set_value input (value ++ char) ;;           (* input.value += char *)
    _ <-- dispatch_all events input ;;
    r <-- random ;;
    _ <-- wait (base + r * span) ;;
    type_chars events base span input rest
  end.

(** [showSuccessNotification(message)]; the box removes itself on a timer
    of its own. *)
Definition showSuccessNotification (message : string) : Task unit :=
  act (ShowSuccessNotification (js message)).

(** The part the three methods share, from the scroll to the section to
    the pause before the apply button is looked up. *)
Definition enter_code (typeText : Element -> jsstring -> Task unit)
           (giftCardInput : list string)
           (giftCardSection : Element) (giftCardData : GiftCardData)
           (next : Element -> Task bool) : Task bool :=
  _ <-- act (ScrollIntoView giftCardSection) ;;
  _ <-- wait 1000 ;;
  inputField <-- look (fun d => findElement d giftCardInput) ;;
  match inputField with
  | None => ret false
  | Some input =>
    _ <-- act (Focus input) ;;
    _ <-- set_value input [] ;;
    _ <-- wait 500 ;;
    _ <-- typeText input (code giftCardData) ;;
    next input
  end.

(** ** amazon.ts *)

Definition amazon_typeText (input : Element) (text : jsstring) : Task unit :=
  type_chars ["input"] 50 50 input (code_points text).

Definition amazon_applyGiftCard (giftCardData : GiftCardData) : Task bool :=
  catch_false
    (giftCardSection <-- look (fun d => findElement d Amazon.selectors.checkout_giftCardSection) ;;
     match giftCardSection with
     | None => ret false
     | Some section =>
       enter_code amazon_typeText Amazon.selectors.checkout_giftCardInput
         section giftCardData
         (fun _ =>
            applyButton <-- look (fun d => findElement d Amazon.selectors.checkout_applyButton) ;;
            match applyButton with
            | None => ret false
            | Some button =>
              _ <-- act (ClickOn button) ;;
              _ <-- wait 3000 ;;
              success <-- look Amazon.verifyGiftCardApplication ;;
              if success
              then _ <-- showSuccessNotification "Gift card applied to Amazon checkout!" ;;
                   ret true
              else ret false
            end)
     end).

(** ** dominos.ts *)

Definition dominos_typeText (input : Element) (text : jsstring) : Task unit :=
  type_chars ["input"; "change"] 60 40 input (code_points text).

Definition dominos_expandLinks : string :=
  dq "a[href*='gift'], button[data-quid*='gift'], .add-gift-card, .promo-code-toggle".

(** The loop over the links that may expand the section. *)
Fixpoint dominos_expand (links : list Element) : Task (option Element) :=
  match links with
  | [] => ret None
  | link :: rest =>
    _ <-- act (ClickOn link) ;;
    _ <-- wait 1000 ;;
    giftCardSection <-- look (fun d => findElement d Dominos.selectors.checkout_giftCardSection) ;;
    match giftCardSection with
    | Some section => ret (Some section)
    | None => dominos_expand rest
    end
  end.

Definition dominos_applyGiftCard (giftCardData : GiftCardData) : Task bool :=
  catch_false
    (found <-- look (fun d => findElement d Dominos.selectors.checkout_giftCardSection) ;;
     giftCardSection <--
       match found with
       | Some section => ret (Some section)
       | None =>
         expandLinks <-- look (fun d => querySelectorAll d dominos_expandLinks) ;;
         dominos_expand expandLinks
       end ;;
     match giftCardSection with
     | None => ret false
     | Some section =>
       enter_code dominos_typeText Dominos.selectors.checkout_giftCardInput
         section giftCardData
         (fun input =>
            applyButton <-- look (fun d => findElement d Dominos.selectors.checkout_applyButton) ;;
            _ <-- match applyButton with
                  | None => act (KeyDown "Enter" input)
                  | Some button => act (ClickOn button)
                  end ;;
            _ <-- wait 3000 ;;
            success <-- look Dominos.verifyGiftCardApplication ;;
            if success
            then _ <-- showSuccessNotification "Gift card applied to your Dominos order!" ;;
                 ret true
            else ret false)
     end).

(** ** netflix.ts *)

Definition netflix_typeText (input : Element) (text : jsstring) : Task unit :=
  type_chars ["input"; "change"] 80 40 input (code_points text).

Definition netflix_navigateToGiftCardRedemption : Task unit :=
  host <-- look (fun d => Ok (hostname d)) ;;
  let redeemUrl := (js "https://" ++ host ++ js "/redeem")%list in
  redeemLink <-- look (fun d => querySelector d (dq "a[href*='/redeem'], a[href*='gift']")) ;;
  match redeemLink with
  | Some link => _ <-- act (ClickOn link) ;; wait 2000
  | None => _ <-- act (SetLocation redeemUrl) ;; wait 3000
  end.

Definition netflix_continueSignupFlow : Task unit :=
  continueButton <-- look (fun d => findElement d Netflix.selectors.signup_continueButton) ;;
  match continueButton with
  | Some button => _ <-- wait 1000 ;; act (ClickOn button)
  | None => ret tt
  end.

Definition netflix_applyGiftCard (giftCardData : GiftCardData) : Task bool :=
  catch_false
    (path <-- look (fun d => Ok (pathname d)) ;;
     _ <-- (if negb (js_includes path (js "/redeem"))
            then netflix_navigateToGiftCardRedemption
            else ret tt) ;;
     giftCardSection <-- look (fun d => findElement d Netflix.selectors.checkout_giftCardSection) ;;
     match giftCardSection with
     | None => ret false
     | Some section =>
       enter_code netflix_typeText Netflix.selectors.checkout_giftCardInput
         section giftCardData
         (fun _ =>
            redeemButton <-- look (fun d => findElement d Netflix.selectors.checkout_applyButton) ;;
            match redeemButton with
            | None => ret false
            | Some button =>
              _ <-- act (ClickOn button) ;;
              _ <-- wait 3000 ;;
              success <-- look Netflix.verifyGiftCardRedemption ;;
              if success
              then _ <-- showSuccessNotification "Gift card applied to Netflix account!" ;;
                   _ <-- netflix_continueSignupFlow ;;
                   ret true
              else ret false
            end)
     end).

(** ** Vocabulary of the redemption properties *)

Definition applyGiftCard_of (n : PlatformName) : GiftCardData -> Task bool :=
  match n with
  | amazon => amazon_applyGiftCard
  | netflix => netflix_applyGiftCard
  | dominos => dominos_applyGiftCard
  end.

Definition typeText_of (n : PlatformName) : Element -> jsstring -> Task unit :=
  match n with
  | amazon => amazon_typeText
  | netflix => netflix_typeText
  | dominos => dominos_typeText
  end.

(** The shortest pause after a typed character, in ms. *)
Definition typing_pause (n : PlatformName) : Q :=
  match n with
  | amazon => 50
  | netflix => 80
  | dominos => 60
  end.

(** The world an outcome leaves. *)
Definition world_of {A : Type} (o : Outcome A) : World :=
  match o with
  | Returned _ w => w
  | Thrown _ w => w
  | Suspended w => w
  end.

(** The time the method has asked to wait, in ms. *)
Fixpoint waited (l : list Action) : Q :=
  match l with
  | [] => 0
  | Wait ms :: rest => ms + waited rest
  | _ :: rest => waited rest
  end.

Definition is_notification (a : Action) : bool :=
  match a with ShowSuccessNotification _ => true | _ => false end.

Definition is_key (a : Action) : bool :=
  match a with KeyDown _ _ => true | _ => false end.

Definition is_input_event (a : Action) : bool :=
  match a with DispatchEvent type _ => String.eqb type "input" | _ => false end.

(** [Math.random()] returns a number from 0 up to but not including 1. *)
Definition unit_interval (f : nat -> Q) : Prop :=
  forall i, (0 <= f i)%Q /\ (f i < 1)%Q.

(** The page leaves the input field alone while the method waits. *)
Definition undisturbed (rs : list Reaction) : Prop :=
  Forall (fun r => forall v, value_then r v = v) rs.

(** A text with a line break in it, and a gift card with such a code. *)
Definition code_with_line_break : jsstring := (js "AB12" ++ [10])%list.
Definition card_with_line_break : GiftCardData :=
  mkGiftCard code_with_line_break 25 USD "amazon".

(** The input the method holds is a text field. *)
Definition text_field (w : World) : Prop :=
  forall v, sanitize w v = strip_line_breaks v.

(** What the field holds after the typing loop: for each character in
    turn, the field's value with the character appended, as the field
    keeps it, and then what has become of it when the pause ends. *)
Fixpoint typed_over (keeps : jsstring -> jsstring) (value : jsstring)
         (chars : list jsstring) (changes : list (jsstring -> jsstring)) : jsstring :=
  match chars, changes with
  | char :: rest, change :: later =>
    typed_over keeps (change (keeps (value ++ char))) rest later
  | _, _ => value
  end.

(** A count as a number of milliseconds per item. *)
Definition count (n : nat) : Q := inject_Z (Z.of_nat n).

(** An Amazon checkout page after a redemption: the gift-card form and a
    success box. *)
Definition amazon_redeemed : Document :=
  mkDocument (js "www.amazon.com") (js "/gp/buy/spc/handlers/display.html")
             (js "https://www.amazon.com/gp/buy/spc/handlers/display.html")
             (fun q =>
                if String.eqb q "#gc-redemption-section"
                then [mkElement (js "Gift cards") [] no_children]
                else if String.eqb q "#gc-redemption-input"
                then [mkElement [] [] no_children]
                else if String.eqb q "#gc-redemption-apply-button"
                then [mkElement (js "Apply") [] no_children]
                else if String.eqb q ".a-alert-success"
                then [mkElement (js "Gift card applied") [] no_children]
                else []).

(** The page stays as it is for [n] timers and leaves the input field
    alone. *)
Definition steady (d : Document) (n : nat) : list Reaction :=
  repeat (mkReaction d (fun v => v)) n.

(** The method starts on that page; the input is a text field. *)
Definition amazon_redeeming : World :=
  mkWorld amazon_redeemed [] (steady amazon_redeemed 7) (fun _ => 1 # 2) 0 []
          strip_line_breaks.

(** The selector chains and the verification each class uses. *)
Definition section_chain (n : PlatformName) : list string :=
  match n with
  | amazon => Amazon.selectors.checkout_giftCardSection
  | netflix => Netflix.selectors.checkout_giftCardSection
  | dominos => Dominos.selectors.checkout_giftCardSection
  end.

Definition input_chain (n : PlatformName) : list string :=
  match n with
  | amazon => Amazon.selectors.checkout_giftCardInput
  | netflix => Netflix.selectors.checkout_giftCardInput
  | dominos => Dominos.selectors.checkout_giftCardInput
  end.

Definition button_chain (n : PlatformName) : list string :=
  match n with
  | amazon => Amazon.selectors.checkout_applyButton
  | netflix => Netflix.selectors.checkout_applyButton
  | dominos => Dominos.selectors.checkout_applyButton
  end.

Definition verification (n : PlatformName) : Document -> Exc bool :=
  match n with
  | amazon => Amazon.verifyGiftCardApplication
  | netflix => Netflix.verifyGiftCardRedemption
  | dominos => Dominos.verifyGiftCardApplication
  end.

(** The events [typeText] dispatches after each character. *)
Definition typing_events (n : PlatformName) : list string :=
  match n with
  | amazon => ["input"]
  | netflix => ["input"; "change"]
  | dominos => ["input"; "change"]
  end.

(** ** Calls that overlap *)

(** The content script does not wait for a call of [applyGiftCard] of the
    platform to settle before it makes the next one.  Each call is a run
    of the method of its own; the calls share the page and its input
    field.  The event loop resumes the call whose timer is due first, and
    of timers due together the one set first.  What a call does up to its
    next pause is determined by what it has found each time it was
    resumed so far: the page, and the value the input field had then. *)

Inductive CallState :=
| Pausing (due_at : Q) (timer : nat)     (* awaiting the timer of its [wait] *)
| Resolved (result : bool)
| Rejected.

Record Call := mkCall {
  method : Task bool   (* platform.applyGiftCard(giftCardData) *);
  begun : World   (* the world when the method was called *);
  found : list Reaction   (* what it has found when it was resumed, so far *);
  call_state : CallState
}.

(** The page of the tab stays as it is; the calls change the value of its
    input field. *)
Record Tab := mkTab {
  tab_time : Q   (* ms *);
  tab_page : Document;
  tab_keeps : jsstring -> jsstring   (* the value sanitization of the input field *);
  field_value : jsstring   (* the value of the input field *);
  calls : list Call;
  timers_set : nat   (* calls of setTimeout so far *)
}.

(** The call as far as it gets on what it has found. *)
Definition run_call (c : Call) (rs : list Reaction) : Outcome bool :=
  method c (mkWorld (document (begun c)) (input_value (begun c)) rs
                    (entropy (begun c)) (drawn (begun c)) (log (begun c))
                    (sanitize (begun c))).

(** The pause a suspended call has asked for: its last action. *)
Definition pause_asked (l : list Action) : Q :=
  match last l (Wait 0) with
  | Wait ms => ms
  | _ => 0
  end.

(** The call runs on to its next pause or to its end. *)
Definition proceed (t : Tab) (c : Call) (rs : list Reaction) : Tab * Call :=
  match run_call c rs with
  | Suspended w' =>
    (mkTab (tab_time t) (tab_page t) (tab_keeps t) (input_value w') (calls t)
           (S (timers_set t)),
     mkCall (method c) (begun c) rs
            (Pausing (tab_time t + pause_asked (log w')) (timers_set t)))
  | Returned result w' =>
    (mkTab (tab_time t) (tab_page t) (tab_keeps t) (input_value w') (calls t)
           (timers_set t),
     mkCall (method c) (begun c) rs (Resolved result))
  | Thrown _ w' =>
    (mkTab (tab_time t) (tab_page t) (tab_keeps t) (input_value w') (calls t)
           (timers_set t),
     mkCall (method c) (begun c) rs Rejected)
  end.

Definition with_calls (cs : list Call) (t : Tab) : Tab :=
  mkTab (tab_time t) (tab_page t) (tab_keeps t) (field_value t) cs (timers_set t).

(** [this.currentPlatform.applyGiftCard(giftCardData)]: the method runs at
    once, up to its first pause. *)
Definition call_method (m : Task bool) (random_values : nat -> Q) (t : Tab) : Tab :=
  let c := mkCall m (mkWorld (tab_page t) (field_value t) [] random_values 0 []
                             (tab_keeps t))
                  [] Rejected in
  let '(t', c') := proceed t c [] in
  with_calls (calls t' ++ [c']) t'.

Definition fires_before (due1 : Q) (timer1 : nat) (due2 : Q) (timer2 : nat) : bool :=
  match (due1 ?= due2)%Q with
  | Lt => true
  | Eq => (timer1 <? timer2)%nat
  | Gt => false
  end.

(** The call to resume next, with the time its timer is due. *)
Fixpoint next_call (index : nat) (cs : list Call) : option (nat * Q * nat) :=
  match cs with
  | [] => None
  | c :: rest =>
    match call_state c, next_call (S index) rest with
    | Pausing due1 timer1, Some (i, due2, timer2) =>
      if fires_before due1 timer1 due2 timer2
      then Some (index, due1, timer1) else Some (i, due2, timer2)
    | Pausing due1 timer1, None => Some (index, due1, timer1)
    | _, later => later
    end
  end.

Fixpoint replace_call (i : nat) (c : Call) (cs : list Call) : list Call :=
  match cs, i with
  | [], _ => []
  | _ :: rest, O => c :: rest
  | x :: rest, S i' => x :: replace_call i' c rest
  end.

(** The timer of call [i] fires at [due]: the call finds the page and the
    field as they are now and runs on. *)
Definition resume (i : nat) (due : Q) (t : Tab) : Tab :=
  match nth_error (calls t) i with
  | None => t
  | Some c =>
    let t1 := mkTab due (tab_page t) (tab_keeps t) (field_value t) (calls t)
                    (timers_set t) in
    let '(t2, c') :=
      proceed t1 c (found c ++ [mkReaction (tab_page t) (fun _ => field_value t)]) in
    with_calls (replace_call i c' (calls t2)) t2
  end.

Fixpoint run_tab (fuel : nat) (t : Tab) : Tab :=
  match fuel with
  | O => t
  | S fuel' =>
    match next_call 0 (calls t) with
    | Some (i, due, _) => run_tab fuel' (resume i due t)
    | None => t
    end
  end.

(** The text others append in the pauses, woven into the characters
    typed. *)
Fixpoint weave (chars others : list jsstring) : jsstring :=
  match chars, others with
  | char :: rest, other :: later => char ++ other ++ weave rest later
  | _, _ => []
  end.

(** The script has started on the Amazon page with the gift-card form. *)
Definition amazon_form_detected : State := initialize amazon_redeemed fresh.

(** Two redemptions are asked for, one right after the other, on that
    page; [Math.random()] returns one half throughout. *)
Definition two_calls : Tab :=
  call_method (amazon_applyGiftCard card_B) (fun _ => 1 # 2)
    (call_method (amazon_applyGiftCard card_A) (fun _ => 1 # 2)
       (mkTab 0 amazon_redeemed strip_line_breaks [] [] 0)).

(** While the method pauses after each character, something appends a
    character of its own. *)
Definition others_typing : World :=
  mkWorld amazon_redeemed []
          (map (fun y => mkReaction amazon_redeemed (fun v => v ++ y))
               [js "X"; js "Y"; js "8"; js "9"])
          (fun _ => 1 # 2) 0 [] strip_line_breaks.

(** ** Hosts and the allow-list *)

(** [host] ends with [tail]. *)
Definition js_ends_with (host tail : jsstring) : bool :=
  js_prefix (rev tail) (rev host).

(** The hostname belongs to the domain: it is the domain or one of its
    subdomains. *)
Definition host_of_domain (host : jsstring) (domain : string) : bool :=
  jsstring_eqb host (js domain) || js_ends_with host (ch_dot :: js domain).

(** The page is on a domain of the platform's allow-list. *)
Definition on_allow_list (n : PlatformName) (d : Document) : bool :=
  existsb (host_of_domain (hostname d)) (pd_supportedDomains (platform_of n)).


(* ===================================================================== *)
(** * Properties *)
(* ===================================================================== *)

(** ** Selector chains that cannot throw *)

Lemma querySelector_valid d sel :
  valid_selector sel = true -> querySelector d sel = Ok (hd_error (select d sel)).
Proof.
  intros H. unfold querySelector, querySelectorAll. rewrite H. reflexivity.
Qed.

Lemma querySelector_invalid d sel :
  valid_selector sel = false -> querySelector d sel = Throw (SyntaxError sel).
Proof.
  intros H. unfold querySelector, querySelectorAll. rewrite H. reflexivity.
Qed.

Lemma findElement_valid d chain :
  forallb valid_selector chain = true ->
  exists el, findElement d chain = Ok el /\ isSome el = chain_resolves d chain.
Proof.
  induction chain as [|sel rest IH]; simpl; intros H.
  - exists None. split; reflexivity.
  - apply andb_true_iff in H. destruct H as [Hsel Hrest].
    rewrite (querySelector_valid _ _ Hsel). unfold resolves. simpl.
    destruct (hd_error (select d sel)) as [el|]; simpl.
    + exists (Some el). split; reflexivity.
    + apply IH, Hrest.
Qed.

Lemma any_resolves_valid d chain :
  forallb valid_selector chain = true ->
  any_resolves d chain = Ok (chain_resolves d chain).
Proof.
  induction chain as [|sel rest IH]; simpl; intros H.
  - reflexivity.
  - apply andb_true_iff in H. destruct H as [Hsel Hrest].
    rewrite (querySelector_valid _ _ Hsel). unfold resolves. simpl.
    destruct (hd_error (select d sel)); simpl; [reflexivity | apply IH, Hrest].
Qed.

Lemma any_says_valid word d chain :
  forallb valid_selector chain = true ->
  exists b, any_says word d chain = Ok b.
Proof.
  induction chain as [|sel rest IH]; simpl; intros H.
  - exists false. reflexivity.
  - apply andb_true_iff in H. destruct H as [Hsel Hrest].
    rewrite (querySelector_valid _ _ Hsel). simpl.
    destruct (hd_error (select d sel)) as [el|].
    + destruct (js_includes _ _); [exists true; reflexivity | apply IH, Hrest].
    + apply IH, Hrest.
Qed.

(** ** Detection *)

Ltac chain_found d chain :=
  let el := fresh "el" in
  let Hf := fresh "Hf" in
  let Hs := fresh "Hs" in
  destruct (findElement_valid d chain eq_refl) as [el [Hf Hs]];
  rewrite Hf; cbn [bind]; rewrite Hs; clear Hf Hs el.

Lemma isDetected_spec n d :
  isDetected (platform_of n) d
  = Ok (on_listed_domain n d && detection_evidence n d).
Proof.
  unfold on_listed_domain, detection_evidence.
  destruct n; cbn [platform_of]; unfold AmazonPlatform, NetflixPlatform, DominosPlatform;
    cbn [isDetected pd_supportedDomains detection_paths probed_chains existsb].
  - unfold Amazon.isDetected.
    destruct (some_included (hostname d) Amazon.supportedDomains); cbn [negb andb];
      [|reflexivity].
    chain_found d Amazon.selectors.product_buyNowButton.
    rewrite orb_false_r. reflexivity.
  - unfold Netflix.isDetected.
    destruct (some_included (hostname d) Netflix.supportedDomains); cbn [negb andb];
      [|reflexivity].
    chain_found d Netflix.selectors.plans_planSelection.
    chain_found d Netflix.selectors.signup_paymentStep.
    chain_found d Netflix.selectors.checkout_giftCardSection.
    rewrite orb_false_r, !orb_assoc. reflexivity.
  - unfold Dominos.isDetected.
    destruct (some_included (hostname d) Dominos.supportedDomains); cbn [negb andb];
      [|reflexivity].
    chain_found d Dominos.selectors.checkout_totalPrice.
    chain_found d Dominos.selectors.cart_cartItems.
    chain_found d Dominos.selectors.payment_paymentSection.
    rewrite orb_false_r, !orb_assoc. reflexivity.
Qed.

(** On the listed host amazon.com a page on which a selector of the
    profile's total-price chain resolves is not detected: Amazon's detector
    probes the Buy Now chain only. *)
Lemma own_evidence_only :
  on_allow_list amazon amazon_total_only = true
  /\ existsb (chain_resolves amazon_total_only) (checkout_chains amazon) = true
  /\ isDetected AmazonPlatform amazon_total_only = Ok false.
Proof. repeat split; vm_compute; reflexivity. Qed.

(** For every registered platform, [isDetected()] returns false whenever
    none of the profile's domains occurs in the hostname, and on a hostname
    in which one occurs it returns true exactly when the pathname contains
    one of that detector's own path fragments or one of the selector chains
    that detector probes resolves. *)
Lemma isDetected_contract (n : PlatformName) (d : Document) :
  (on_listed_domain n d = false -> isDetected (platform_of n) d = Ok false)
  /\ (on_listed_domain n d = true ->
      detection_evidence n d = true -> isDetected (platform_of n) d = Ok true)
  /\ (on_listed_domain n d = true ->
      detection_evidence n d = false -> isDetected (platform_of n) d = Ok false).
Proof.
  rewrite isDetected_spec.
  repeat split; intros H; rewrite H; try intros ->; reflexivity.
Qed.

(** C6, at an input on which the code departs from it.  The hostname
    amazon.com.shop.example is no domain of Amazon's allow-list and no
    subdomain of one, yet [isDetected()] of the Amazon profile returns true
    on it: the detector's domain test, commented as a check for a supported
    Amazon domain, asks whether the hostname contains a listed domain
    anywhere, and "amazon.com" occurs at its start. *)
Theorem C6_lookalike_host_detected :
  on_allow_list amazon lookalike_host = false
  /\ some_included (hostname lookalike_host) Amazon.supportedDomains = true
  /\ isDetected AmazonPlatform lookalike_host = Ok true.
Proof. repeat split; vm_compute; reflexivity. Qed.

(** ** The registry *)

Lemma detect_in_spec d ps :
  Forall (fun p => exists b, isDetected p d = Ok b) ps ->
  exists r, detect_in d ps = Ok r /\
    match r with
    | Some p => exists before after,
        ps = before ++ p :: after
        /\ isDetected p d = Ok true
        /\ Forall (fun q => isDetected q d = Ok false) before
    | None => Forall (fun q => isDetected q d = Ok false) ps
    end.
Proof.
  induction 1 as [|p ps [b Hb] _ IH].
  - exists None. split; [reflexivity | constructor].
  - cbn [detect_in]. rewrite Hb. cbn [bind]. destruct b.
    + exists (Some p). split; [reflexivity|].
      exists [], ps. repeat split; [assumption | constructor].
    + destruct IH as [r [Hr Hspec]]. exists r. split; [exact Hr|].
      destruct r as [q|].
      * destruct Hspec as [before [after [Heq [Hq Hbefore]]]].
        exists (p :: before), after. rewrite Heq.
        repeat split; [assumption | constructor; assumption].
      * constructor; assumption.
Qed.

Lemma registry_never_throws d :
  Forall (fun p => exists b, isDetected p d = Ok b) PLATFORM_LIST.
Proof.
  repeat constructor.
  - eexists. apply (isDetected_spec amazon).
  - eexists. apply (isDetected_spec netflix).
  - eexists. apply (isDetected_spec dominos).
Qed.

(** C7.  [detectCurrentPlatform()] tries the profiles in the registry order
    Amazon, Netflix, Domino's and returns the first whose [isDetected()] is
    true, or null when none is: the result is a single profile at most. *)
Theorem C7_first_detected_in_registry_order (d : Document) :
  map pd_name PLATFORM_LIST = ["amazon"; "netflix"; "dominos"]
  /\ exists r, detectCurrentPlatform d = Ok r /\
       match r with
       | Some p => exists before after,
           PLATFORM_LIST = before ++ p :: after
           /\ isDetected p d = Ok true
           /\ Forall (fun q => isDetected q d = Ok false) before
       | None => Forall (fun q => isDetected q d = Ok false) PLATFORM_LIST
       end.
Proof.
  split; [reflexivity|].
  apply detect_in_spec, registry_never_throws.
Qed.

(** ** Price parsing *)

(** The examples on which the three parsers agree with the specification. *)
Lemma price_examples_parsed :
  Amazon.parseAmazonPrice (js "$1,234.56") = Some (mkPrice 1234.56 USD)
  /\ Amazon.parseAmazonPrice (js "Total: £12.99") = Some (mkPrice 12.99 GBP)
  /\ Amazon.parseAmazonPrice (js "15.99 USD") = Some (mkPrice 15.99 USD)
  /\ Amazon.parseAmazonPrice (js "€14.50") = Some (mkPrice 14.50 EUR)
  /\ Dominos.parseDominosPrice (js "Total: £12.99") = Some (mkPrice 12.99 GBP)
  /\ Dominos.parseDominosPrice (js "15.99 USD") = Some (mkPrice 15.99 USD)
  /\ Dominos.parseDominosPrice (js "€14.50") = Some (mkPrice 14.50 EUR)
  /\ Netflix.parseNetflixPrice (js "Total: £12.99") = Some (mkPrice 12.99 GBP)
  /\ Netflix.parseNetflixPrice (js "15.99 USD") = Some (mkPrice 15.99 USD)
  /\ Netflix.parseNetflixPrice (js "€14.50") = Some (mkPrice 14.50 EUR).
Proof. repeat split; vm_compute; reflexivity. Qed.

(** ** Texts without a digit *)

(** A successful run of the matcher has called its continuation on a
    suffix of the input, and the part consumed before holds a digit if the
    pattern needs one. *)
Lemma exec_consumes ic r : forall s cs k res,
  exec ic r s cs k = Some res ->
  exists pre s' cs',
    s = pre ++ s' /\ k s' cs' = Some res
    /\ (needs_digit r = true -> has_digit pre = true).
Proof.
  induction r as [|cl|a IHa b IHb|a IHa b IHb|a IHa|i a IHa];
    intros s cs k res H; cbn [exec] in H.
  - exists [], s, cs. repeat split; [exact H | discriminate].
  - destruct s as [|c s']; [discriminate H|].
    destruct (in_class ic cl c) eqn:E; [|discriminate H].
    exists [c], s', cs. repeat split; [exact H|].
    destruct cl; cbn [needs_digit]; try discriminate.
    intros _. cbn in E. unfold has_digit. cbn. rewrite E. reflexivity.
  - apply IHa in H. destruct H as [pre1 [s1 [cs1 [E1 [H1 D1]]]]].
    apply IHb in H1. destruct H1 as [pre2 [s2 [cs2 [E2 [H2 D2]]]]].
    exists (pre1 ++ pre2), s2, cs2. rewrite <- app_assoc, <- E2.
    repeat split; [exact E1 | exact H2 |].
    cbn [needs_digit]. intros D. unfold has_digit in *. rewrite existsb_app.
    apply orb_true_iff in D. destruct D as [D|D];
      [rewrite (D1 D) | rewrite (D2 D), orb_true_r]; reflexivity.
  - cbn [needs_digit].
    destruct (exec ic a s cs k) as [res'|] eqn:E.
    + injection H as <-. apply IHa in E.
      destruct E as [pre [s' [cs' [E1 [H1 D1]]]]].
      exists pre, s', cs'. repeat split; [exact E1 | exact H1 |].
      intros D. apply andb_true_iff in D. apply D1, D.
    + apply IHb in H. destruct H as [pre [s' [cs' [E1 [H1 D1]]]]].
      exists pre, s', cs'. repeat split; [exact E1 | exact H1 |].
      intros D. apply andb_true_iff in D. apply D1, D.
  - remember (List.length s) as fuel eqn:Ef. clear Ef.
    revert s cs H. induction fuel as [|fuel IHf]; intros s cs H.
    + exists [], s, cs. repeat split; [exact H | discriminate].
    + match type of H with
      | match ?m with Some _ => _ | None => _ end = _ => destruct m eqn:E
      end.
      * injection H as <-. apply IHa in E.
        destruct E as [pre1 [s1 [cs1 [E1 [H1 _]]]]].
        destruct (List.length s1 <? List.length s)%nat; [|discriminate H1].
        apply IHf in H1. destruct H1 as [pre2 [s2 [cs2 [E2 [H2 _]]]]].
        exists (pre1 ++ pre2), s2, cs2. rewrite <- app_assoc, <- E2.
        repeat split; [exact E1 | exact H2 | discriminate].
      * exists [], s, cs. repeat split; [exact H | discriminate].
  - apply IHa in H. destruct H as [pre [s' [cs' [E1 [H1 D1]]]]].
    exists pre, s', ((i, firstn (List.length s - List.length s') s) :: cs').
    repeat split; [exact E1 | exact H1 | exact D1].
Qed.

Lemma search_needs_digit ic r s :
  needs_digit r = true -> has_digit s = false -> search ic r s = None.
Proof.
  intros Hr. induction s as [|c s IH]; intros Hs; cbn [search].
  - destruct (exec ic (Group 0 r) [] [] (fun _ cs => Some cs)) as [res|] eqn:E;
      [|reflexivity].
    apply exec_consumes in E. destruct E as [pre [s' [cs' [E1 [_ D]]]]].
    destruct pre; [|discriminate E1]. specialize (D Hr). discriminate D.
  - destruct (exec ic (Group 0 r) (c :: s) [] (fun _ cs => Some cs)) as [res|] eqn:E.
    + apply exec_consumes in E. destruct E as [pre [s' [cs' [E1 [_ D]]]]].
      specialize (D Hr). unfold has_digit in *.
      rewrite E1, existsb_app, D in Hs. discriminate Hs.
    + apply IH. cbn in Hs. apply orb_false_iff in Hs. apply Hs.
Qed.

Lemma has_digit_rev s : has_digit (rev s) = has_digit s.
Proof.
  unfold has_digit. induction s as [|c s IH]; [reflexivity|].
  cbn [rev existsb]. rewrite existsb_app, IH. cbn. rewrite orb_false_r.
  apply orb_comm.
Qed.

Lemma has_digit_trimStart s : has_digit s = false -> has_digit (trimStart s) = false.
Proof.
  induction s as [|c s IH]; intros H; [reflexivity|]. cbn [trimStart].
  destruct (is_space c); [|exact H].
  apply IH. cbn in H. apply orb_false_iff in H. apply H.
Qed.

Lemma has_digit_collapse b s :
  has_digit s = false -> has_digit (collapse_spaces b s) = false.
Proof.
  revert b. induction s as [|c s IH]; intros b H; [reflexivity|].
  cbn in H. apply orb_false_iff in H. destruct H as [Hc Hs].
  cbn [collapse_spaces]. destruct (is_space c).
  - destruct b; [apply IH, Hs|]. cbn. apply IH, Hs.
  - cbn. rewrite Hc. apply IH, Hs.
Qed.

Lemma has_digit_cleanText s : has_digit s = false -> has_digit (cleanText s) = false.
Proof.
  intros H. unfold cleanText, trim.
  rewrite has_digit_rev. apply has_digit_trimStart.
  rewrite has_digit_rev. apply has_digit_trimStart, has_digit_collapse, H.
Qed.

(** A text without any digit holds no price: each of the three parsers
    returns null on it. *)
Lemma no_digit_no_price (priceText : jsstring) :
  has_digit priceText = false ->
  Amazon.parseAmazonPrice priceText = None
  /\ Netflix.parseNetflixPrice priceText = None
  /\ Dominos.parseDominosPrice priceText = None.
Proof.
  intros H. apply has_digit_cleanText in H.
  assert (Hm : forall ic r, needs_digit r = true ->
                            str_match ic r (cleanText priceText) = None)
    by (intros ic r Hr; apply search_needs_digit; assumption).
  unfold Amazon.parseAmazonPrice, Netflix.parseNetflixPrice, Dominos.parseDominosPrice.
  destruct priceText as [|c rest]; [repeat split|].
  remember (cleanText (c :: rest)) as clean eqn:Ec. clear Ec.
  repeat split.
  - unfold Amazon.patterns. cbn [Amazon.try_patterns].
    rewrite !Hm by reflexivity. reflexivity.
  - unfold Netflix.patterns. cbn [try_symbol_patterns].
    rewrite !Hm by reflexivity. reflexivity.
  - unfold Dominos.patterns. cbn [try_symbol_patterns].
    rewrite !Hm by reflexivity. reflexivity.
Qed.

(** C2, at the input on which the code departs from it.  Domino's parser
    reads "$1,234.56" as 1 USD: its first pattern, symbol then [\d+], matches
    "$1" and wins, so the comma-grouped pattern listed fourth is never
    tried.  Netflix's parser, which has no comma pattern, does the same;
    Amazon's parser returns 1234.56 USD. *)
Theorem C2_comma_grouped_price_read_as_1 :
  Dominos.parseDominosPrice (js "$1,234.56") = Some (mkPrice 1 USD)
  /\ Netflix.parseNetflixPrice (js "$1,234.56") = Some (mkPrice 1 USD)
  /\ Amazon.parseAmazonPrice (js "$1,234.56") = Some (mkPrice 1234.56 USD)
  /\ ~ (1 == 1234.56)%Q.
Proof.
  repeat split; try (vm_compute; reflexivity).
  intros H. vm_compute in H. discriminate H.
Qed.

(** ** Verification of a redemption *)

(** C1, at an input on which the code departs from it.  None of the success
    text, balance, applied or discount selectors resolves and the total has
    not decreased (it is the one shown before the attempt), yet the
    verification succeeds: the code accepts any positive total without
    comparing it. *)
Theorem C1_unchanged_total_verified_as_success :
  any_says "applied" dominos_unchanged Dominos.successSelectors = Ok false
  /\ any_resolves dominos_unchanged Dominos.balanceSelectors = Ok false
  /\ any_resolves dominos_unchanged Dominos.discountSelectors = Ok false
  /\ Dominos.extractTotalPrice dominos_unchanged = Ok (Some (mkPrice 25.99 USD))
  /\ spec_total_decreased dominos_unchanged dominos_unchanged = false
  /\ Dominos.verifyGiftCardApplication dominos_unchanged = Ok true.
Proof. repeat split; vm_compute; reflexivity. Qed.

(** The same holds on every Domino's page: a readable positive total is
    enough. *)
Lemma dominos_positive_total_verifies d t :
  Dominos.extractTotalPrice d = Ok (Some t) ->
  (0 < amount t)%Q ->
  Dominos.verifyGiftCardApplication d = Ok true.
Proof.
  intros Ht Hpos. unfold Dominos.verifyGiftCardApplication.
  destruct (any_says_valid "applied" d Dominos.successSelectors eq_refl) as [b Hb].
  rewrite Hb. cbn [bind]. destruct b; [reflexivity|].
  rewrite (any_resolves_valid d Dominos.balanceSelectors eq_refl). cbn [bind].
  destruct (chain_resolves d Dominos.balanceSelectors); [reflexivity|].
  rewrite Ht. cbn [bind].
  destruct (Qlt_le_dec 0 (amount t)) as [_|Hle]; [reflexivity|].
  exfalso. apply (Qlt_not_le _ _ Hpos Hle).
Qed.

(** On Amazon the last success selector is written with [:contains], which
    the selector engine rejects: unless one of the first three success
    elements says "applied", the verification throws before it reaches the
    balance and total checks (and [applyGiftCard] then reports failure from
    its [catch]). *)
Lemma amazon_verification_throws d :
  any_says "applied" d (firstn 3 Amazon.successSelectors) = Ok false ->
  exists e, Amazon.verifyGiftCardApplication d = Throw e.
Proof.
  intros H. unfold Amazon.verifyGiftCardApplication.
  unfold Amazon.successSelectors in *. cbn [firstn any_says] in H. cbn [any_says].
  destruct (querySelector d ".a-alert-success") as [e1|]; [|discriminate H].
  cbn [bind] in *.
  repeat match goal with
  | H : context [match ?o with Some _ => _ | None => _ end] |- _ =>
    destruct o eqn:?
  | H : context [if js_includes ?a ?b then _ else _] |- _ =>
    destruct (js_includes a b) eqn:?; [discriminate H|]
  | H : context [bind (querySelector ?d ?q) _] |- _ =>
    destruct (querySelector d q); [cbn [bind] in *|discriminate H]
  end;
  rewrite querySelector_invalid by reflexivity; eexists; reflexivity.
Qed.

(** ** Checkout snapshots *)










(** ** Line items *)

Lemma items_bounded_and_present (d : Document) :
  (forall its, Amazon.extractItems d = Ok its -> (List.length its <= 5)%nat)
  /\ (forall its, Netflix.extractSelectedPlan d = Ok its -> List.length its = 1%nat)
  /\ (forall its, Dominos.extractOrderItems d = Ok its ->
                  (1 <= List.length its <= 10)%nat).
Proof.
  repeat split.
  - unfold Amazon.extractItems. intros its H.
    destruct (Amazon.collect_items d Amazon.itemSelectors) as [found|e];
      cbn [bind] in H; [|discriminate H].
    replace its with (firstn 5 found) by congruence. apply firstn_le_length.
  - unfold Netflix.extractSelectedPlan. intros its H.
    destruct (findElement d Netflix.selectors.plans_selectedPlan) as [[plan|]|e];
      cbn [bind] in H; try discriminate H.
    + destruct (elem_querySelector plan _); cbn [bind] in H; [|discriminate H].
      injection H as <-. reflexivity.
    + injection H as <-. reflexivity.
  - unfold Dominos.extractOrderItems in H.
    destruct (querySelectorAll d _) as [els|e]; cbn [bind] in H; [|discriminate H].
    destruct (Dominos.items_of els 0) as [found|e]; cbn [bind] in H; [|discriminate H].
    replace its with (firstn 10 match found with [] => [Dominos.genericItem] | _ => found end)
      by congruence.
    destruct found; cbn [firstn List.length]; lia.
  - unfold Dominos.extractOrderItems in H.
    destruct (querySelectorAll d _) as [els|e]; cbn [bind] in H; [|discriminate H].
    destruct (Dominos.items_of els 0) as [found|e]; cbn [bind] in H; [|discriminate H].
    replace its with (firstn 10 match found with [] => [Dominos.genericItem] | _ => found end)
      by congruence.
    apply firstn_le_length.
Qed.



(** C5, at an input on which the code departs from it.  On an Amazon page
    whose total is readable but on which no item container is found, the
    extraction succeeds with an empty item list: Amazon's [extractItems]
    has no placeholder, unlike its Netflix and Domino's counterparts. *)
Theorem C5_amazon_snapshot_without_items :
  Amazon.extractItems amazon_total_only = Ok []
  /\ (exists ci, getCheckoutInfo AmazonPlatform amazon_total_only 0 = Some ci
                 /\ items ci = [])
  /\ Netflix.extractSelectedPlan amazon_total_only
     = Ok [mkItem (js "Netflix Subscription") "netflix" None (Some "subscription")]
  /\ Dominos.extractOrderItems amazon_total_only = Ok [Dominos.genericItem].
Proof.
  repeat split; try (vm_compute; reflexivity).
  eexists. split; vm_compute; reflexivity.
Qed.

(** ** Injection of the pay button *)

Lemma one_button_frame s s' :
  payButton s' = payButton s -> mounted s' = mounted s ->
  one_button s -> one_button s'.
Proof. unfold one_button. intros -> ->. exact (fun H => H). Qed.

(** Handlers that leave the button alone. *)
Ltac untouched H :=
  refine (one_button_frame _ _ _ _ H);
  repeat match goal with
         | |- context [match ?x with _ => _ end] => destruct x
         end;
  reflexivity.

Lemma injectPayButton_one_button d s :
  one_button s -> one_button (injectPayButton d s).
Proof.
  unfold injectPayButton, one_button. intros H.
  destruct (currentPlatform s) as [p|]; [|exact H].
  destruct (payButton s) as [b|] eqn:Hb; [rewrite Hb; exact H|].
  destruct (getButtonInjectionPoint p d) as [[point|]|e]; try (rewrite Hb; exact H).
  cbn. rewrite H. exists point. reflexivity.
Qed.

Lemma detectAndSetupPlatform_one_button d s s' :
  detectAndSetupPlatform d s = Ok s' -> one_button s -> one_button s'.
Proof.
  unfold detectAndSetupPlatform, setupPlatformIntegration. intros E H.
  destruct (detectCurrentPlatform d) as [[p|]|e]; cbn [bind] in E;
    try discriminate E; injection E as <-; [|exact H].
  cbn [currentPlatform set_currentPlatform].
  apply injectPayButton_one_button.
  destruct (getCheckoutInfo p d _); exact H.
Qed.

Lemma retryPlatformDetection_one_button d s :
  one_button s -> one_button (retryPlatformDetection d s).
Proof.
  unfold retryPlatformDetection. intros H.
  destruct (_ && _); [exact H|].
  destruct (detectAndSetupPlatform d _) as [s'|e] eqn:E; cbn [try_catch];
    [|exact H].
  apply (detectAndSetupPlatform_one_button _ _ _ E). exact H.
Qed.

Lemma initialize_one_button d s :
  one_button s -> one_button (initialize d s).
Proof.
  unfold initialize. intros H.
  destruct (isInitialized s); [exact H|].
  destruct (negb _); [exact H|].
  destruct (detectAndSetupPlatform d s) as [s'|e] eqn:E; cbn [bind try_catch];
    [|exact H].
  apply (one_button_frame s'); [reflexivity | reflexivity |].
  apply (detectAndSetupPlatform_one_button _ _ _ E). exact H.
Qed.

Lemma fire_one_button fuel t d s :
  one_button s -> one_button (fire fuel t d s).
Proof.
  revert s. induction fuel as [|fuel IH]; intros s H; cbn [fire]; [exact H|].
  destruct (next_due t (timers s)) as [tm|]; [|exact H].
  apply IH. destruct (callback tm); cbn [run_callback].
  - apply retryPlatformDetection_one_button.
    destruct (timers s); exact H.
  - exact H.
Qed.

Lemma cleanup_one_button s : one_button s -> one_button (cleanup s).
Proof.
  unfold cleanup, one_button. intros H.
  destruct (payButton s) as [b|] eqn:E.
  - destruct H as [point Hm].
    destruct (observer s); unfold set_observer; cbn; rewrite E; cbn;
      rewrite Hm; cbn; rewrite Nat.eqb_refl; reflexivity.
  - destruct (observer s); unfold set_observer; cbn; rewrite E; cbn;
      rewrite ?E; exact H.
Qed.

Lemma giftCardSettled_one_button n o s :
  one_button s -> one_button (giftCardSettled n o s).
Proof.
  unfold giftCardSettled, caughtApplying. intros H. untouched H.
Qed.

Lemma step_one_button e s : one_button s -> one_button (step e s).
Proof.
  intros H. destruct e as [d|t d|records|m d|n o|d|]; cbn [step].
  - apply initialize_one_button, H.
  - unfold advance. apply (one_button_frame (fire (List.length (timers s)) t d s));
      [reflexivity | reflexivity | apply fire_one_button, H].
  - destruct (observer s); [|exact H].
    unfold observerCallback. destruct (shouldCheck records); [|exact H].
    destruct (detectionTimeout s); exact H.
  - destruct (isInitialized s); [|exact H].
    destruct m; cbn [onMessage fst]; try exact H.
    + unfold applyGiftCard. destruct (currentPlatform s); exact H.
    + unfold setPayButtonLoading. destruct (payButton s) eqn:E; [|exact H].
      unfold one_button in *. cbn. rewrite E in *. exact H.
    + unfold setPayButtonLoading. destruct (payButton s) eqn:E; [|exact H].
      unfold one_button in *. cbn. rewrite E in *. exact H.
  - apply giftCardSettled_one_button, H.
  - destruct (isSome (payButton s)); [|exact H].
    unfold handlePayButtonClick. destruct (currentPlatform s) as [p|]; [|exact H].
    destruct (getCheckoutInfo p d (clock s)); [|exact H].
    unfold setPayButtonLoading. destruct (payButton s) eqn:E; [|exact H].
    unfold one_button in *. cbn. rewrite E in *. exact H.
  - apply cleanup_one_button, H.
Qed.

Lemma run_one_button es s : one_button s -> one_button (run es s).
Proof.
  revert s. induction es as [|e es IH]; intros s H; [exact H|].
  apply IH, step_one_button, H.
Qed.

(** C9.  Injection is idempotent.  A second [injectPayButton()] on the same
    page changes nothing; starting without a button, two invocations on a
    page with a mount point leave exactly one button mounted, because the
    call returns at once when [this.payButton] is set; a re-scan is a no-op
    once a platform is detected and the button is held; and whatever
    events arrive, the page never holds more than one button. *)
Theorem C9_injection_idempotent (d : Document) (s : State) :
  injectPayButton d (injectPayButton d s) = injectPayButton d s
  /\ (forall p point,
        currentPlatform s = Some p -> payButton s = None -> mounted s = [] ->
        getButtonInjectionPoint p d = Ok (Some point) ->
        mounted (injectPayButton d (injectPayButton d s))
        = [(point, createPayButton p (created s))])
  /\ (forall p b,
        currentPlatform s = Some p -> payButton s = Some b ->
        injectPayButton d s = s
        /\ retryPlatformDetection d s = set_rescans (S (rescans s)) s)
  /\ (forall es, (List.length (mounted (run es fresh)) <= 1)%nat).
Proof.
  repeat split.
  - unfold injectPayButton at 2 3.
    destruct (currentPlatform s) as [p|] eqn:Hp.
    + destruct (payButton s) as [b|] eqn:Hb.
      * unfold injectPayButton. rewrite Hp, Hb. reflexivity.
      * destruct (getButtonInjectionPoint p d) as [[point|]|e] eqn:Hg.
        -- unfold injectPayButton. cbn. rewrite Hp. reflexivity.
        -- unfold injectPayButton. rewrite Hp, Hb, Hg. reflexivity.
        -- unfold injectPayButton. rewrite Hp, Hb, Hg. reflexivity.
    + unfold injectPayButton. rewrite Hp. reflexivity.
  - intros p point Hp Hb Hm Hg.
    unfold injectPayButton at 2. rewrite Hp, Hb, Hg.
    unfold injectPayButton. cbn. rewrite Hm, Hp. reflexivity.
  - unfold injectPayButton. rewrite H, H0. reflexivity.
  - unfold retryPlatformDetection. cbn. rewrite H, H0. reflexivity.
  - intros es.
    assert (H : one_button (run es fresh)) by (apply run_one_button; reflexivity).
    unfold one_button in H. destruct (payButton (run es fresh)).
    + destruct H as [point ->]. cbn. lia.
    + rewrite H. cbn. lia.
Qed.

Lemma C9_injection_idempotent_witness :
  mounted (injectPayButton dominos_checkout
             (injectPayButton dominos_checkout dominos_detected))
  = [(".payment-methods", createPayButton DominosPlatform (created dominos_detected))].
Proof.
  assert (Hg : getButtonInjectionPoint DominosPlatform dominos_checkout
               = Ok (Some ".payment-methods")) by (vm_compute; reflexivity).
  exact (proj1 (proj2 (C9_injection_idempotent dominos_checkout dominos_detected))
               DominosPlatform ".payment-methods" eq_refl eq_refl eq_refl Hg).
Defined.

(** ** Teardown *)

Lemma cleanup_disposes s :
  one_button s ->
  observer (cleanup s) = false
  /\ payButton (cleanup s) = None
  /\ mounted (cleanup s) = []
  /\ timers (cleanup s) = timers s.
Proof.
  unfold cleanup, one_button. intros H.
  destruct (payButton s) as [b|] eqn:E.
  - destruct H as [point Hm].
    destruct (observer s) eqn:Ho; unfold set_observer; cbn; rewrite E; cbn;
      rewrite Hm; cbn; rewrite Nat.eqb_refl; repeat split; assumption.
  - destruct (observer s) eqn:Ho; unfold set_observer; cbn; rewrite E; cbn;
      repeat split; assumption.
Qed.

(** C10, at an input on which the code departs from it.  A structural
    change schedules the detection timer; [cleanup()] then disconnects the
    observer and removes the button but leaves the timer pending; when it
    comes due, [retryPlatformDetection()] runs on the torn-down script and
    mounts a button again. *)
Theorem C10_detection_timer_outlives_cleanup :
  let watching := run [PageLoaded dominos_checkout] fresh in
  let torn_down := run [Mutations element_added; BeforeUnload] watching in
  let later := step (Tick 1000 dominos_checkout) torn_down in
  List.length (mounted watching) = 1%nat
  /\ observer torn_down = false
  /\ payButton torn_down = None
  /\ mounted torn_down = []
  /\ timers torn_down = [mkTimer 0 1000 RetryDetection]
  /\ rescans later = 1%nat
  /\ List.length (mounted later) = 1%nat.
Proof. repeat split; vm_compute; reflexivity. Qed.

(** ** Debounced re-detection *)

Lemma next_due_none t ts :
  next_due t ts = None -> Forall (fun tm => not_due t tm = true) ts.
Proof.
  induction ts as [|x ts IH]; cbn [next_due]; intros H; [constructor|].
  destruct (next_due t ts) as [y|].
  - destruct (_ && _); discriminate H.
  - destruct (due x <=? t)%Z eqn:E; [discriminate H|].
    constructor; [|apply IH; reflexivity].
    unfold not_due. apply Z.ltb_lt. apply Z.leb_gt in E. exact E.
Qed.

Lemma next_due_some t ts tm :
  next_due t ts = Some tm -> In tm ts /\ (due tm <= t)%Z.
Proof.
  revert tm. induction ts as [|x ts IH]; cbn [next_due]; intros tm H;
    [discriminate H|].
  destruct (next_due t ts) as [y|].
  - destruct ((due x <=? t) && (due x <=? due y))%Z eqn:E.
    + injection H as <-. apply andb_true_iff in E. destruct E as [E _].
      split; [left; reflexivity | apply Z.leb_le, E].
    + injection H as <-. destruct (IH y eq_refl) as [Hin Hd].
      split; [right; exact Hin | exact Hd].
  - destruct (due x <=? t)%Z eqn:E; [|discriminate H].
    injection H as <-. split; [left; reflexivity | apply Z.leb_le, E].
Qed.

Lemma filter_same {A} (f g : A -> bool) l :
  (forall x, In x l -> f x = true -> g x = true) ->
  filter f (filter g l) = filter f l.
Proof.
  induction l as [|x l IH]; intros H; [reflexivity|]. cbn [filter].
  destruct (g x) eqn:Eg; cbn [filter].
  - rewrite IH; [reflexivity|]. intros y Hy. apply H. right. exact Hy.
  - destruct (f x) eqn:Ef.
    + rewrite (H x (or_introl eq_refl) Ef) in Eg. discriminate Eg.
    + apply IH. intros y Hy. apply H. right. exact Hy.
Qed.

Lemma filter_all {A} (f : A -> bool) l :
  Forall (fun x => f x = true) l -> filter f l = l.
Proof.
  induction 1 as [|x l Hx _ IH]; [reflexivity|].
  cbn [filter]. rewrite Hx, IH. reflexivity.
Qed.

(** With distinct ids, clearing by id takes out exactly the one timer. *)
Lemma same_id_same_timer ts x y :
  NoDup (map timer_id ts) -> In x ts -> In y ts ->
  timer_id x = timer_id y -> x = y.
Proof.
  induction ts as [|z ts IH]; intros Hnd Hx Hy E; [destruct Hx|].
  cbn [map] in Hnd. inversion Hnd as [|? ? Hz Hnd']; subst.
  destruct Hx as [->|Hx], Hy as [->|Hy].
  - reflexivity.
  - exfalso. apply Hz. rewrite E. apply in_map. exact Hy.
  - exfalso. apply Hz. rewrite <- E. apply in_map. exact Hx.
  - apply IH; assumption.
Qed.

Lemma count_without ts tm (f : Timer -> bool) :
  NoDup (map timer_id ts) -> In tm ts ->
  (List.length (filter f (filter (other_id (timer_id tm)) ts))
   + (if f tm then 1 else 0)
   = List.length (filter f ts))%nat.
Proof.
  induction ts as [|x ts IH]; intros Hnd Hin; [destruct Hin|].
  cbn [map] in Hnd. inversion Hnd as [|? ? Hx Hnd']; subst.
  cbn [filter].
  destruct (other_id (timer_id tm) x) eqn:E; unfold other_id in E.
  - apply negb_true_iff in E.
    destruct Hin as [->|Hin]; [rewrite Nat.eqb_refl in E; discriminate E|].
    specialize (IH Hnd' Hin). cbn [filter].
    destruct (f x); cbn [List.length]; lia.
  - apply negb_false_iff, Nat.eqb_eq in E.
    assert (x = tm) by (apply (same_id_same_timer (x :: ts));
                        [exact Hnd | left; reflexivity | exact Hin | exact E]).
    subst x. rewrite (filter_all (other_id (timer_id tm))).
    + destruct (f tm); cbn [List.length]; lia.
    + apply Forall_forall. intros y Hy. unfold other_id.
      apply negb_true_iff, Nat.eqb_neq. intros Ey. apply Hx.
      rewrite <- Ey. apply in_map. exact Hy.
Qed.

Lemma filter_NoDup_ids (f : Timer -> bool) ts :
  NoDup (map timer_id ts) -> NoDup (map timer_id (filter f ts)).
Proof.
  induction ts as [|x ts IH]; intros H; [constructor|].
  cbn [map] in H. inversion H as [|? ? Hx Hnd]; subst.
  cbn [filter]. destruct (f x); [|apply IH, Hnd].
  cbn [map]. constructor; [|apply IH, Hnd].
  intros Hin. apply Hx. apply in_map_iff in Hin.
  destruct Hin as [y [Ey Hy]]. apply filter_In in Hy.
  rewrite <- Ey. apply in_map, Hy.
Qed.

Lemma filter_Forall {A} (P : A -> Prop) (f : A -> bool) l :
  Forall P l -> Forall P (filter f l).
Proof.
  intros H. apply Forall_forall. intros x Hx. apply filter_In in Hx.
  rewrite Forall_forall in H. apply H, Hx.
Qed.

Lemma detectAndSetupPlatform_frame d s s' :
  detectAndSetupPlatform d s = Ok s' ->
  same_timing s s' /\ rescans s' = rescans s.
Proof.
  unfold detectAndSetupPlatform, setupPlatformIntegration, injectPayButton.
  intros E.
  destruct (detectCurrentPlatform d) as [[p|]|e]; cbn [bind] in E;
    try discriminate E; injection E as <-.
  - cbn [currentPlatform set_currentPlatform].
    destruct (getCheckoutInfo p d _);
      cbn [currentPlatform payButton sendMessage set_sent set_currentPlatform];
      destruct (payButton s);
      try destruct (getButtonInjectionPoint p d) as [[point|]|e];
      repeat split.
  - repeat split.
Qed.

Lemma run_callback_frame cb d s :
  same_timing s (run_callback cb d s)
  /\ rescans (run_callback cb d s)
     = (rescans s + if is_retry cb then 1 else 0)%nat.
Proof.
  destruct cb; cbn [run_callback is_retry].
  - unfold retryPlatformDetection.
    destruct (_ && _); [repeat split; cbn; lia|].
    destruct (detectAndSetupPlatform d _) as [s'|e] eqn:E;
      [|repeat split; cbn; lia].
    destruct (detectAndSetupPlatform_frame _ _ _ E) as [Hs Hr].
    split; [exact Hs | rewrite Hr; cbn; lia].
  - repeat split. cbn. lia.
Qed.

Lemma fire_spec fuel t d : forall s,
  wf_timers s -> (List.length (timers s) <= fuel)%nat ->
  timers (fire fuel t d s) = filter (not_due t) (timers s)
  /\ rescans (fire fuel t d s)
     = (rescans s + List.length (filter (due_retry t) (timers s)))%nat
  /\ next_timer (fire fuel t d s) = next_timer s
  /\ observer (fire fuel t d s) = observer s
  /\ detectionTimeout (fire fuel t d s) = detectionTimeout s
  /\ (clock s <= clock (fire fuel t d s) <= Z.max (clock s) t)%Z.
Proof.
  induction fuel as [|fuel IH]; intros s [Hnd Hlt] Hlen.
  - destruct (timers s) eqn:E; [|cbn in Hlen; lia].
    cbn [fire]. rewrite E. cbn. repeat split; lia.
  - cbn [fire]. destruct (next_due t (timers s)) as [tm|] eqn:Hnext.
    + destruct (next_due_some _ _ _ Hnext) as [Hin Hdue].
      set (s2 := set_clock (Z.max (clock (clearTimeout (Some (timer_id tm)) s)) (due tm))
                           (clearTimeout (Some (timer_id tm)) s)).
      destruct (run_callback_frame (callback tm) d s2)
        as [[Ht [Hn [Ho [Hd Hc]]]] Hr].
      set (s3 := run_callback (callback tm) d s2) in *.
      assert (Hts : timers s3 = filter (other_id (timer_id tm)) (timers s))
        by (rewrite Ht; reflexivity).
      assert (Hwf : wf_timers s3).
      { split; rewrite Hts.
        - apply filter_NoDup_ids, Hnd.
        - rewrite Hn. apply filter_Forall. exact Hlt. }
      assert (Hlen3 : (List.length (timers s3) <= fuel)%nat).
      { rewrite Hts.
        pose proof (count_without (timers s) tm (fun _ => true) Hnd Hin) as Hc1.
        rewrite !(filter_all (fun _ : Timer => true)) in Hc1
          by (apply Forall_forall; reflexivity).
        cbv beta iota in Hc1. lia. }
      destruct (IH s3 Hwf Hlen3) as [It [Ir [In_ [Io [Id Ic]]]]].
      rewrite It, Ir, In_, Io, Id, Hts, Hr, Hn, Ho, Hd.
      repeat split.
      * apply filter_same. intros x Hx Hnot. unfold other_id.
        apply negb_true_iff, Nat.eqb_neq. intros E.
        assert (x = tm) by (apply (same_id_same_timer (timers s)); assumption).
        subst x. unfold not_due in Hnot. apply Z.ltb_lt in Hnot. lia.
      * pose proof (count_without (timers s) tm (due_retry t) Hnd Hin) as Hc2.
        assert (Hf : due_retry t tm = is_retry (callback tm)).
        { unfold due_retry, not_due.
          replace (t <? due tm)%Z with false by (symmetry; apply Z.ltb_ge; exact Hdue).
          apply andb_true_r. }
        rewrite Hf in Hc2. change (rescans s2) with (rescans s).
        destruct (is_retry (callback tm)); lia.
      * rewrite Hc in Ic. change (clock s2) with (Z.max (clock s) (due tm)) in Ic. lia.
      * rewrite Hc in Ic. change (clock s2) with (Z.max (clock s) (due tm)) in Ic. lia.
    + pose proof (next_due_none _ _ Hnext) as Hall.
      rewrite (filter_all _ _ Hall).
      assert (Hz : filter (due_retry t) (timers s) = []).
      { clear -Hall. induction Hall as [|x l Hx _ IHl]; [reflexivity|].
        cbn [filter]. unfold due_retry at 1. rewrite Hx, andb_false_r. exact IHl. }
      rewrite Hz. cbn. repeat split; lia.
Qed.

Lemma advance_spec t d s :
  wf_timers s ->
  timers (advance t d s) = filter (not_due t) (timers s)
  /\ rescans (advance t d s)
     = (rescans s + List.length (filter (due_retry t) (timers s)))%nat
  /\ next_timer (advance t d s) = next_timer s
  /\ observer (advance t d s) = observer s
  /\ detectionTimeout (advance t d s) = detectionTimeout s
  /\ clock (advance t d s) = Z.max (clock s) t.
Proof.
  intros Hwf.
  destruct (fire_spec (List.length (timers s)) t d s Hwf (le_n _))
    as [Ht [Hr [Hn [Ho [Hd Hc]]]]].
  unfold advance. cbn. rewrite Ht, Hr, Hn, Ho, Hd. repeat split. lia.
Qed.

Lemma filter_none {A} (f : A -> bool) l :
  (forall x, In x l -> f x = false) -> filter f l = [].
Proof.
  induction l as [|x l IH]; intros H; [reflexivity|].
  cbn [filter]. rewrite (H x (or_introl eq_refl)).
  apply IH. intros y Hy. apply H. right. exact Hy.
Qed.

Lemma filter_and {A} (f g : A -> bool) l :
  filter (fun x => g x && f x) l = filter f (filter g l).
Proof.
  induction l as [|x l IH]; [reflexivity|]. cbn [filter].
  destruct (g x); cbn [andb filter]; [destruct (f x)|]; rewrite IH; reflexivity.
Qed.

Lemma armed_quiet r0 prev t s :
  armed r0 prev s -> (prev <= t < prev + 1000)%Z -> quiet t s /\ rescans s = r0.
Proof.
  intros [Hwf [Ho [Hr [Hc [id [Hd Hp]]]]]] Ht.
  split; [|exact Hr].
  split; [exact Hwf|]. split; [exact Ho|]. split; [lia|].
  intros r Hin. rewrite Hp in Hin. destruct Hin as [<-|[]].
  split; [cbn; lia | exact Hd].
Qed.

Lemma clearTimeout_frame handle s :
  timers (clearTimeout handle s)
  = match handle with
    | Some id => filter (other_id id) (timers s)
    | None => timers s
    end
  /\ next_timer (clearTimeout handle s) = next_timer s
  /\ observer (clearTimeout handle s) = observer s
  /\ clock (clearTimeout handle s) = clock s
  /\ rescans (clearTimeout handle s) = rescans s.
Proof. destruct handle; repeat split; reflexivity. Qed.

Lemma signal_arms sg s :
  quiet (at_time sg) s -> shouldCheck (records sg) = true ->
  armed (rescans s) (at_time sg) (run (deliver sg) s).
Proof.
  intros [Hwf [Ho [Hc Hp]]] Hcheck.
  destruct (advance_spec (at_time sg) (page sg) s Hwf)
    as [At [Ar [An [Ao [Ad Ac]]]]].
  cbn [run deliver fold_left step].
  remember (advance (at_time sg) (page sg) s) as s1 eqn:Es1. clear Es1.
  rewrite Ao, Ho. unfold observerCallback. rewrite Hcheck.
  destruct (clearTimeout_frame (detectionTimeout s1) s1)
    as [Ct [Cn [Co [Cc Cr]]]].
  remember (clearTimeout (detectionTimeout s1) s1) as s2 eqn:Es2. clear Es2.
  rewrite Ad, At in Ct. rewrite An in Cn. rewrite Ao, Ho in Co.
  rewrite Ac in Cc. rewrite Ar in Cr.
  assert (Hsub : forall x, In x (timers s2) ->
                           In x (timers s) /\ is_retry (callback x) = false).
  { intros x Hx. rewrite Ct in Hx.
    assert (Hin : In x (timers s)).
    { destruct (detectionTimeout s);
        [apply filter_In in Hx; destruct Hx as [Hx _]|];
        apply filter_In in Hx; apply Hx. }
    split; [exact Hin|].
    destruct (is_retry (callback x)) eqn:E; [|reflexivity]. exfalso.
    destruct (Hp x) as [_ Hh]; [apply filter_In; split; assumption|].
    rewrite Hh in Hx. apply filter_In in Hx. destruct Hx as [_ Hx].
    unfold other_id in Hx. rewrite Nat.eqb_refl in Hx. discriminate Hx. }
  assert (Hnd2 : NoDup (map timer_id (timers s2))).
  { rewrite Ct. destruct Hwf as [Hnd _].
    destruct (detectionTimeout s); repeat apply filter_NoDup_ids; exact Hnd. }
  assert (Hlt2 : Forall (fun tm => (timer_id tm < next_timer s)%nat) (timers s2)).
  { apply Forall_forall. intros x Hx. destruct Hwf as [_ Hlt].
    rewrite Forall_forall in Hlt. apply Hlt, Hsub, Hx. }
  assert (Hquiet : filter (due_retry (at_time sg)) (timers s) = []).
  { apply filter_none. intros x Hx. unfold due_retry.
    destruct (is_retry (callback x)) eqn:E; [|reflexivity].
    destruct (Hp x) as [Hdue _]; [apply filter_In; split; assumption|].
    unfold not_due. apply Z.ltb_lt in Hdue. rewrite Hdue. reflexivity. }
  rewrite Hquiet in Cr.
  unfold armed, wf_timers, pending_retries, setTimeout.
  cbn [timers next_timer observer rescans clock detectionTimeout
       set_detectionTimeout set_next_timer set_timers].
  rewrite Cn, Co, Cc, Cr.
  split; [split|].
  - rewrite map_app. cbn [map timer_id].
    apply NoDup_app; [exact Hnd2 | repeat constructor; intros [] |].
    intros x Hx [E|[]]. subst x.
    apply in_map_iff in Hx. destruct Hx as [y [Ey Hy]].
    rewrite Forall_forall in Hlt2. specialize (Hlt2 y Hy). lia.
  - apply Forall_app. split.
    + apply Forall_forall. intros x Hx. rewrite Forall_forall in Hlt2.
      specialize (Hlt2 x Hx). lia.
    + constructor; [cbn [timer_id]; lia | constructor].
  - split; [reflexivity|]. split; [cbn [List.length]; lia|]. split; [lia|].
    exists (next_timer s). split; [reflexivity|].
    rewrite filter_app.
    rewrite (filter_none _ (timers s2)) by (intros x Hx; apply Hsub, Hx).
    cbn [filter callback is_retry app].
    replace (Z.max (clock s) (at_time sg)) with (at_time sg) by lia.
    reflexivity.
Qed.

Lemma burst_keeps_armed rest : forall s prev r0,
  armed r0 prev s ->
  debounced prev rest ->
  Forall (fun sg => shouldCheck (records sg) = true) rest ->
  armed r0 (last_time prev rest) (run (burst rest) s).
Proof.
  induction rest as [|sg rest IH]; intros s prev r0 Ha Hd Hall; [exact Ha|].
  destruct Hd as [Ht Hd]. inversion Hall as [|? ? Hsg Hrest]; subst.
  destruct (armed_quiet _ _ _ _ Ha Ht) as [Hq Hr].
  pose proof (signal_arms sg s Hq Hsg) as Ha'. rewrite Hr in Ha'.
  cbn [burst flat_map last_time]. unfold run. rewrite fold_left_app.
  apply (IH _ _ _ Ha' Hd Hrest).
Qed.

Lemma armed_fires_once r0 t s T d :
  armed r0 t s -> (t + 1000 <= T)%Z -> rescans (advance T d s) = S r0.
Proof.
  intros [Hwf [_ [Hr [_ [id [_ Hp]]]]]] HT.
  destruct (advance_spec T d s Hwf) as [_ [Ar _]]. rewrite Ar, Hr.
  unfold due_retry. rewrite (filter_and (fun tm => negb (not_due T tm))).
  fold (pending_retries s). rewrite Hp. cbn [filter]. unfold not_due. cbn [due].
  replace (T <? t + 1000)%Z with false by (symmetry; apply Z.ltb_ge; lia).
  cbn. lia.
Qed.

Lemma burst_rescans_once
        (s : State) (first : Signal) (rest : list Signal) (T : Z) (dT : Document) :
  wf_timers s ->
  observer s = true ->
  pending_retries s = [] ->
  (clock s <= at_time first)%Z ->
  Forall (fun sg => shouldCheck (records sg) = true) (first :: rest) ->
  debounced (at_time first) rest ->
  (last_time (at_time first) rest + 1000 <= T)%Z ->
  rescans (run (burst (first :: rest)) s) = rescans s
  /\ rescans (run (burst (first :: rest) ++ [Tick T dT]) s) = S (rescans s).
Proof.
  intros Hwf Ho Hp Hc Hall Hd HT.
  inversion Hall as [|? ? Hfirst Hrest]; subst.
  assert (Hq : quiet (at_time first) s).
  { split; [exact Hwf|]. split; [exact Ho|]. split; [exact Hc|].
    intros r Hin. rewrite Hp in Hin. destruct Hin. }
  pose proof (signal_arms first s Hq Hfirst) as Ha.
  pose proof (burst_keeps_armed rest _ _ _ Ha Hd Hrest) as Hb.
  assert (E : run (burst (first :: rest)) s
              = run (burst rest) (run (deliver first) s)).
  { cbn [burst flat_map]. unfold run. apply fold_left_app. }
  split.
  - rewrite E. destruct Hb as [_ [_ [Hr _]]]. exact Hr.
  - unfold run at 1. rewrite fold_left_app. fold (run (burst (first :: rest)) s).
    rewrite E. cbn [fold_left step].
    apply (armed_fires_once _ _ _ _ _ Hb HT).
Qed.

(** Every state the script reaches has well-formed timers. *)
Lemma wf_frame s s' :
  timers s' = timers s -> next_timer s' = next_timer s ->
  wf_timers s -> wf_timers s'.
Proof. unfold wf_timers. intros -> ->. exact (fun H => H). Qed.

Lemma wf_setTimeout cb ms s :
  wf_timers s -> wf_timers (snd (setTimeout cb ms s)).
Proof.
  intros [Hnd Hlt]. unfold wf_timers, setTimeout.
  cbn [snd timers next_timer set_next_timer set_timers].
  rewrite Forall_forall in Hlt. split.
  - rewrite map_app. cbn [map timer_id].
    apply NoDup_app; [exact Hnd | repeat constructor; intros [] |].
    intros x Hx [E|[]]. subst x.
    apply in_map_iff in Hx. destruct Hx as [y [Ey Hy]].
    specialize (Hlt y Hy). lia.
  - apply Forall_app. split.
    + apply Forall_forall. intros x Hx. specialize (Hlt x Hx). lia.
    + constructor; [cbn [timer_id]; lia | constructor].
Qed.

Lemma wf_clearTimeout handle s :
  wf_timers s -> wf_timers (clearTimeout handle s).
Proof.
  intros [Hnd Hlt]. destruct handle as [id|]; [|split; assumption].
  split; cbn.
  - apply filter_NoDup_ids, Hnd.
  - apply filter_Forall, Hlt.
Qed.

Lemma wf_showNotification ty m s :
  wf_timers s -> wf_timers (showNotification ty m s).
Proof.
  intros H. unfold showNotification. apply wf_setTimeout.
  revert H. apply wf_frame; reflexivity.
Qed.

Lemma wf_step e s : wf_timers s -> wf_timers (step e s).
Proof.
  intros H. destruct e as [d|t d|recs|m d|n o|d|]; cbn [step].
  - unfold initialize. destruct (isInitialized s); [exact H|].
    destruct (negb _); [exact H|].
    destruct (detectAndSetupPlatform d s) as [s'|e] eqn:E; cbn [bind try_catch];
      [|exact H].
    destruct (detectAndSetupPlatform_frame _ _ _ E) as [[Ht [Hn _]] _].
    revert H. apply wf_frame; cbn; assumption.
  - destruct (advance_spec t d s H) as [Ht [_ [Hn _]]]. destruct H as [Hnd Hlt].
    split; rewrite Ht; [apply filter_NoDup_ids, Hnd|].
    rewrite Hn. apply filter_Forall, Hlt.
  - destruct (observer s); [|exact H].
    unfold observerCallback. destruct (shouldCheck recs); [|exact H].
    pose proof (wf_setTimeout RetryDetection 1000 _
                  (wf_clearTimeout (detectionTimeout s) s H)) as Hw.
    destruct (setTimeout RetryDetection 1000 _) as [id s2].
    revert Hw. apply wf_frame; reflexivity.
  - destruct (isInitialized s); [|exact H].
    destruct m; cbn [onMessage fst]; try exact H.
    + unfold applyGiftCard. destruct (currentPlatform s); [|exact H].
      revert H. apply wf_frame; reflexivity.
    + apply wf_showNotification. unfold setPayButtonLoading.
      destruct (payButton s); [|exact H]. revert H. apply wf_frame; reflexivity.
    + apply wf_showNotification. unfold setPayButtonLoading.
      destruct (payButton s); [|exact H]. revert H. apply wf_frame; reflexivity.
  - unfold giftCardSettled, caughtApplying.
    destruct (find _ _); [|exact H].
    assert (H0 : wf_timers
                   (set_attempts
                      (filter (fun b => negb (attempt_id b =? n)%nat) (attempts s)) s))
      by (revert H; apply wf_frame; reflexivity).
    destruct o as [[|]|e].
    + destruct (currentPlatform _).
      * generalize (wf_showNotification NSuccess
                      (js ("Gift card applied to " ++ pd_displayName p ++ "!")%string)
                      _ H0).
        apply wf_frame; reflexivity.
      * apply wf_showNotification, H0.
    + destruct (currentPlatform _).
      * generalize (wf_showNotification NError
                      (js "Gift card application failed. Please try manually.")
                      _ H0).
        apply wf_frame; reflexivity.
      * apply wf_showNotification, wf_showNotification, H0.
    + apply wf_showNotification, H0.
  - destruct (isSome (payButton s)); [|exact H].
    unfold handlePayButtonClick. destruct (currentPlatform s) as [p|]; [|exact H].
    destruct (getCheckoutInfo p d (clock s)).
    + unfold setPayButtonLoading. destruct (payButton s);
        revert H; apply wf_frame; reflexivity.
    + apply wf_showNotification, H.
  - unfold cleanup. revert H. apply wf_frame;
      destruct (observer s); unfold set_observer; cbn;
      destruct (payButton s); reflexivity.
Qed.

Lemma wf_run es : forall s, wf_timers s -> wf_timers (run es s).
Proof.
  induction es as [|e es IH]; intros s H; [exact H|].
  apply IH, wf_step, H.
Qed.

Lemma wf_reachable es : wf_timers (run es fresh).
Proof. apply wf_run. split; constructor. Qed.

(** C8.  In any state the script has reached with its observer connected
    and no detection timer pending, a burst of N >= 1 element-adding
    signals, each less than the 1000 ms of the detection timeout after the
    one before (so in particular any N signals inside one such window),
    triggers no re-scan while it lasts and exactly one
    [retryPlatformDetection()] once a second has passed after its last
    signal. *)
Theorem C8_burst_triggers_one_rescan
        (history : list Event) (first : Signal) (rest : list Signal)
        (T : Z) (dT : Document) :
  let s := run history fresh in
  observer s = true ->
  pending_retries s = [] ->
  (clock s <= at_time first)%Z ->
  Forall (fun sg => shouldCheck (records sg) = true) (first :: rest) ->
  debounced (at_time first) rest ->
  (last_time (at_time first) rest + 1000 <= T)%Z ->
  rescans (run (burst (first :: rest)) s) = rescans s
  /\ rescans (run (burst (first :: rest) ++ [Tick T dT]) s) = S (rescans s).
Proof.
  intros s. apply burst_rescans_once, wf_reachable.
Qed.

Lemma C8_burst_triggers_one_rescan_witness :
  let s := run [PageLoaded dominos_checkout] fresh in
  let signals := mkSignal 0 dominos_checkout element_added :: three_signals in
  rescans (run (burst signals) s) = rescans s
  /\ rescans (run (burst signals ++ [Tick 1900 dominos_checkout]) s) = S (rescans s).
Proof.
  apply (C8_burst_triggers_one_rescan [PageLoaded dominos_checkout]
           (mkSignal 0 dominos_checkout element_added) three_signals 1900
           dominos_checkout).
  - vm_compute. reflexivity.
  - vm_compute. reflexivity.
  - vm_compute. discriminate.
  - repeat constructor.
  - cbn. lia.
  - cbn. lia.
Defined.

(* ===================================================================== *)
(** * Further properties *)
(* ===================================================================== *)

(** ** The registry *)





Lemma existsb_unique (f : string -> bool) l :
  existsb f (unique l) = existsb f l.
Proof.
  induction l as [|x l IH]; [reflexivity|]. cbn [unique existsb].
  destruct (f x) eqn:Ex; [reflexivity|]. cbn [orb]. rewrite <- IH.
  generalize (unique l). intros u. induction u as [|y u IHu]; [reflexivity|].
  cbn [filter]. destruct (String.eqb x y) eqn:E; cbn [negb existsb].
  - apply String.eqb_eq in E. subst y. rewrite Ex. exact IHu.
  - rewrite IHu. reflexivity.
Qed.

Lemma unique_NoDup l : NoDup (unique l).
Proof.
  induction l as [|x l IH]; cbn [unique]; constructor.
  - intros Hin. apply filter_In in Hin. destruct Hin as [_ Hx].
    rewrite String.eqb_refl in Hx. discriminate Hx.
  - clear -IH. induction IH as [|y u Hy _ IHu]; cbn [filter]; [constructor|].
    destruct (negb _); [|exact IHu]. constructor; [|exact IHu].
    intros Hin. apply Hy. apply filter_In in Hin. apply Hin.
Qed.

(** X2.  [isSupportedDomain(hostname)] is true exactly when the hostname
    contains one of [getAllSupportedDomains()], a list without
    duplicates. *)
Theorem isSupportedDomain_getAllSupportedDomains (host : jsstring) :
  isSupportedDomain host = some_included host getAllSupportedDomains
  /\ NoDup getAllSupportedDomains.
Proof.
  split; [|apply unique_NoDup].
  unfold some_included, getAllSupportedDomains. rewrite existsb_unique.
  unfold isSupportedDomain, some_included.
  induction PLATFORM_LIST as [|p ps IH]; [reflexivity|].
  cbn [existsb flat_map]. rewrite existsb_app, IH. reflexivity.
Qed.

(** X3.  A platform is only ever detected on a supported domain:
    whenever [detectCurrentPlatform()] returns a platform,
    [isSupportedDomain(hostname)] is true and the platform is one of the
    registry. *)
Theorem detected_platform_is_supported (d : Document) (p : PlatformDetector) :
  detectCurrentPlatform d = Ok (Some p) ->
  In p PLATFORM_LIST /\ isSupportedDomain (hostname d) = true.
Proof.
  intros H.
  destruct (detect_in_spec d PLATFORM_LIST (registry_never_throws d))
    as [r [Hr Hspec]].
  unfold detectCurrentPlatform in H. rewrite Hr in H. injection H as ->.
  destruct Hspec as [before [after [Hlist [Hdet _]]]].
  assert (Hin : In p PLATFORM_LIST)
    by (rewrite Hlist; apply in_or_app; right; left; reflexivity).
  split; [exact Hin|].
  unfold isSupportedDomain. apply existsb_exists. exists p. split; [exact Hin|].
  assert (Hn : exists n, p = platform_of n).
  { destruct Hin as [<-|[<-|[<-|[]]]];
      [exists amazon | exists netflix | exists dominos]; reflexivity. }
  destruct Hn as [n ->]. rewrite isDetected_spec in Hdet.
  injection Hdet as Hdet. apply andb_true_iff in Hdet. apply Hdet.
Qed.

Lemma detected_platform_is_supported_witness :
  In DominosPlatform PLATFORM_LIST
  /\ isSupportedDomain (hostname dominos_cart) = true.
Proof.
  apply (detected_platform_is_supported dominos_cart DominosPlatform).
  reflexivity.
Defined.

(** ** Where the button goes *)

Lemma first_resolving_spec d chain :
  forallb valid_selector chain = true ->
  exists r, first_resolving d chain = Ok r /\
    match r with
    | Some sel => exists before after,
        chain = before ++ sel :: after
        /\ resolves d sel = true
        /\ Forall (fun q => resolves d q = false) before
    | None => Forall (fun q => resolves d q = false) chain
    end.
Proof.
  induction chain as [|sel rest IH]; cbn [first_resolving forallb]; intros H.
  - exists None. split; [reflexivity | constructor].
  - apply andb_true_iff in H. destruct H as [Hsel Hrest].
    rewrite (querySelector_valid _ _ Hsel). cbn [bind].
    destruct (isSome (hd_error (select d sel))) eqn:E.
    + exists (Some sel). split; [reflexivity|].
      exists [], rest. repeat split; [exact E | constructor].
    + destruct (IH Hrest) as [r [Hr Hspec]]. exists r. split; [exact Hr|].
      destruct r as [q|].
      * destruct Hspec as [before [after [Heq [Hq Hb]]]].
        exists (sel :: before), after. rewrite Heq.
        repeat split; [exact Hq | constructor; assumption].
      * constructor; assumption.
Qed.

(** X4.  [getButtonInjectionPoint()] never throws and returns the first
    element, in the order preferred selectors then fallback selectors, that
    any mount-point selector resolves to; it returns null exactly when none
    of them resolves. *)
Theorem getButtonInjectionPoint_first_mount_point (n : PlatformName) (d : Document) :
  exists r, getButtonInjectionPoint (platform_of n) d = Ok r /\
    match r with
    | Some sel => exists before after,
        mount_points n = before ++ sel :: after
        /\ resolves d sel = true
        /\ Forall (fun q => resolves d q = false) before
    | None => Forall (fun q => resolves d q = false) (mount_points n)
    end.
Proof.
  assert (G : forall preferred fallback,
             forallb valid_selector preferred = true ->
             forallb valid_selector fallback = true ->
             exists r, injection_point preferred fallback d = Ok r /\
               match r with
               | Some sel => exists before after,
                   preferred ++ fallback = before ++ sel :: after
                   /\ resolves d sel = true
                   /\ Forall (fun q => resolves d q = false) before
               | None => Forall (fun q => resolves d q = false) (preferred ++ fallback)
               end).
  { intros preferred fallback Hp Hf. unfold injection_point.
    destruct (first_resolving_spec d preferred Hp) as [r1 [H1 S1]]. rewrite H1.
    cbn [bind]. destruct r1 as [sel|].
    - exists (Some sel). split; [reflexivity|].
      destruct S1 as [before [after [Heq [Hs Hb]]]].
      exists before, (after ++ fallback). rewrite Heq, <- app_assoc.
      repeat split; assumption.
    - destruct (first_resolving_spec d fallback Hf) as [r2 [H2 S2]].
      exists r2. split; [exact H2|]. destruct r2 as [sel|].
      + destruct S2 as [before [after [Heq [Hs Hb]]]].
        exists (preferred ++ before), after. rewrite Heq, <- app_assoc.
        repeat split; [exact Hs | apply Forall_app; split; assumption].
      + apply Forall_app. split; assumption. }
  destruct n; apply G; reflexivity.
Qed.

(** ** Line items *)

Lemma trimmed_or_nonempty e fallback :
  fallback <> [] -> trimmed_or e fallback <> [].
Proof.
  intros H. unfold trimmed_or. destruct e as [el|]; [|exact H].
  destruct (trim (textContent el)); [exact H | discriminate].
Qed.

Lemma amazon_items_named els : forall index its,
  Amazon.items_of els index = Ok its ->
  Forall (fun it => item_name it <> [] /\ item_platform it = "amazon") its.
Proof.
  induction els as [|el els IH]; intros index its H; cbn [Amazon.items_of] in H.
  - injection H as <-. constructor.
  - destruct (elem_querySelector el _) as [t|e]; cbn [bind] in H; [|discriminate H].
    destruct (Amazon.items_of els (S index)) as [more|e] eqn:E; cbn [bind] in H;
      [|discriminate H].
    injection H as <-. constructor; [|apply (IH _ _ E)].
    split; [|reflexivity]. cbn [item_name]. apply trimmed_or_nonempty. discriminate.
Qed.

Lemma amazon_collected_named d sels : forall its,
  Amazon.collect_items d sels = Ok its ->
  Forall (fun it => item_name it <> [] /\ item_platform it = "amazon") its.
Proof.
  induction sels as [|sel rest IH]; intros its H; cbn [Amazon.collect_items] in H.
  - injection H as <-. constructor.
  - destruct (querySelectorAll d sel) as [els|e]; cbn [bind] in H; [|discriminate H].
    destruct (Amazon.items_of els 0) as [found|e] eqn:E; cbn [bind] in H;
      [|discriminate H].
    destruct found as [|it found]; [apply IH, H|].
    injection H as <-. apply (amazon_items_named _ _ _ E).
Qed.

Lemma dominos_items_named els : forall index its,
  Dominos.items_of els index = Ok its ->
  Forall (fun it => item_name it <> [] /\ item_platform it = "dominos") its.
Proof.
  induction els as [|el els IH]; intros index its H; cbn [Dominos.items_of] in H.
  - injection H as <-. constructor.
  - unfold Dominos.item_of in H.
    destruct (elem_querySelector el (join Dominos.selectors.cart_itemName)) as [t|e];
      cbn [bind] in H; [|discriminate H].
    destruct (elem_querySelector el (join Dominos.selectors.cart_itemPrice)) as [pe|e];
      cbn [bind] in H; [|discriminate H].
    destruct (Dominos.items_of els (S index)) as [more|e] eqn:E; cbn [bind] in H;
      [|discriminate H].
    injection H as <-. constructor; [|apply (IH _ _ E)].
    split; [|reflexivity]. cbn [item_name]. apply trimmed_or_nonempty. discriminate.
Qed.

Lemma Forall_firstn {A} (P : A -> Prop) n l : Forall P l -> Forall P (firstn n l).
Proof.
  revert l. induction n as [|n IH]; intros l H; [constructor|].
  destruct H; cbn [firstn]; constructor; auto.
Qed.

(** X5.  The line items of a snapshot: every platform returns at most its
    fixed number of them (Amazon 5, Netflix 1, Domino's 10), Netflix and
    Domino's at least one, and every item carries a name that is not empty
    (the trimmed title, or a placeholder when the title is missing or
    blank) and the platform's own name. *)
Theorem line_items_bounded_and_named
        (n : PlatformName) (d : Document) (its : list CheckoutItem) :
  extractLineItems n d = Ok its ->
  (List.length its <= item_limit n)%nat
  /\ (n <> amazon -> its <> [])
  /\ Forall (fun it => item_name it <> []
                       /\ item_platform it = pd_name (platform_of n)) its.
Proof.
  intros H.
  destruct (items_bounded_and_present d) as [Ha [Hn Hd]].
  destruct n; cbn [extractLineItems item_limit platform_of] in *.
  - split; [apply Ha, H|]. split; [intros C; contradiction|].
    unfold Amazon.extractItems in H.
    destruct (Amazon.collect_items d Amazon.itemSelectors) as [found|e] eqn:E;
      cbn [bind] in H; [|discriminate H].
    replace its with (firstn 5 found) by congruence.
    apply Forall_firstn, (amazon_collected_named _ _ _ E).
  - rewrite (Hn _ H). split; [lia|]. split.
    + intros _ C. specialize (Hn _ H). rewrite C in Hn. discriminate Hn.
    + unfold Netflix.extractSelectedPlan in H.
      destruct (findElement d Netflix.selectors.plans_selectedPlan) as [[plan|]|e];
        cbn [bind] in H; try discriminate H.
      * destruct (elem_querySelector plan _); cbn [bind] in H; [|discriminate H].
        injection H as <-. repeat constructor. cbn [item_name].
        apply trimmed_or_nonempty. discriminate.
      * injection H as <-. repeat constructor. discriminate.
  - specialize (Hd _ H). split; [lia|]. split.
    + intros _ C. rewrite C in Hd. cbn in Hd. lia.
    + unfold Dominos.extractOrderItems in H.
      destruct (querySelectorAll d _) as [els|e]; cbn [bind] in H; [|discriminate H].
      destruct (Dominos.items_of els 0) as [found|e] eqn:E; cbn [bind] in H;
        [|discriminate H].
      replace its with (firstn 10 match found with
                                  | [] => [Dominos.genericItem]
                                  | _ => found
                                  end) by congruence.
      apply Forall_firstn. destruct found as [|it found].
      * repeat constructor. discriminate.
      * apply (dominos_items_named _ _ _ E).
Qed.

Lemma line_items_bounded_and_named_witness :
  (List.length [mkItem (js "Kettle") "amazon" None None;
                mkItem (js "Item 2") "amazon" None None] <= item_limit amazon)%nat
  /\ (amazon <> amazon -> [mkItem (js "Kettle") "amazon" None None;
                           mkItem (js "Item 2") "amazon" None None] <> [])
  /\ Forall (fun it => item_name it <> []
                       /\ item_platform it = pd_name (platform_of amazon))
            [mkItem (js "Kettle") "amazon" None None;
             mkItem (js "Item 2") "amazon" None None].
Proof.
  exact (line_items_bounded_and_named amazon amazon_order
           [mkItem (js "Kettle") "amazon" None None;
            mkItem (js "Item 2") "amazon" None None] eq_refl).
Defined.

(** ** What the price parsers return *)

Lemma digits_value_nonneg s : forall acc,
  (0 <= acc)%Z -> (0 <= fst (fst (digits_value acc s)))%Z.
Proof.
  induction s as [|c s IH]; intros acc H; cbn [digits_value]; [exact H|].
  destruct (is_digit c); [|exact H].
  specialize (IH (acc * 10 + Z.of_N (c - 48))%Z).
  destruct (digits_value _ s) as [[v n] rest]. cbn [fst] in *. apply IH. lia.
Qed.

Lemma parseFloat_nonneg s q : parseFloat s = Some q -> (0 <= q)%Q.
Proof.
  unfold parseFloat. intros H.
  pose proof (digits_value_nonneg s 0 (Z.le_refl 0)) as Hi.
  destruct (digits_value 0 s) as [[ip ni] rest]. cbn [fst] in Hi.
  assert (Hq : forall v d, (0 <= v)%Z -> (0 <= Qmake v d)%Q).
  { intros v d Hv. unfold Qle. cbn. lia. }
  destruct rest as [|c rest'].
  - destruct ni; [discriminate H|]. injection H as <-. apply Hq, Hi.
  - destruct (c =? ch_dot).
    + pose proof (digits_value_nonneg rest' ip Hi) as Hf.
      destruct (digits_value ip rest') as [[fp nf] r2]. cbn [fst] in Hf.
      destruct ni, nf; try discriminate H; injection H as <-; apply Hq, Hf.
    + destruct ni; [discriminate H|]. injection H as <-. apply Hq, Hi.
Qed.

Lemma try_symbol_patterns_nonneg cls cur num clean ps p :
  (forall t q, num t = Some q -> (0 <= q)%Q) ->
  try_symbol_patterns cls cur num clean ps = Some p -> (0 <= amount p)%Q.
Proof.
  intros Hnum. induction ps as [|[ic r] ps IH]; cbn [try_symbol_patterns];
    [discriminate|].
  destruct (str_match ic r clean) as [m|]; [|exact IH].
  destruct (_ && _ && Regex.test false (Chr (CSet cls)) _).
  - destruct (num _) as [a|] eqn:E; [|exact IH].
    intros H. injection H as <-. apply (Hnum _ _ E).
  - destruct (_ && _ && Regex.test false iso_code _); [|exact IH].
    destruct (num _) as [a|] eqn:E; [|exact IH].
    intros H. injection H as <-. apply (Hnum _ _ E).
Qed.

(** X6.  A price the parsers return is never negative, on any text: the
    amount is read from digits only, so a minus sign before the amount is
    not part of it. *)
Theorem parsed_amount_nonnegative (n : PlatformName) (text : jsstring) (p : Price) :
  parser n text = Some p -> (0 <= amount p)%Q.
Proof.
  destruct n; cbn [parser].
  - unfold Amazon.parseAmazonPrice. destruct text as [|c text]; [discriminate|].
    generalize (cleanText (c :: text)). intros clean.
    induction Amazon.patterns as [|r ps IH]; cbn [Amazon.try_patterns];
      [discriminate|].
    destruct (str_match false r clean) as [m|]; [|exact IH].
    destruct (parseFloat _) as [a|] eqn:E; [|exact IH].
    intros H. injection H as <-. apply (parseFloat_nonneg _ _ E).
  - unfold Netflix.parseNetflixPrice. destruct text as [|c text]; [discriminate|].
    apply try_symbol_patterns_nonneg. apply parseFloat_nonneg.
  - unfold Dominos.parseDominosPrice. destruct text as [|c text]; [discriminate|].
    apply try_symbol_patterns_nonneg. intros t q. apply parseFloat_nonneg.
Qed.

Lemma parsed_amount_nonnegative_witness :
  (0 <= amount (mkPrice 12.99 USD))%Q.
Proof.
  exact (parsed_amount_nonnegative dominos (js "Refund: -$12.99")
           (mkPrice 12.99 USD) eq_refl).
Defined.

(** White-space normalisation keeps every character that is not white
    space. *)
Lemma existsb_rev {A} (f : A -> bool) l : existsb f (rev l) = existsb f l.
Proof.
  induction l as [|x l IH]; [reflexivity|].
  cbn [rev existsb]. rewrite existsb_app, IH. cbn. rewrite orb_false_r.
  apply orb_comm.
Qed.

Lemma existsb_trimStart (f : N -> bool) s :
  (forall c, is_space c = true -> f c = false) ->
  existsb f (trimStart s) = existsb f s.
Proof.
  intros Hf. induction s as [|c s IH]; [reflexivity|]. cbn [trimStart].
  destruct (is_space c) eqn:E; [|reflexivity].
  cbn [existsb]. rewrite (Hf c E). exact IH.
Qed.

Lemma existsb_collapse (f : N -> bool) s :
  (forall c, is_space c = true -> f c = false) ->
  forall b, existsb f (collapse_spaces b s) = existsb f s.
Proof.
  intros Hf. induction s as [|c s IH]; intros b; [reflexivity|].
  cbn [collapse_spaces]. destruct (is_space c) eqn:E.
  - cbn [existsb]. rewrite (Hf c E). destruct b; cbn [existsb];
      rewrite ?(Hf ch_space eq_refl); apply IH.
  - cbn [existsb]. rewrite IH. reflexivity.
Qed.

Lemma existsb_cleanText (f : N -> bool) s :
  (forall c, is_space c = true -> f c = false) ->
  existsb f (cleanText s) = existsb f s.
Proof.
  intros Hf. unfold cleanText, trim.
  rewrite existsb_rev, existsb_trimStart, existsb_rev, existsb_trimStart by exact Hf.
  apply existsb_collapse, Hf.
Qed.

Lemma js_includes_char s c : js_includes s [c] = existsb (N.eqb c) s.
Proof.
  induction s as [|x s IH]; [reflexivity|].
  cbn [js_includes js_prefix existsb]. rewrite IH. rewrite andb_true_r.
  reflexivity.
Qed.

Lemma not_space_eqb d : is_space d = false ->
  forall c, is_space c = true -> N.eqb d c = false.
Proof.
  intros Hd c Hc. destruct (N.eqb d c) eqn:E; [|reflexivity].
  apply N.eqb_eq in E. subst c. congruence.
Qed.

(** X7.  Amazon's parser takes the currency from the text as a whole, not
    from the pattern that matched: whenever it returns a price, the
    currency is GBP if a pound sign occurs anywhere in the text, else EUR
    if a euro sign does, else INR if a rupee sign does, else USD. *)
Theorem amazon_currency_from_whole_text (text : jsstring) (p : Price) :
  Amazon.parseAmazonPrice text = Some p ->
  currency p = amazon_currency text.
Proof.
  unfold Amazon.parseAmazonPrice. destruct text as [|c0 text0]; [discriminate|].
  set (text := c0 :: text0).
  assert (Hc : Amazon.currency_of (cleanText text) = amazon_currency text).
  { unfold Amazon.currency_of, amazon_currency.
    rewrite !js_includes_char.
    rewrite !existsb_cleanText by (apply not_space_eqb; reflexivity).
    destruct (existsb (N.eqb ch_pound) text); [reflexivity|].
    destruct (existsb (N.eqb ch_euro) text); [reflexivity|].
    destruct (existsb (N.eqb ch_rupee) text); [reflexivity|].
    destruct (js_includes _ _); reflexivity. }
  rewrite <- Hc. generalize (cleanText text). intros clean.
  induction Amazon.patterns as [|r ps IH]; cbn [Amazon.try_patterns];
    [discriminate|].
  destruct (str_match false r clean) as [m|]; [|exact IH].
  destruct (parseFloat _) as [a|]; [|exact IH].
  intros H. injection H as <-. reflexivity.
Qed.

Lemma amazon_currency_from_whole_text_witness :
  currency (mkPrice 5.00 GBP) = amazon_currency (js "$5.00 (was £4.00)").
Proof.
  exact (amazon_currency_from_whole_text (js "$5.00 (was £4.00)")
           (mkPrice 5.00 GBP) eq_refl).
Defined.
(** ** Domino's patterns that never decide *)

Lemma search_some ic r s m :
  search ic r s = Some m ->
  exists pre s',
    s = pre ++ s' /\ exec ic (Group 0 r) s' [] (fun _ cs => Some cs) = Some m.
Proof.
  induction s as [|c s IH]; cbn [search].
  - destruct (exec ic (Group 0 r) [] [] _) eqn:E; [|discriminate].
    intros H. injection H as <-. exists [], []. split; [reflexivity | exact E].
  - destruct (exec ic (Group 0 r) (c :: s) [] _) eqn:E.
    + intros H. injection H as <-. exists [], (c :: s). split; [reflexivity | exact E].
    + intros H. destruct (IH H) as [pre [s' [E1 E2]]].
      exists (c :: pre), s'. split; [rewrite E1; reflexivity | exact E2].
Qed.

Lemma search_none ic r s :
  search ic r s = None ->
  forall pre s',
    s = pre ++ s' -> exec ic (Group 0 r) s' [] (fun _ cs => Some cs) = None.
Proof.
  induction s as [|c s IH]; cbn [search]; intros H pre s' E.
  - destruct pre; [|discriminate E]. cbn in E. subst s'.
    destruct (exec ic (Group 0 r) [] [] _); [discriminate H | reflexivity].
  - destruct (exec ic (Group 0 r) (c :: s) [] _) eqn:E0; [discriminate H|].
    destruct pre as [|c' pre]; cbn in E.
    + subst s'. exact E0.
    + injection E as _ E. apply (IH H pre s' E).
Qed.

(** A pattern without groups hands the captures on as it got them. *)
Lemma exec_group_free ic r : group_free r = true ->
  forall s cs k res,
    exec ic r s cs k = Some res ->
    exists pre s', s = pre ++ s' /\ k s' cs = Some res.
Proof.
  induction r as [|cl|a IHa b IHb|a IHa b IHb|a IHa|i a IHa];
    cbn [group_free]; intros G s cs k res H; cbn [exec] in H.
  - exists [], s. split; [reflexivity | exact H].
  - destruct s as [|c s']; [discriminate H|].
    destruct (in_class ic cl c); [|discriminate H].
    exists [c], s'. split; [reflexivity | exact H].
  - apply andb_true_iff in G. destruct G as [Ga Gb].
    apply (IHa Ga) in H. destruct H as [pre1 [s1 [E1 H1]]].
    apply (IHb Gb) in H1. destruct H1 as [pre2 [s2 [E2 H2]]].
    exists (pre1 ++ pre2), s2. rewrite <- app_assoc, <- E2. split; assumption.
  - apply andb_true_iff in G. destruct G as [Ga Gb].
    destruct (exec ic a s cs k) as [res'|] eqn:E.
    + injection H as <-. apply (IHa Ga _ _ _ _ E).
    + apply (IHb Gb _ _ _ _ H).
  - remember (List.length s) as fuel eqn:Ef. clear Ef.
    revert s cs H. induction fuel as [|fuel IHf]; intros s cs H.
    + exists [], s. split; [reflexivity | exact H].
    + match type of H with
      | match ?m with Some _ => _ | None => _ end = _ => destruct m eqn:E
      end.
      * injection H as <-. apply (IHa G) in E. destruct E as [pre1 [s1 [E1 H1]]].
        destruct (List.length s1 <? List.length s)%nat; [|discriminate H1].
        apply IHf in H1. destruct H1 as [pre2 [s2 [E2 H2]]].
        exists (pre1 ++ pre2), s2. rewrite <- app_assoc, <- E2. split; assumption.
      * exists [], s. split; [reflexivity | exact H].
  - discriminate G.
Qed.

(** Optional and starred parts cannot make a match fail. *)
Lemma exec_Opt_total ic a s cs k :
  k s cs <> None -> exec ic (Opt a) s cs k <> None.
Proof.
  intros H. unfold Opt. cbn [exec].
  destruct (exec ic a s cs k); [discriminate | exact H].
Qed.

Lemma exec_Star_total ic a s cs k :
  k s cs <> None -> exec ic (Star a) s cs k <> None.
Proof.
  intros H. cbn [exec]. destruct (List.length s); [exact H|].
  match goal with
  | |- match ?m with Some _ => _ | None => _ end <> None => destruct m
  end; [discriminate | exact H].
Qed.

(** Under the [i] flag the symbol class holds the same characters: none of
    them is a letter. *)
Lemma symbol_ignoring_case c :
  in_class true (CSet Dominos.symbols) c = in_class false (CSet Dominos.symbols) c.
Proof.
  cbn [in_class Dominos.symbols existsb]. unfold canonicalize.
  change (is_lower ch_pound) with false. change (is_lower ch_dollar) with false.
  change (is_lower ch_euro) with false. cbn [andb N.leb].
  change ((1072 <=? ch_pound) && (ch_pound <=? 1103)) with false.
  change ((1072 <=? ch_dollar) && (ch_dollar <=? 1103)) with false.
  change ((1072 <=? ch_euro) && (ch_euro <=? 1103)) with false.
  cbv beta iota.
  unfold is_lower, ch_pound, ch_dollar, ch_euro.
  destruct ((97 <=? c) && (c <=? 122)) eqn:L;
    [|destruct ((1072 <=? c) && (c <=? 1103)) eqn:L2]; try reflexivity.
  - apply andb_true_iff in L. destruct L as [L1 L2].
    apply N.leb_le in L1, L2.
    repeat match goal with
    | |- context [?a =? ?b] =>
      let E := fresh in destruct (N.eqb_spec a b) as [E|E]; try lia
    end; reflexivity.
  - apply andb_true_iff in L2. destruct L2 as [L1 L2].
    apply N.leb_le in L1, L2.
    repeat match goal with
    | |- context [?a =? ?b] =>
      let E := fresh in destruct (N.eqb_spec a b) as [E|E]; try lia
    end; reflexivity.
Qed.

(** Where a currency symbol is followed by a digit the first pattern
    matches. *)
Lemma first_pattern_matches_pair s :
  symbol_then_digit s = true ->
  exec false (Group 0 (Seq (Group 1 Dominos.symbol) (Group 2 plain_amount)))
       s [] (fun _ cs => Some cs) <> None.
Proof.
  unfold symbol_then_digit. destruct s as [|c [|c2 s]]; try discriminate.
  intros H. apply andb_true_iff in H. destruct H as [Hc Hd].
  unfold plain_amount, Plus, Dominos.symbol, digit.
  remember (Star (Chr CDigit)) as st eqn:Est. remember cents as ce eqn:Ece.
  cbn [exec in_class]. rewrite Hc, Hd.
  subst st. apply exec_Star_total. subst ce. apply exec_Opt_total. discriminate.
Qed.

(** What the groups of the first pattern hold. *)
Lemma first_pattern_groups s m :
  exec false (Group 0 (Seq (Group 1 Dominos.symbol) (Group 2 plain_amount)))
       s [] (fun _ cs => Some cs) = Some m ->
  exists c c2 more,
    capture 1 m = Some [c] /\ capture 2 m = Some (c2 :: more)
    /\ existsb (N.eqb c) Dominos.symbols = true /\ is_digit c2 = true.
Proof.
  unfold plain_amount, Plus, Dominos.symbol, digit.
  remember (Star (Chr CDigit)) as st eqn:Est. remember cents as ce eqn:Ece.
  cbn [exec in_class]. destruct s as [|c [|c2 s]]; try discriminate.
  - destruct (existsb _ _); discriminate.
  - destruct (existsb (N.eqb c) Dominos.symbols) eqn:Hc; [|discriminate].
    destruct (is_digit c2) eqn:Hd; [|discriminate].
    intros H. subst st.
    apply (exec_group_free false (Star (Chr CDigit)) eq_refl) in H.
    destruct H as [pre1 [s1 [E1 H]]]. subst ce.
    apply (exec_group_free false cents eq_refl) in H.
    destruct H as [pre2 [s2 [E2 H]]]. injection H as <-.
    exists c, c2, (firstn (List.length s - List.length s2) s).
    cbn [capture Nat.eqb]. repeat split; try assumption.
    + match goal with
      | |- Some (firstn ?n _) = _ =>
        change n with (List.length (c :: c2 :: s) - List.length (c2 :: s))%nat
      end.
      cbn [List.length].
      replace (S (S (List.length s)) - S (List.length s))%nat with 1%nat by lia.
      reflexivity.
    + match goal with
      | |- Some (firstn ?n _) = _ =>
        change n with (List.length (c2 :: s) - List.length s2)%nat
      end.
      cbn [List.length]. rewrite Nat.sub_succ_l; [reflexivity|].
      subst s s1. rewrite !length_app. lia.
Qed.

Lemma parseFloat_leading_digit c s :
  is_digit c = true -> parseFloat (c :: s) <> None.
Proof.
  intros H. unfold parseFloat. cbn [digits_value]. rewrite H.
  destruct (digits_value _ s) as [[v n] rest].
  destruct rest as [|c' rest']; [discriminate|].
  destruct (c' =? ch_dot); [|discriminate].
  destruct (digits_value v rest') as [[fp nf] r]. discriminate.
Qed.

Lemma digit_is_no_comma c : is_digit c = true -> (c =? ch_comma) = false.
Proof.
  intros H. destruct (N.eqb_spec c ch_comma) as [E|E]; [|reflexivity].
  subst c. discriminate H.
Qed.

(** A pattern that needs a symbol followed by a digit finds no match in a
    text without such a pair. *)
Lemma labelled_pattern_needs_pair s res :
  exec true
       (Group 0 (Seq (Str (js "total"))
                     (Seq (Opt (Chr (COne ch_colon)))
                          (Seq spaces
                               (Seq (Group 1 Dominos.symbol)
                                    (Group 2 plain_amount))))))
       s [] (fun _ cs => Some cs) = Some res ->
  exists pre s', s = pre ++ s' /\ symbol_then_digit s' = true.
Proof.
  remember (Seq (Group 1 Dominos.symbol) (Group 2 plain_amount)) as tail eqn:Et.
  remember (Str (js "total")) as a eqn:Ea.
  remember (Opt (Chr (COne ch_colon))) as b eqn:Eb.
  remember spaces as c eqn:Ec.
  cbn [exec]. intros H.
  subst a. apply (exec_group_free true (Str (js "total")) eq_refl) in H.
  destruct H as [pre1 [s1 [E1 H]]].
  subst b. apply (exec_group_free true (Opt (Chr (COne ch_colon))) eq_refl) in H.
  destruct H as [pre2 [s2 [E2 H]]].
  subst c. apply (exec_group_free true spaces eq_refl) in H.
  destruct H as [pre3 [s3 [E3 H]]].
  exists (pre1 ++ pre2 ++ pre3), s3. split.
  { rewrite <- !app_assoc. congruence. }
  subst tail. unfold plain_amount, Plus, Dominos.symbol, digit in H.
  remember (Star (Chr CDigit)) as st eqn:Est. remember cents as ce eqn:Ece.
  cbn [exec] in H. unfold symbol_then_digit.
  destruct s3 as [|x [|x2 s4]]; try discriminate H.
  - destruct (in_class true _ x); discriminate H.
  - rewrite symbol_ignoring_case in H. cbn [in_class] in H.
    destruct (existsb (N.eqb x) Dominos.symbols); [|discriminate H].
    destruct (is_digit x2); [reflexivity | discriminate H].
Qed.

Lemma grouped_pattern_needs_pair s res :
  exec false
       (Group 0 (Seq (Group 1 Dominos.symbol)
                     (Group 2 (Seq (Range 1 3 digit)
                                   (Seq (Star (Seq (Chr (COne ch_comma))
                                                   (Times 3 digit)))
                                        cents)))))
       s [] (fun _ cs => Some cs) = Some res ->
  symbol_then_digit s = true.
Proof.
  unfold Range, Dominos.symbol, digit. cbn [Times].
  remember (UpTo (3 - 1) (Chr CDigit)) as up eqn:Eup.
  remember (Seq (Star _) cents) as tl eqn:Etl.
  cbn [exec in_class]. unfold symbol_then_digit.
  destruct s as [|x [|x2 s4]]; try discriminate.
  - destruct (existsb _ _); discriminate.
  - destruct (existsb (N.eqb x) Dominos.symbols); [|discriminate].
    destruct (is_digit x2); [reflexivity | discriminate].
Qed.

(** X8.  The third and fourth pattern of Domino's price parser (the one for
    a total with its label and the one for amounts with thousands
    separators) never decide a result: on every text the parser returns
    what it returns with the first two patterns alone.  They need a
    currency symbol followed by a digit, and wherever one occurs the first
    pattern has matched and returned. *)
Theorem dominos_later_patterns_never_decide (text : jsstring) :
  Dominos.parseDominosPrice text = parseDominosPrice_two_patterns text.
Proof.
  unfold Dominos.parseDominosPrice, parseDominosPrice_two_patterns.
  destruct text as [|c0 text0]; [reflexivity|].
  generalize (cleanText (c0 :: text0)). intros clean.
  unfold Dominos.patterns. cbn [firstn try_symbol_patterns].
  unfold str_match.
  destruct (search false (Seq (Group 1 Dominos.symbol) (Group 2 plain_amount)) clean)
    as [m|] eqn:E1.
  - destruct (search_some _ _ _ _ E1) as [pre [s' [_ Hm]]].
    destruct (first_pattern_groups _ _ Hm) as [c [c2 [more [G1 [G2 [Hc Hd]]]]]].
    rewrite G1, G2. cbn [truthy group_text andb].
    assert (T : Regex.test false (Chr (CSet Dominos.symbols)) [c] = true).
    { unfold Regex.test. cbn [search exec in_class]. rewrite Hc. reflexivity. }
    rewrite T. unfold remove_commas. cbn [filter].
    rewrite (digit_is_no_comma _ Hd). cbn [negb].
    destruct (parseFloat _) eqn:P; [reflexivity|].
    exfalso. exact (parseFloat_leading_digit _ _ Hd P).
  - assert (No : forall pre s', clean = pre ++ s' -> symbol_then_digit s' = false).
    { intros pre s' E. destruct (symbol_then_digit s') eqn:P; [|reflexivity].
      exfalso. apply (first_pattern_matches_pair _ P).
      apply (search_none _ _ _ E1 pre s' E). }
    assert (E3 : forall r,
               (forall s res, exec true (Group 0 r) s [] (fun _ cs => Some cs) = Some res ->
                              exists pre s', s = pre ++ s' /\ symbol_then_digit s' = true) ->
               search true r clean = None).
    { intros r Hr. destruct (search true r clean) eqn:E; [|reflexivity].
      destruct (search_some _ _ _ _ E) as [pre [s' [Es Hm]]].
      destruct (Hr _ _ Hm) as [pre2 [s2 [Es2 P]]].
      rewrite (No (pre ++ pre2) s2) in P; [discriminate P|].
      rewrite <- app_assoc. congruence. }
    assert (E4 : forall r,
               (forall s res, exec false (Group 0 r) s [] (fun _ cs => Some cs) = Some res ->
                              symbol_then_digit s = true) ->
               search false r clean = None).
    { intros r Hr. destruct (search false r clean) eqn:E; [|reflexivity].
      destruct (search_some _ _ _ _ E) as [pre [s' [Es Hm]]].
      pose proof (Hr _ _ Hm) as P. rewrite (No pre s' Es) in P. discriminate P. }
    rewrite (E3 _ labelled_pattern_needs_pair).
    rewrite (E4 _ grouped_pattern_needs_pair).
    reflexivity.
Qed.

(** ** Timers and notifications along every run *)

Lemma inv_frame s s' :
  timers s' = timers s -> next_timer s' = next_timer s -> clock s' = clock s ->
  detectionTimeout s' = detectionTimeout s -> notifications s' = notifications s ->
  timing_inv s -> timing_inv s'.
Proof. unfold timing_inv. intros -> -> -> -> ->. exact (fun H => H). Qed.

(** Handlers that leave timers and notifications alone. *)
Ltac framed H :=
  refine (inv_frame _ _ _ _ _ _ _ H);
  repeat match goal with
         | |- context [match ?x with _ => _ end] => destruct x
         end;
  reflexivity.

Lemma timer_ok_mono next next' now now' handle tm :
  (next <= next')%nat -> (now <= now')%Z ->
  timer_ok next now handle tm -> timer_ok next' now' handle tm.
Proof.
  unfold timer_ok. intros Hn Hc [Hid Hcb]. split; [lia|].
  destruct (callback tm); destruct Hcb as [Ha Hb];
    (split; [exact Ha | clear -Hc Hb; lia]).
Qed.

Lemma inv_set_clock c s :
  (clock s <= c)%Z -> timing_inv s -> timing_inv (set_clock c s).
Proof.
  intros Hc [Hnd [Hok [Hh Hs]]]. split; [exact Hnd|]. split; [|split; assumption].
  intros tm Hin. apply (timer_ok_mono (next_timer s) _ (clock s)); [apply le_n | exact Hc |].
  apply Hok, Hin.
Qed.

Lemma NoDup_ids_snoc ts id dd cb :
  NoDup (map timer_id ts) ->
  (forall tm, In tm ts -> (timer_id tm < id)%nat) ->
  NoDup (map timer_id (ts ++ [mkTimer id dd cb])).
Proof.
  intros Hnd Hlt. rewrite map_app. cbn [map timer_id].
  apply NoDup_app; [exact Hnd | repeat constructor; intros [] |].
  intros x Hx [E|[]]. subst x.
  apply in_map_iff in Hx. destruct Hx as [y [Ey Hy]].
  specialize (Hlt y Hy). lia.
Qed.

Lemma inv_showNotification ty m s :
  timing_inv s -> timing_inv (showNotification ty m s).
Proof.
  intros [Hnd [Hok [Hh Hs]]].
  unfold timing_inv, showNotification, setTimeout.
  cbn [snd timers next_timer clock detectionTimeout notifications
       set_next_timer set_timers set_notifications].
  split; [|split; [|split]].
  - apply NoDup_ids_snoc; [exact Hnd|]. intros tm Hin. apply (Hok tm Hin).
  - intros tm Hin. apply in_app_or in Hin. destruct Hin as [Hin|[<-|[]]].
    + apply (timer_ok_mono (next_timer s) _ (clock s)); [lia | lia | apply Hok, Hin].
    + split; cbn [timer_id callback due]; [lia | split; [reflexivity | lia]].
  - unfold handle_ok in *. destruct (detectionTimeout s) as [id|]; [|exact I].
    destruct Hh as [Hid Hr]. split; [lia|].
    intros tm Hin E. apply in_app_or in Hin. destruct Hin as [Hin|[<-|[]]].
    + apply Hr; assumption.
    + cbn [timer_id] in E. lia.
  - intros x Hin. apply in_app_or in Hin. destruct Hin as [Hin|[<-|[]]].
    + destruct (Hs x Hin) as [tm [Ht [Ei Ec]]].
      exists tm. split; [apply in_or_app; left; exact Ht | split; assumption].
    + eexists. split; [apply in_or_app; right; left; reflexivity|].
      split; reflexivity.
Qed.

Lemma observerCallback_timers recs s :
  shouldCheck recs = true ->
  timers (observerCallback recs s)
  = timers (clearTimeout (detectionTimeout s) s)
    ++ [mkTimer (next_timer s) (clock s + 1000) RetryDetection]
  /\ next_timer (observerCallback recs s) = S (next_timer s)
  /\ clock (observerCallback recs s) = clock s
  /\ detectionTimeout (observerCallback recs s) = Some (next_timer s)
  /\ notifications (observerCallback recs s) = notifications s.
Proof.
  intros H. unfold observerCallback. rewrite H.
  destruct (detectionTimeout s); repeat split; reflexivity.
Qed.

Lemma inv_observerCallback recs s :
  timing_inv s -> timing_inv (observerCallback recs s).
Proof.
  intros Hinv. destruct (shouldCheck recs) eqn:Hc;
    [|unfold observerCallback; rewrite Hc; exact Hinv].
  destruct Hinv as [Hnd [Hok [Hh Hs]]].
  destruct (observerCallback_timers recs s Hc) as [Et [En [Ec [Ed Eno]]]].
  unfold timing_inv. rewrite Et, En, Ec, Ed, Eno. clear Et En Ec Ed Eno.
  assert (Hsub : forall tm, In tm (timers (clearTimeout (detectionTimeout s) s)) ->
                            In tm (timers s)
                            /\ detectionTimeout s <> Some (timer_id tm)).
  { intros tm Hin. destruct (detectionTimeout s) as [id|]; [|split; [exact Hin | discriminate]].
    cbn in Hin. apply filter_In in Hin. destruct Hin as [Hin Hne].
    split; [exact Hin|]. intros E. injection E as E. rewrite E in Hne.
    rewrite Nat.eqb_refl in Hne. discriminate Hne. }
  split; [|split; [|split]].
  - apply NoDup_ids_snoc.
    + destruct (detectionTimeout s); [apply filter_NoDup_ids|]; exact Hnd.
    + intros tm Hin. apply Hsub in Hin. apply (Hok tm), Hin.
  - intros tm Hin. apply in_app_or in Hin. destruct Hin as [Hin|[<-|[]]].
    + apply Hsub in Hin. destruct Hin as [Hin Hne].
      destruct (Hok tm Hin) as [Hid Hcb]. split; [lia|].
      destruct (callback tm); [destruct Hcb; contradiction | exact Hcb].
    + split; cbn [timer_id callback due]; [lia | split; [reflexivity | lia]].
  - cbn [handle_ok]. split; [lia|].
    intros tm Hin E. apply in_app_or in Hin. destruct Hin as [Hin|[<-|[]]].
    + apply Hsub in Hin. destruct (Hok tm (proj1 Hin)) as [Hid _]. lia.
    + reflexivity.
  - intros x Hin. destruct (Hs x Hin) as [tm [Ht [Ei Ecb]]].
    exists tm. split; [|split; assumption].
    apply in_or_app. left.
    destruct (detectionTimeout s) as [id|] eqn:Eh; [|exact Ht].
    cbn. apply filter_In. split; [exact Ht|].
    apply negb_true_iff, Nat.eqb_neq. intros E.
    destruct Hh as [_ Hr]. rewrite (Hr tm Ht E) in Ecb. discriminate Ecb.
Qed.

Lemma detectAndSetupPlatform_notifications d s s' :
  detectAndSetupPlatform d s = Ok s' -> notifications s' = notifications s.
Proof.
  unfold detectAndSetupPlatform, setupPlatformIntegration, injectPayButton.
  intros E.
  destruct (detectCurrentPlatform d) as [[p|]|e]; cbn [bind] in E;
    try discriminate E; injection E as <-; [|reflexivity].
  cbn [currentPlatform set_currentPlatform].
  destruct (getCheckoutInfo p d _);
    cbn [currentPlatform payButton sendMessage set_sent set_currentPlatform];
    destruct (payButton s);
    try destruct (getButtonInjectionPoint p d) as [[point|]|e];
    reflexivity.
Qed.

Lemma inv_detectAndSetupPlatform d s s' :
  detectAndSetupPlatform d s = Ok s' -> timing_inv s -> timing_inv s'.
Proof.
  intros E. destruct (detectAndSetupPlatform_frame _ _ _ E) as [[Ht [Hn [_ [Hd Hc]]]] _].
  apply inv_frame; try assumption.
  apply (detectAndSetupPlatform_notifications _ _ _ E).
Qed.

Lemma inv_retryPlatformDetection d s :
  timing_inv s -> timing_inv (retryPlatformDetection d s).
Proof.
  intros H. unfold retryPlatformDetection.
  assert (H0 : timing_inv (set_rescans (S (rescans s)) s))
    by (revert H; apply inv_frame; reflexivity).
  destruct (_ && _); [exact H0|].
  destruct (detectAndSetupPlatform d _) as [s'|e] eqn:E; [|exact H0].
  apply (inv_detectAndSetupPlatform _ _ _ E H0).
Qed.

(** One timer comes due and its callback runs. *)
Lemma inv_fire_one d s tm :
  timing_inv s -> In tm (timers s) ->
  timing_inv
    (run_callback (callback tm) d
       (set_clock (Z.max (clock s) (due tm)) (clearTimeout (Some (timer_id tm)) s))).
Proof.
  intros [Hnd [Hok [Hh Hs]]] Hin.
  set (s2 := set_clock (Z.max (clock s) (due tm)) (clearTimeout (Some (timer_id tm)) s)).
  assert (Hkeep : forall y, In y (timers s) -> timer_id y <> timer_id tm ->
                            In y (timers s2)).
  { intros y Hy Hne. cbn. apply filter_In. split; [exact Hy|].
    apply negb_true_iff, Nat.eqb_neq. exact Hne. }
  assert (Hsub : forall y, In y (timers s2) -> In y (timers s)).
  { intros y Hy. cbn in Hy. apply filter_In in Hy. apply Hy. }
  assert (H3 : NoDup (map timer_id (timers s2))
               /\ (forall y, In y (timers s2) ->
                             timer_ok (next_timer s2) (clock s2) (detectionTimeout s2) y)
               /\ handle_ok (timers s2) (next_timer s2) (detectionTimeout s2)).
  { split; [apply filter_NoDup_ids, Hnd|]. split.
    - intros y Hy.
      apply (timer_ok_mono (next_timer s) _ (clock s)); [cbn; lia | cbn; lia |].
      apply Hok, Hsub, Hy.
    - change (handle_ok (timers s2) (next_timer s) (detectionTimeout s)).
      unfold handle_ok in *. destruct (detectionTimeout s) as [id|]; [|exact I].
      destruct Hh as [Hid Hr]. split; [exact Hid|].
      intros y Hy. apply Hr, Hsub, Hy. }
  assert (Hshown : forall x, In x (notifications s) ->
                             notification_id x <> timer_id tm ->
                             shown_ok (timers s2) x).
  { intros x Hx Hne. destruct (Hs x Hx) as [y [Hy [Ei Ec]]].
    exists y. split; [|split; assumption].
    apply Hkeep; [exact Hy | congruence]. }
  destruct (callback tm) as [|n] eqn:Ecb; cbn [run_callback].
  - apply inv_retryPlatformDetection.
    destruct H3 as [A [B C]]. split; [exact A|]. split; [exact B|]. split; [exact C|].
    intros x Hx. apply Hshown; [exact Hx|].
    intros E. destruct (Hs x Hx) as [y [Hy [Ei Ec]]].
    assert (y = tm) by (apply (same_id_same_timer (timers s)); try assumption; congruence).
    subst y. congruence.
  - destruct H3 as [A [B C]]. split; [exact A|]. split; [exact B|]. split; [exact C|].
    intros x Hx. cbn in Hx. apply filter_In in Hx. destruct Hx as [Hx Hne].
    apply negb_true_iff, Nat.eqb_neq in Hne.
    apply Hshown; [exact Hx|].
    destruct (Hok tm Hin) as [_ Hcb]. rewrite Ecb in Hcb. destruct Hcb as [Eid _].
    congruence.
Qed.

Lemma inv_fire fuel t d : forall s, timing_inv s -> timing_inv (fire fuel t d s).
Proof.
  induction fuel as [|fuel IH]; intros s H; cbn [fire]; [exact H|].
  destruct (next_due t (timers s)) as [tm|] eqn:E; [|exact H].
  apply IH. apply (inv_fire_one d s tm H). apply (next_due_some _ _ _ E).
Qed.

Lemma inv_step e s : timing_inv s -> timing_inv (step e s).
Proof.
  intros H. destruct e as [d|t d|recs|m d|n o|d|]; cbn [step].
  - unfold initialize. destruct (isInitialized s); [exact H|].
    destruct (negb _); [exact H|].
    destruct (detectAndSetupPlatform d s) as [s'|e] eqn:E; cbn [bind try_catch];
      [|exact H].
    generalize (inv_detectAndSetupPlatform _ _ _ E H). apply inv_frame; reflexivity.
  - unfold advance. apply inv_set_clock; [lia | apply inv_fire, H].
  - destruct (observer s); [|exact H]. apply inv_observerCallback, H.
  - destruct (isInitialized s); [|exact H].
    destruct m; cbn [onMessage fst]; try exact H.
    + unfold applyGiftCard. destruct (currentPlatform s); [|exact H].
      revert H. apply inv_frame; reflexivity.
    + apply inv_showNotification. unfold setPayButtonLoading.
      destruct (payButton s); [|exact H]. revert H. apply inv_frame; reflexivity.
    + apply inv_showNotification. unfold setPayButtonLoading.
      destruct (payButton s); [|exact H]. revert H. apply inv_frame; reflexivity.
  - unfold giftCardSettled, caughtApplying.
    destruct (find _ _); [|exact H].
    assert (H0 : timing_inv
                   (set_attempts
                      (filter (fun b => negb (attempt_id b =? n)%nat) (attempts s)) s))
      by (revert H; apply inv_frame; reflexivity).
    destruct o as [[|]|e].
    + destruct (currentPlatform _).
      * generalize (inv_showNotification NSuccess
                      (js ("Gift card applied to " ++ pd_displayName p ++ "!")%string)
                      _ H0).
        apply inv_frame; reflexivity.
      * apply inv_showNotification, H0.
    + destruct (currentPlatform _).
      * generalize (inv_showNotification NError
                      (js "Gift card application failed. Please try manually.")
                      _ H0).
        apply inv_frame; reflexivity.
      * apply inv_showNotification, inv_showNotification, H0.
    + apply inv_showNotification, H0.
  - destruct (isSome (payButton s)); [|exact H].
    unfold handlePayButtonClick. destruct (currentPlatform s) as [p|]; [|exact H].
    destruct (getCheckoutInfo p d (clock s)).
    + unfold setPayButtonLoading. destruct (payButton s);
        revert H; apply inv_frame; reflexivity.
    + apply inv_showNotification, H.
  - unfold cleanup. revert H. apply inv_frame;
      destruct (observer s); unfold set_observer; cbn;
      destruct (payButton s); reflexivity.
Qed.

Lemma inv_run es : forall s, timing_inv s -> timing_inv (run es s).
Proof.
  induction es as [|e es IH]; intros s H; [exact H|].
  apply IH, inv_step, H.
Qed.

Lemma inv_reachable es : timing_inv (run es fresh).
Proof.
  apply inv_run. split; [constructor|]. split; [intros tm []|].
  split; [exact I | intros x []].
Qed.

Lemma same_id_at_most_one ts id :
  NoDup (map timer_id ts) -> (forall tm, In tm ts -> timer_id tm = id) ->
  (List.length ts <= 1)%nat.
Proof.
  intros Hnd Hid. destruct ts as [|a [|b ts]]; cbn [List.length]; try lia.
  exfalso. cbn [map] in Hnd. inversion Hnd as [|? ? Ha _]; subst.
  apply Ha. left. rewrite (Hid a), (Hid b); [reflexivity | right; left | left];
    reflexivity.
Qed.

Lemma pending_retries_reachable (es : list Event) :
  (List.length (pending_retries (run es fresh)) <= 1)%nat
  /\ forall r, In r (pending_retries (run es fresh)) ->
               detectionTimeout (run es fresh) = Some (timer_id r)
               /\ (due r <= clock (run es fresh) + 1000)%Z.
Proof.
  destruct (inv_reachable es) as [Hnd [Hok _]].
  set (s := run es fresh) in *.
  assert (Hr : forall r, In r (pending_retries s) ->
                         detectionTimeout s = Some (timer_id r)
                         /\ (due r <= clock s + 1000)%Z).
  { intros r Hin. unfold pending_retries in Hin. apply filter_In in Hin.
    destruct Hin as [Hin Hcb]. destruct (Hok r Hin) as [_ H].
    destruct (callback r); [exact H | discriminate Hcb]. }
  split; [|exact Hr].
  destruct (detectionTimeout s) as [id|] eqn:Eh.
  - apply (same_id_at_most_one _ id).
    + apply filter_NoDup_ids, Hnd.
    + intros tm Hin. destruct (Hr tm Hin) as [E _]. congruence.
  - destruct (pending_retries s) as [|r rest]; [cbn; lia|].
    destruct (Hr r (or_introl eq_refl)) as [E _]. discriminate E.
Qed.

(** X9.  Debouncing keeps the detection timers in check: in every state
    the script can reach, at most one detection timer is pending; it is the
    one whose handle [detectionTimeout] holds, and it is due within the
    1000 ms of the debounce interval. *)
Theorem at_most_one_detection_timer (es : list Event) :
  (List.length (pending_retries (run es fresh)) <= 1)%nat
  /\ forall r, In r (pending_retries (run es fresh)) ->
               detectionTimeout (run es fresh) = Some (timer_id r)
               /\ (due r <= clock (run es fresh) + 1000)%Z.
Proof. exact (pending_retries_reachable es). Qed.

(** X10.  Every notification the script shows disappears: in every state
    the script can reach, each notification on the page has its removal
    pending, due no later than 5000 ms from now, and once that time has
    passed no notification is left, whatever page the callbacks see and
    also after [cleanup()]. *)
Theorem notifications_expire (es : list Event) (d : Document) (t : Z) :
  (clock (run es fresh) + 5000 <= t)%Z ->
  (forall x, In x (notifications (run es fresh)) ->
     exists due_at,
       In (mkTimer (notification_id x) due_at (RemoveNotification (notification_id x)))
          (timers (run es fresh))
       /\ (due_at <= clock (run es fresh) + 5000)%Z)
  /\ notifications (advance t d (run es fresh)) = [].
Proof.
  intros Ht. pose proof (inv_reachable es) as Hinv.
  pose proof (inv_step (Tick t d) _ Hinv) as Hinv'. cbn [step] in Hinv'.
  pose proof (wf_reachable es) as Hwf.
  set (s := run es fresh) in *.
  destruct Hinv as [Hnd [Hok [Hh Hs]]]. split.
  - intros x Hx. destruct (Hs x Hx) as [tm [Hin [Ei Ec]]].
    exists (due tm). destruct (Hok tm Hin) as [_ Hcb]. rewrite Ec in Hcb.
    split; [|apply Hcb].
    destruct tm as [i dd cb]. cbn [timer_id callback due] in *. subst i cb. exact Hin.
  - destruct (advance_spec t d s Hwf) as [Etm _].
    destruct Hinv' as [_ [_ [_ Hs']]].
    destruct (notifications (advance t d s)) as [|x rest]; [reflexivity|].
    exfalso. destruct (Hs' x (or_introl eq_refl)) as [tm [Hin [Ei Ec]]].
    rewrite Etm in Hin. apply filter_In in Hin. destruct Hin as [Hin Hnot].
    unfold not_due in Hnot. apply Z.ltb_lt in Hnot.
    destruct (Hok tm Hin) as [_ Hcb]. rewrite Ec in Hcb. lia.
Qed.

Lemma notifications_expire_witness :
  (forall x, In x (notifications (run [PageLoaded dominos_checkout;
                                       Message PAYMENT_COMPLETED dominos_checkout] fresh)) ->
     exists due_at,
       In (mkTimer (notification_id x) due_at (RemoveNotification (notification_id x)))
          (timers (run [PageLoaded dominos_checkout;
                        Message PAYMENT_COMPLETED dominos_checkout] fresh))
       /\ (due_at <= clock (run [PageLoaded dominos_checkout;
                                 Message PAYMENT_COMPLETED dominos_checkout] fresh)
                     + 5000)%Z)
  /\ notifications
       (advance 5000 dominos_checkout
          (run [PageLoaded dominos_checkout;
                Message PAYMENT_COMPLETED dominos_checkout] fresh)) = [].
Proof.
  apply (notifications_expire
           [PageLoaded dominos_checkout; Message PAYMENT_COMPLETED dominos_checkout]
           dominos_checkout 5000).
  vm_compute. discriminate.
Defined.

(** ** A page the script does not support *)

Lemma inactive_step e s :
  (forall d, e = PageLoaded d -> isSupportedDomain (hostname d) = false) ->
  inactive s -> inactive (step e s).
Proof.
  unfold inactive. intros Hd H. rewrite H.
  destruct e as [d|t d|recs|m d|n o|d|]; cbn [step].
  - unfold initialize. cbn [isInitialized set_clock fresh].
    rewrite (Hd d eq_refl). reflexivity.
  - reflexivity.
  - reflexivity.
  - reflexivity.
  - reflexivity.
  - reflexivity.
  - reflexivity.
Qed.

(** X11.  On a page whose hostname is not supported the script never
    becomes active: whatever happens afterwards (time passing, mutations,
    messages from the background script, clicks, unload), it keeps no
    platform, mounts no button, connects no observer, sets no timer, shows
    no notification and sends no message. *)
Theorem inert_on_unsupported_domain (es : list Event) :
  (forall d, In (PageLoaded d) es -> isSupportedDomain (hostname d) = false) ->
  inactive (run es fresh).
Proof.
  assert (G : forall s, inactive s ->
              (forall d, In (PageLoaded d) es -> isSupportedDomain (hostname d) = false) ->
              inactive (run es s)).
  { induction es as [|e es IH]; intros s Hs Hd; [exact Hs|].
    cbn [run fold_left]. apply IH.
    - apply inactive_step; [|exact Hs].
      intros d ->. apply Hd. left. reflexivity.
    - intros d Hin. apply Hd. right. exact Hin. }
  apply G. reflexivity.
Qed.

Lemma inert_on_unsupported_domain_witness :
  inactive (run [PageLoaded (mkDocument (js "example.org") (js "/checkout")
                                           (js "https://example.org/checkout")
                                           (only "#total-price" (js "$25.99")));
                 Mutations element_added;
                 Message (APPLY_GIFT_CARD card_A) dominos_checkout;
                 Tick 2000 dominos_checkout] fresh).
Proof.
  apply inert_on_unsupported_domain.
  intros d [E|[E|[E|[E|[]]]]]; try discriminate E.
  injection E as <-. vm_compute. reflexivity.
Defined.

(** ** Redemption attempts and their reports *)

Lemma detectAndSetupPlatform_rest d s s' :
  detectAndSetupPlatform d s = Ok s' ->
  isInitialized s' = isInitialized s
  /\ attempts s' = attempts s
  /\ started s' = started s.
Proof.
  unfold detectAndSetupPlatform, setupPlatformIntegration, injectPayButton.
  intros E.
  destruct (detectCurrentPlatform d) as [[p|]|e]; cbn [bind] in E;
    try discriminate E; injection E as <-; [|repeat split].
  cbn [currentPlatform set_currentPlatform].
  destruct (getCheckoutInfo p d _);
    cbn [currentPlatform payButton sendMessage set_sent set_currentPlatform];
    destruct (payButton s);
    try destruct (getButtonInjectionPoint p d) as [[point|]|e];
    repeat split.
Qed.

Lemma run_callback_rest cb d s :
  isInitialized (run_callback cb d s) = isInitialized s
  /\ attempts (run_callback cb d s) = attempts s
  /\ started (run_callback cb d s) = started s.
Proof.
  destruct cb; cbn [run_callback]; [|repeat split].
  unfold retryPlatformDetection.
  destruct (_ && _); [repeat split|].
  destruct (detectAndSetupPlatform d _) as [s'|e] eqn:E; [|repeat split].
  apply (detectAndSetupPlatform_rest _ _ _ E).
Qed.

Lemma fire_rest fuel t d : forall s,
  isInitialized (fire fuel t d s) = isInitialized s
  /\ attempts (fire fuel t d s) = attempts s
  /\ started (fire fuel t d s) = started s.
Proof.
  induction fuel as [|fuel IH]; intros s; cbn [fire]; [repeat split|].
  destruct (next_due t (timers s)) as [tm|]; [|repeat split].
  match goal with
  | |- context [fire fuel t d ?x] => destruct (IH x) as [A [B C]]
  end.
  rewrite A, B, C.
  match goal with
  | |- context [run_callback ?cb d ?x] =>
    destruct (run_callback_rest cb d x) as [A' [B' C']]
  end.
  rewrite A', B', C'. repeat split.
Qed.

Lemma attempts_frame s s' :
  attempts s' = attempts s -> started s' = started s ->
  attempts_ok s -> attempts_ok s'.
Proof. unfold attempts_ok. intros -> ->. exact (fun H => H). Qed.

Lemma attempts_ok_step e s : attempts_ok s -> attempts_ok (step e s).
Proof.
  intros H. destruct e as [d|t d|recs|m d|n o|d|]; cbn [step].
  - unfold initialize. destruct (isInitialized s); [exact H|].
    destruct (negb _); [exact H|].
    destruct (detectAndSetupPlatform d s) as [s'|e] eqn:E; cbn [bind try_catch];
      [|exact H].
    destruct (detectAndSetupPlatform_rest _ _ _ E) as [_ [A B]].
    revert H. apply attempts_frame; assumption.
  - destruct (fire_rest (List.length (timers s)) t d s) as [_ [A B]].
    revert H. apply attempts_frame; assumption.
  - destruct (observer s); [|exact H].
    unfold observerCallback. destruct (shouldCheck recs); [|exact H].
    destruct (detectionTimeout s); exact H.
  - destruct (isInitialized s); [|exact H].
    destruct m; cbn [onMessage fst]; try exact H.
    + unfold applyGiftCard. destruct (currentPlatform s) as [p|]; [|exact H].
      destruct H as [Hnd Hlt]. split; cbn [attempts started set_started set_attempts].
      * rewrite map_app. cbn [map attempt_id].
        apply NoDup_app; [exact Hnd | repeat constructor; intros [] |].
        intros x Hx [E|[]]. subst x. apply in_map_iff in Hx.
        destruct Hx as [a [Ea Ha]]. specialize (Hlt a Ha). lia.
      * intros a Ha. apply in_app_or in Ha. destruct Ha as [Ha|[<-|[]]].
        -- specialize (Hlt a Ha). lia.
        -- cbn [attempt_id]. lia.
    + revert H. apply attempts_frame; unfold setPayButtonLoading;
        destruct (payButton s); reflexivity.
    + revert H. apply attempts_frame; unfold setPayButtonLoading;
        destruct (payButton s); reflexivity.
  - unfold giftCardSettled, caughtApplying.
    destruct (find _ _); [|exact H].
    assert (H0 : attempts_ok
                   (set_attempts
                      (filter (fun b => negb (attempt_id b =? n)%nat) (attempts s)) s)).
    { destruct H as [Hnd Hlt]. split; cbn [attempts started set_attempts].
      - clear Hlt. induction (attempts s) as [|x0 l IH]; [constructor|].
        cbn [map] in Hnd. inversion Hnd as [|? ? Hx0 Hl]; subst.
        cbn [filter]. destruct (negb _); [|apply IH, Hl].
        cbn [map]. constructor; [|apply IH, Hl].
        intros Hin. apply Hx0. apply in_map_iff in Hin.
        destruct Hin as [y [Ey Hy]]. apply filter_In in Hy.
        rewrite <- Ey. apply in_map, Hy.
      - intros b Hb. apply filter_In in Hb. apply Hlt, Hb. }
    revert H0. apply attempts_frame;
      repeat match goal with
             | |- context [match ?x with _ => _ end] => destruct x
             end; reflexivity.
  - destruct (isSome (payButton s)); [|exact H].
    revert H. apply attempts_frame; unfold handlePayButtonClick, setPayButtonLoading;
      repeat match goal with
             | |- context [match ?x with _ => _ end] => destruct x
             end; reflexivity.
  - revert H. apply attempts_frame; unfold cleanup;
      destruct (observer s); unfold set_observer; cbn;
      destruct (payButton s); reflexivity.
Qed.

Lemma attempts_ok_reachable es : attempts_ok (run es fresh).
Proof.
  assert (G : forall s, attempts_ok s -> attempts_ok (run es s)).
  { induction es as [|e es IH]; intros s H; [exact H|].
    apply IH, attempts_ok_step, H. }
  apply G. split; [constructor | intros a []].
Qed.

Lemma find_unique_attempt l a :
  NoDup (map attempt_id l) -> In a l ->
  find (fun b => (attempt_id b =? attempt_id a)%nat) l = Some a.
Proof.
  induction l as [|x l IH]; intros Hnd Hin; [destruct Hin|].
  cbn [map] in Hnd. inversion Hnd as [|? ? Hx Hl]; subst. cbn [find].
  destruct (Nat.eqb_spec (attempt_id x) (attempt_id a)) as [E|E].
  - destruct Hin as [->|Hin]; [reflexivity|].
    exfalso. apply Hx. rewrite E. apply in_map, Hin.
  - destruct Hin as [->|Hin]; [contradiction|]. apply IH; assumption.
Qed.

(** X12.  A settled redemption is reported once and with its own data: in
    every state the script can reach with a platform set, when the promise
    of a pending attempt settles with a boolean, the script sends the
    background script exactly one message, GIFT_CARD_APPLIED_SUCCESS or
    GIFT_CARD_APPLIED_FAILED according to the outcome, naming the current
    platform and carrying the gift card of that attempt; it shows one
    notification, takes that attempt off the pending ones and leaves the
    others pending. *)
Theorem settled_attempt_reported_once
        (es : list Event) (a : Attempt) (p : PlatformDetector) (success : bool) :
  In a (attempts (run es fresh)) ->
  currentPlatform (run es fresh) = Some p ->
  sent (giftCardSettled (attempt_id a) (Ok success) (run es fresh))
  = sent (run es fresh) ++ [report success p (attempt_data a)]
  /\ List.length (notifications (giftCardSettled (attempt_id a) (Ok success) (run es fresh)))
     = S (List.length (notifications (run es fresh)))
  /\ ~ In a (attempts (giftCardSettled (attempt_id a) (Ok success) (run es fresh)))
  /\ forall b, b <> a ->
       (In b (attempts (giftCardSettled (attempt_id a) (Ok success) (run es fresh)))
        <-> In b (attempts (run es fresh))).
Proof.
  intros Hin Hp. destruct (attempts_ok_reachable es) as [Hnd _].
  set (s := run es fresh) in *.
  assert (Ea : attempts (giftCardSettled (attempt_id a) (Ok success) s)
               = filter (fun b => negb (attempt_id b =? attempt_id a)%nat) (attempts s)).
  { unfold giftCardSettled. rewrite (find_unique_attempt _ _ Hnd Hin).
    destruct success; cbn [currentPlatform set_attempts showNotification
                           setTimeout snd set_next_timer set_timers set_notifications];
      rewrite Hp; reflexivity. }
  split; [|split; [|split]].
  - unfold giftCardSettled. rewrite (find_unique_attempt _ _ Hnd Hin).
    destruct success; cbn [currentPlatform set_attempts showNotification
                           setTimeout snd set_next_timer set_timers set_notifications];
      rewrite Hp; reflexivity.
  - unfold giftCardSettled. rewrite (find_unique_attempt _ _ Hnd Hin).
    destruct success; cbn [currentPlatform set_attempts showNotification
                           setTimeout snd set_next_timer set_timers set_notifications];
      rewrite Hp; cbn [notifications sendMessage set_sent showNotification
                       setTimeout snd set_next_timer set_timers set_notifications
                       set_attempts];
      rewrite length_app; cbn [List.length]; lia.
  - rewrite Ea. intros H. apply filter_In in H. destruct H as [_ H].
    rewrite Nat.eqb_refl in H. discriminate H.
  - intros b Hb. rewrite Ea. split.
    + intros H. apply filter_In in H. apply H.
    + intros H. apply filter_In. split; [exact H|].
      apply negb_true_iff, Nat.eqb_neq. intros E. apply Hb.
      clear -Hnd Hin H E. induction (attempts s) as [|x l IH]; [destruct H|].
      cbn [map] in Hnd. inversion Hnd as [|? ? Hx Hl]; subst.
      destruct H as [->|H], Hin as [->|Hin]; try reflexivity.
      * exfalso. apply Hx. rewrite E. apply in_map, Hin.
      * exfalso. apply Hx. rewrite <- E. apply in_map, H.
      * apply IH; assumption.
Qed.

Lemma settled_attempt_reported_once_witness :
  sent (giftCardSettled 0 (Ok true) (run dominos_redeeming fresh))
  = sent (run dominos_redeeming fresh) ++ [report true DominosPlatform card_A].
Proof.
  assert (Ha : attempts (run dominos_redeeming fresh)
               = [mkAttempt 0 DominosPlatform card_A]) by reflexivity.
  refine (proj1 (settled_attempt_reported_once
                   dominos_redeeming (mkAttempt 0 DominosPlatform card_A)
                   DominosPlatform true _ _)).
  - rewrite Ha. left. reflexivity.
  - reflexivity.
Defined.

(** ** After [cleanup()] *)

Lemma retries_partition t ts :
  (List.length (filter (fun tm => is_retry (callback tm)) (filter (not_due t) ts))
   + List.length (filter (due_retry t) ts)
   = List.length (filter (fun tm => is_retry (callback tm)) ts))%nat.
Proof.
  induction ts as [|x ts IH]; [reflexivity|]. cbn [filter].
  unfold due_retry at 1.
  destruct (not_due t x); destruct (is_retry (callback x)) eqn:E;
    cbn [filter negb andb List.length]; rewrite ?E; cbn [List.length]; lia.
Qed.

Lemma retries_snoc_removal ts id dd n :
  filter (fun tm => is_retry (callback tm)) (ts ++ [mkTimer id dd (RemoveNotification n)])
  = filter (fun tm => is_retry (callback tm)) ts.
Proof. rewrite filter_app. cbn. apply app_nil_r. Qed.

Lemma wound_down_frame budget s s' :
  isInitialized s' = isInitialized s -> observer s' = observer s ->
  timers s' = timers s -> next_timer s' = next_timer s -> rescans s' = rescans s ->
  wound_down budget s -> wound_down budget s'.
Proof.
  unfold wound_down, wf_timers, pending_retries. intros -> -> -> -> ->.
  exact (fun H => H).
Qed.

Lemma wound_down_showNotification budget ty m s :
  wound_down budget s -> wound_down budget (showNotification ty m s).
Proof.
  intros [Hi [Ho [Hwf Hb]]]. split; [exact Hi|]. split; [exact Ho|].
  split; [apply wf_showNotification, Hwf|].
  unfold pending_retries, showNotification, setTimeout.
  cbn [snd timers rescans set_next_timer set_timers set_notifications].
  rewrite retries_snoc_removal. exact Hb.
Qed.

Lemma wound_down_step budget e s :
  wound_down budget s -> wound_down budget (step e s).
Proof.
  intros H. pose proof H as [Hi [Ho [Hwf Hb]]].
  destruct e as [d|t d|recs|m d|n o|d|]; cbn [step].
  - unfold initialize. rewrite Hi. exact H.
  - destruct (advance_spec t d s Hwf) as [Et [Er [En [Eo _]]]].
    destruct (fire_rest (List.length (timers s)) t d s) as [Ei _].
    split; [exact (eq_trans Ei Hi)|]. split; [rewrite Eo; exact Ho|].
    split; [apply (wf_step (Tick t d) s Hwf)|].
    unfold pending_retries in *. rewrite Et, Er.
    pose proof (retries_partition t (timers s)). lia.
  - rewrite Ho. exact H.
  - rewrite Hi. destruct m; cbn [onMessage fst]; try exact H.
    + unfold applyGiftCard. destruct (currentPlatform s); [|exact H].
      revert H. apply wound_down_frame; reflexivity.
    + apply wound_down_showNotification. unfold setPayButtonLoading.
      destruct (payButton s); [|exact H]. revert H. apply wound_down_frame; reflexivity.
    + apply wound_down_showNotification. unfold setPayButtonLoading.
      destruct (payButton s); [|exact H]. revert H. apply wound_down_frame; reflexivity.
  - unfold giftCardSettled, caughtApplying.
    destruct (find _ _); [|exact H].
    assert (H0 : wound_down budget
                   (set_attempts
                      (filter (fun b => negb (attempt_id b =? n)%nat) (attempts s)) s))
      by (revert H; apply wound_down_frame; reflexivity).
    destruct o as [[|]|e].
    + destruct (currentPlatform _).
      * generalize (wound_down_showNotification budget NSuccess
                      (js ("Gift card applied to " ++ pd_displayName p ++ "!")%string)
                      _ H0).
        apply wound_down_frame; reflexivity.
      * apply wound_down_showNotification, H0.
    + destruct (currentPlatform _).
      * generalize (wound_down_showNotification budget NError
                      (js "Gift card application failed. Please try manually.")
                      _ H0).
        apply wound_down_frame; reflexivity.
      * apply wound_down_showNotification, wound_down_showNotification, H0.
    + apply wound_down_showNotification, H0.
  - destruct (isSome (payButton s)); [|exact H].
    unfold handlePayButtonClick. destruct (currentPlatform s) as [p|]; [|exact H].
    destruct (getCheckoutInfo p d (clock s)).
    + unfold setPayButtonLoading. destruct (payButton s);
        revert H; apply wound_down_frame; reflexivity.
    + apply wound_down_showNotification, H.
  - unfold cleanup. rewrite Ho. revert H. apply wound_down_frame;
      destruct (payButton s); reflexivity.
Qed.

(** X13.  [cleanup()] is final for the observer, and bounds what the timer
    it leaves behind can do: once an initialized script has cleaned up,
    whatever happens afterwards the observer stays disconnected, mutations
    schedule no detection, and at most one further re-scan ever runs (the
    one of a detection timer that was pending at [cleanup()]). *)
Theorem after_cleanup_at_most_one_rescan (before after : list Event) :
  isInitialized (run before fresh) = true ->
  observer (run after (cleanup (run before fresh))) = false
  /\ (rescans (run after (cleanup (run before fresh)))
      <= rescans (run before fresh) + 1)%nat
  /\ forall recs,
       step (Mutations recs) (run after (cleanup (run before fresh)))
       = run after (cleanup (run before fresh)).
Proof.
  intros Hi. set (s := run before fresh) in *.
  assert (H0 : wound_down (rescans s + 1) (cleanup s)).
  { destruct (pending_retries_reachable before) as [Hone _]. fold s in Hone.
    pose proof (wf_reachable before) as Hwf. fold s in Hwf.
    assert (Ec : timers (cleanup s) = timers s /\ next_timer (cleanup s) = next_timer s
                 /\ rescans (cleanup s) = rescans s
                 /\ isInitialized (cleanup s) = isInitialized s
                 /\ observer (cleanup s) = false).
    { unfold cleanup. destruct (observer s) eqn:Eo; unfold set_observer; cbn;
        destruct (payButton s); cbn; repeat split; assumption. }
    destruct Ec as [Et [En [Er [Ei Eo]]]].
    split; [rewrite Ei; exact Hi|]. split; [exact Eo|].
    split; [revert Hwf; apply wf_frame; assumption|].
    unfold pending_retries in *. rewrite Et, Er. lia. }
  assert (G : forall s0, wound_down (rescans s + 1) s0 ->
                         wound_down (rescans s + 1) (run after s0)).
  { induction after as [|e es IH]; intros s0 H; [exact H|].
    cbn [run fold_left]. apply IH, wound_down_step, H. }
  destruct (G _ H0) as [_ [Ho [_ Hb]]].
  split; [exact Ho|]. split; [lia|].
  intros recs. cbn [step]. rewrite Ho. reflexivity.
Qed.

Lemma after_cleanup_at_most_one_rescan_witness :
  observer (run [Tick 1500 dominos_checkout; Mutations element_added]
                (cleanup (run [PageLoaded dominos_unchanged; Mutations element_added]
                              fresh))) = false
  /\ (rescans (run [Tick 1500 dominos_checkout; Mutations element_added]
                   (cleanup (run [PageLoaded dominos_unchanged; Mutations element_added]
                                 fresh)))
      <= rescans (run [PageLoaded dominos_unchanged; Mutations element_added] fresh) + 1)%nat
  /\ forall recs,
       step (Mutations recs)
            (run [Tick 1500 dominos_checkout; Mutations element_added]
                 (cleanup (run [PageLoaded dominos_unchanged; Mutations element_added]
                               fresh)))
       = run [Tick 1500 dominos_checkout; Mutations element_added]
             (cleanup (run [PageLoaded dominos_unchanged; Mutations element_added]
                           fresh)).
Proof.
  exact (after_cleanup_at_most_one_rescan
           [PageLoaded dominos_unchanged; Mutations element_added]
           [Tick 1500 dominos_checkout; Mutations element_added] eq_refl).
Defined.

(** ** Redeeming a gift card *)

Lemma waited_app l1 l2 : (waited (l1 ++ l2) == waited l1 + waited l2)%Q.
Proof.
  induction l1 as [|a l1 IH]; cbn [app waited]; [lra|].
  destruct a; try exact IH. rewrite IH. lra.
Qed.

(** *** What a task adds to the log *)

(** Whatever the outcome, the task has only added actions that pass
    [ok]. *)
Definition adds {A : Type} (ok : Action -> bool) (t : Task A) : Prop :=
  forall w, exists added,
    log (world_of (t w)) = log w ++ added /\ forallb ok added = true.

(** [ok] passes everything but key presses and notifications, on which it
    is free. *)
Definition plain (ok : Action -> bool) : Prop :=
  forall a, is_key a = false -> is_notification a = false -> ok a = true.

Lemma adds_ret {A} ok (a : A) : adds ok (ret a).
Proof. intros w. exists []. split; [symmetry; apply app_nil_r | reflexivity]. Qed.

Lemma adds_look {A} ok (f : Document -> Exc A) : adds ok (look f).
Proof.
  intros w. exists []. unfold look.
  destruct (f (document w)); (split; [symmetry; apply app_nil_r | reflexivity]).
Qed.

Lemma adds_act ok a : ok a = true -> adds ok (act a).
Proof. intros H w. exists [a]. split; [reflexivity | cbn; rewrite H; reflexivity]. Qed.

Lemma adds_set_value ok input v : plain ok -> adds ok (set_value input v).
Proof.
  intros H w. exists [SetValue input v]. split; [reflexivity|].
  cbn. rewrite H; reflexivity.
Qed.

Lemma adds_get_value ok : adds ok get_value.
Proof. intros w. exists []. split; [symmetry; apply app_nil_r | reflexivity]. Qed.

Lemma adds_random ok : adds ok random.
Proof. intros w. exists []. split; [symmetry; apply app_nil_r | reflexivity]. Qed.

Lemma adds_wait ok ms : plain ok -> adds ok (wait ms).
Proof.
  intros H w. exists [Wait ms]. unfold wait.
  destruct (reactions w); (split; [reflexivity | cbn; rewrite H; reflexivity]).
Qed.

Lemma adds_and_then {A B} ok (m : Task A) (f : A -> Task B) :
  adds ok m -> (forall a, adds ok (f a)) -> adds ok (and_then m f).
Proof.
  intros Hm Hf w. destruct (Hm w) as [l1 [E1 O1]]. unfold and_then.
  destruct (m w) as [a w1|e w1|w1]; cbn [world_of] in E1.
  - destruct (Hf a w1) as [l2 [E2 O2]]. exists (l1 ++ l2).
    rewrite E2, E1, app_assoc, forallb_app, O1, O2. split; reflexivity.
  - exists l1. split; assumption.
  - exists l1. split; assumption.
Qed.

(** What follows a read of the page need only be considered for the
    values the read can return. *)
Lemma adds_after_look {A B} ok (f : Document -> Exc A) (g : A -> Task B) :
  (forall a, (exists d, f d = Ok a) -> adds ok (g a)) ->
  adds ok (and_then (look f) g).
Proof.
  intros H w. unfold and_then, look.
  destruct (f (document w)) as [a|e] eqn:E.
  - apply H. exists (document w). exact E.
  - exists []. split; [symmetry; apply app_nil_r | reflexivity].
Qed.

Lemma adds_catch_false ok t : adds ok t -> adds ok (catch_false t).
Proof.
  intros H w. destruct (H w) as [l [E O]]. exists l. unfold catch_false.
  destruct (t w); split; assumption.
Qed.

Lemma adds_dispatch_all ok types el : plain ok -> adds ok (dispatch_all types el).
Proof.
  intros H. induction types as [|ty more IH]; cbn [dispatch_all]; [apply adds_ret|].
  apply adds_and_then; [apply adds_act, H; reflexivity | intros _; exact IH].
Qed.

Lemma adds_type_chars ok events base span input chars :
  plain ok -> adds ok (type_chars events base span input chars).
Proof.
  intros H. induction chars as [|c rest IH]; cbn [type_chars]; [apply adds_ret|].
  apply adds_and_then; [apply adds_get_value | intros v].
  apply adds_and_then; [apply adds_set_value, H | intros _].
  apply adds_and_then; [apply adds_dispatch_all, H | intros _].
  apply adds_and_then; [apply adds_random | intros r].
  apply adds_and_then; [apply adds_wait, H | intros _]. exact IH.
Qed.

Lemma adds_dominos_expand ok links : plain ok -> adds ok (dominos_expand links).
Proof.
  intros H. induction links as [|l rest IH]; cbn [dominos_expand]; [apply adds_ret|].
  apply adds_and_then; [apply adds_act, H; reflexivity | intros _].
  apply adds_and_then; [apply adds_wait, H | intros _].
  apply adds_and_then; [apply adds_look | intros [s|]]; [apply adds_ret | exact IH].
Qed.

Lemma adds_enter_code ok typeText chain section g next :
  plain ok -> (forall input text, adds ok (typeText input text)) ->
  (forall input, adds ok (next input)) ->
  adds ok (enter_code typeText chain section g next).
Proof.
  intros H Ht Hn. unfold enter_code.
  apply adds_and_then; [apply adds_act, H; reflexivity | intros _].
  apply adds_and_then; [apply adds_wait, H | intros _].
  apply adds_and_then; [apply adds_look | intros [input|]]; [|apply adds_ret].
  apply adds_and_then; [apply adds_act, H; reflexivity | intros _].
  apply adds_and_then; [apply adds_set_value, H | intros _].
  apply adds_and_then; [apply adds_wait, H | intros _].
  apply adds_and_then; [apply Ht | intros _]. apply Hn.
Qed.

(** Domino's lookup of the apply button returns an element or throws. *)
Lemma dominos_applyButton_found_or_throws d :
  findElement d Dominos.selectors.checkout_applyButton <> Ok None.
Proof.
  unfold Dominos.selectors.checkout_applyButton. cbn [findElement].
  repeat match goal with
  | |- context [querySelector d ?q] =>
    first [ rewrite (querySelector_invalid d q) by reflexivity
          | rewrite (querySelector_valid d q) by reflexivity;
            cbn [bind]; destruct (hd_error (select d q)) ]
  end; cbn [bind]; discriminate.
Qed.

(** X14.  Domino's [applyGiftCard] never presses Enter.  The fallback for a
    missing apply button is unreachable: the lookup of the button returns
    an element or throws on its fourth selector, which is not valid CSS, so
    when none of the first three selectors resolves the method has typed
    the code and returns false without submitting it. *)
Theorem dominos_never_presses_enter (g : GiftCardData) (w : World) :
  exists added,
    log (world_of (dominos_applyGiftCard g w)) = log w ++ added
    /\ forallb (fun a => negb (is_key a)) added = true.
Proof.
  set (ok := fun a => negb (is_key a)).
  assert (Hp : plain ok) by (intros a Hk _; unfold ok; rewrite Hk; reflexivity).
  revert w. change (adds ok (dominos_applyGiftCard g)).
  unfold dominos_applyGiftCard. apply adds_catch_false.
  apply adds_and_then; [apply adds_look | intros found].
  apply adds_and_then.
  { destruct found; [apply adds_ret|].
    apply adds_and_then; [apply adds_look | intros links].
    apply adds_dominos_expand, Hp. }
  intros [section|]; [|apply adds_ret].
  apply adds_enter_code; [exact Hp | intros; apply adds_type_chars, Hp |].
  intros input. apply adds_after_look. intros [button|] [d Hd].
  - apply adds_and_then; [apply adds_act; reflexivity | intros _].
    apply adds_and_then; [apply adds_wait, Hp | intros _].
    apply adds_and_then; [apply adds_look | intros [|]]; [|apply adds_ret].
    apply adds_and_then; [apply adds_act; reflexivity | intros _]. apply adds_ret.
  - exfalso. exact (dominos_applyButton_found_or_throws d Hd).
Qed.

(** *** True only with the notification, false only without *)

Definition no_notification (a : Action) : bool := negb (is_notification a).

Lemma plain_no_notification : plain no_notification.
Proof. intros a _ H. unfold no_notification. rewrite H. reflexivity. Qed.

Lemma none_notified l :
  forallb no_notification l = true -> existsb is_notification l = false.
Proof.
  induction l as [|a l IH]; [reflexivity|]. cbn [forallb existsb].
  unfold no_notification at 1. intros H. apply andb_true_iff in H.
  destruct H as [Ha Hl]. apply negb_true_iff in Ha. rewrite Ha. apply IH, Hl.
Qed.

(** The task returns true only having shown the notification, and returns
    false or throws only without. *)
Definition honest (t : Task bool) : Prop :=
  forall w, exists added,
    log (world_of (t w)) = log w ++ added
    /\ match t w with
       | Returned true _ => existsb is_notification added = true
       | Returned false _ | Thrown _ _ => existsb is_notification added = false
       | Suspended _ => True
       end.

Lemma honest_ret_false : honest (ret false).
Proof. intros w. exists []. split; [symmetry; apply app_nil_r | reflexivity]. Qed.

Lemma honest_and_then {A} (m : Task A) (f : A -> Task bool) :
  adds no_notification m -> (forall a, honest (f a)) -> honest (and_then m f).
Proof.
  intros Hm Hf w. destruct (Hm w) as [l1 [E1 O1]]. apply none_notified in O1.
  unfold and_then. destruct (m w) as [a w1|e w1|w1]; cbn [world_of] in E1.
  - destruct (Hf a w1) as [l2 [E2 O2]]. exists (l1 ++ l2).
    rewrite E2, E1, app_assoc, existsb_app, O1. split; [reflexivity | exact O2].
  - exists l1. split; assumption.
  - exists l1. split; [assumption | exact I].
Qed.

Lemma honest_enter_code typeText chain section g next :
  (forall input text, adds no_notification (typeText input text)) ->
  (forall input, honest (next input)) ->
  honest (enter_code typeText chain section g next).
Proof.
  intros Ht Hn. unfold enter_code. pose proof plain_no_notification as H.
  apply honest_and_then; [apply adds_act; reflexivity | intros _].
  apply honest_and_then; [apply adds_wait, H | intros _].
  apply honest_and_then; [apply adds_look | intros [input|]]; [|apply honest_ret_false].
  apply honest_and_then; [apply adds_act; reflexivity | intros _].
  apply honest_and_then; [apply adds_set_value, H | intros _].
  apply honest_and_then; [apply adds_wait, H | intros _].
  apply honest_and_then; [apply Ht | intros _]. apply Hn.
Qed.

Lemma honest_notify_and_return message :
  honest (_ <-- showSuccessNotification message ;; ret true).
Proof.
  intros w. exists [ShowSuccessNotification (js message)]. split; reflexivity.
Qed.

Lemma honest_netflix_tail message :
  honest (_ <-- showSuccessNotification message ;;
          _ <-- netflix_continueSignupFlow ;;
          ret true).
Proof.
  intros w.
  cbv [and_then showSuccessNotification act netflix_continueSignupFlow look ret wait].
  cbn [document log reactions input_value entropy drawn].
  destruct (findElement_valid (document w) Netflix.selectors.signup_continueButton eq_refl)
    as [r [Hr _]].
  rewrite Hr. destruct r as [button|];
    cbn [document log reactions input_value entropy drawn world_of].
  - destruct (reactions w) as [|r rest];
      cbn [document log reactions input_value entropy drawn world_of].
    + eexists. rewrite <- app_assoc. split; [reflexivity | exact I].
    + eexists. rewrite <- !app_assoc. split; [reflexivity | reflexivity].
  - eexists. split; reflexivity.
Qed.

Lemma honest_applyGiftCard n g : honest (applyGiftCard_of n g).
Proof.
  pose proof plain_no_notification as H.
  assert (Hc : forall t, honest t -> honest (catch_false t)).
  { intros t Ht w. destruct (Ht w) as [l [E O]]. exists l. unfold catch_false.
    destruct (t w) as [[|] w1|e w1|w1]; split; assumption. }
  destruct n; cbn [applyGiftCard_of].
  - unfold amazon_applyGiftCard. apply Hc.
    apply honest_and_then; [apply adds_look | intros [section|]];
      [|apply honest_ret_false].
    apply honest_enter_code; [intros; apply adds_type_chars, H | intros _].
    apply honest_and_then; [apply adds_look | intros [button|]];
      [|apply honest_ret_false].
    apply honest_and_then; [apply adds_act; reflexivity | intros _].
    apply honest_and_then; [apply adds_wait, H | intros _].
    apply honest_and_then; [apply adds_look | intros [|]];
      [apply honest_notify_and_return | apply honest_ret_false].
  - unfold netflix_applyGiftCard. apply Hc.
    apply honest_and_then; [apply adds_look | intros path].
    apply honest_and_then.
    { destruct (negb _); [|apply adds_ret].
      unfold netflix_navigateToGiftCardRedemption.
      apply adds_and_then; [apply adds_look | intros host].
      apply adds_and_then; [apply adds_look | intros [link|]];
        (apply adds_and_then; [apply adds_act; reflexivity | intros _]);
        apply adds_wait, H. }
    intros _.
    apply honest_and_then; [apply adds_look | intros [section|]];
      [|apply honest_ret_false].
    apply honest_enter_code; [intros; apply adds_type_chars, H | intros _].
    apply honest_and_then; [apply adds_look | intros [button|]];
      [|apply honest_ret_false].
    apply honest_and_then; [apply adds_act; reflexivity | intros _].
    apply honest_and_then; [apply adds_wait, H | intros _].
    apply honest_and_then; [apply adds_look | intros [|]];
      [apply honest_netflix_tail | apply honest_ret_false].
  - unfold dominos_applyGiftCard. apply Hc.
    apply honest_and_then; [apply adds_look | intros found].
    apply honest_and_then.
    { destruct found; [apply adds_ret|].
      apply adds_and_then; [apply adds_look | intros links].
      apply adds_dominos_expand, H. }
    intros [section|]; [|apply honest_ret_false].
    apply honest_enter_code; [intros; apply adds_type_chars, H | intros input].
    apply honest_and_then; [apply adds_look | intros applyButton].
    apply honest_and_then; [destruct applyButton; apply adds_act; reflexivity | intros _].
    apply honest_and_then; [apply adds_wait, H | intros _].
    apply honest_and_then; [apply adds_look | intros [|]];
      [apply honest_notify_and_return | apply honest_ret_false].
Qed.

(** X15.  [applyGiftCard] of every platform class never rejects: its
    promise resolves with a boolean, or stays pending when the page goes
    away while the method waits.  It resolves with true only after it has
    shown its success notification, and with false only without having
    shown one. *)
Theorem applyGiftCard_true_iff_notified (n : PlatformName) (g : GiftCardData) (w : World) :
  exists added,
    log (world_of (applyGiftCard_of n g w)) = log w ++ added
    /\ match applyGiftCard_of n g w with
       | Returned success _ => existsb is_notification added = success
       | Thrown _ _ => False
       | Suspended _ => True
       end.
Proof.
  destruct (honest_applyGiftCard n g w) as [added [E O]]. exists added.
  split; [exact E|].
  assert (Hn : forall e w', applyGiftCard_of n g w <> Thrown e w').
  { intros e w'. destruct n; cbn [applyGiftCard_of];
      unfold amazon_applyGiftCard, netflix_applyGiftCard, dominos_applyGiftCard,
        catch_false;
      match goal with |- match ?x with _ => _ end <> _ => destruct x end;
      discriminate. }
  destruct (applyGiftCard_of n g w) as [[|] w1|e w1|w1]; try assumption.
  exact (Hn e w1 eq_refl).
Qed.

(** *** How long a successful redemption takes *)

(** When the task returns, it has asked to wait [lo] ms at least. *)
Definition passes {A : Type} (lo : Q) (m : Task A) : Prop :=
  forall w a w', unit_interval (entropy w) -> m w = Returned a w' ->
    entropy w' = entropy w
    /\ exists added, log w' = log w ++ added /\ (lo <= waited added)%Q.

Definition takes (lo : Q) (t : Task bool) : Prop :=
  forall w w', unit_interval (entropy w) -> t w = Returned true w' ->
    exists added, log w' = log w ++ added /\ (lo <= waited added)%Q.

Ltac returned H := injection H; clear H; intros; subst.

Lemma passes_ret {A} (a : A) : passes 0 (ret a).
Proof.
  intros w a' w' _ H. returned H. split; [reflexivity|].
  exists []. split; [symmetry; apply app_nil_r | cbn; lra].
Qed.

Lemma passes_look {A} (f : Document -> Exc A) : passes 0 (look f).
Proof.
  intros w a w' _ H. unfold look in H. destruct (f (document w)); [|discriminate H].
  returned H. split; [reflexivity|].
  exists []. split; [symmetry; apply app_nil_r | cbn; lra].
Qed.

Lemma passes_act a : (0 <= waited [a])%Q -> passes 0 (act a).
Proof.
  intros Ha w u w' _ H. returned H. split; [reflexivity|].
  exists [a]. split; [reflexivity | exact Ha].
Qed.

Ltac acted := apply passes_act; cbn [waited]; lra.

Lemma passes_wait ms : passes ms (wait ms).
Proof.
  intros w u w' _ H. unfold wait in H. destruct (reactions w); [discriminate H|].
  returned H. split; [reflexivity|].
  exists [Wait ms]. split; [reflexivity | cbn; lra].
Qed.

Lemma passes_get_value : passes 0 get_value.
Proof.
  intros w a w' _ H. returned H. split; [reflexivity|].
  exists []. split; [symmetry; apply app_nil_r | cbn; lra].
Qed.

Lemma passes_set_value input v : passes 0 (set_value input v).
Proof.
  intros w u w' _ H. returned H. split; [reflexivity|].
  exists [SetValue input v]. split; [reflexivity | cbn; lra].
Qed.

Lemma passes_and_then {A B} l1 l2 lo (m : Task A) (f : A -> Task B) :
  passes l1 m -> (forall a, passes l2 (f a)) -> (lo <= l1 + l2)%Q ->
  passes lo (and_then m f).
Proof.
  intros Hm Hf Hlo w b w' Hu H. unfold and_then in H.
  destruct (m w) as [a w1|e w1|w1] eqn:E; try discriminate H.
  destruct (Hm w a w1 Hu E) as [He [a1 [E1 L1]]].
  assert (Hu1 : unit_interval (entropy w1)) by (rewrite He; exact Hu).
  destruct (Hf a w1 b w' Hu1 H) as [He2 [a2 [E2 L2]]].
  split; [congruence|]. exists (a1 ++ a2).
  split; [rewrite E2, E1, app_assoc; reflexivity|].
  rewrite waited_app. lra.
Qed.

Lemma takes_and_then {A} l1 l2 lo (m : Task A) (f : A -> Task bool) :
  passes l1 m -> (forall a, takes l2 (f a)) -> (lo <= l1 + l2)%Q ->
  takes lo (and_then m f).
Proof.
  intros Hm Hf Hlo w w' Hu H. unfold and_then in H.
  destruct (m w) as [a w1|e w1|w1] eqn:E; try discriminate H.
  destruct (Hm w a w1 Hu E) as [He [a1 [E1 L1]]].
  assert (Hu1 : unit_interval (entropy w1)) by (rewrite He; exact Hu).
  destruct (Hf a w1 w' Hu1 H) as [a2 [E2 L2]].
  exists (a1 ++ a2).
  split; [rewrite E2, E1, app_assoc; reflexivity|].
  rewrite waited_app. lra.
Qed.

Lemma takes_ret_false lo : takes lo (ret false).
Proof. intros w w' _ H. discriminate H. Qed.

Lemma takes_ret_true : takes 0 (ret true).
Proof.
  intros w w' _ H. returned H.
  exists []. split; [symmetry; apply app_nil_r | cbn; lra].
Qed.

Lemma takes_catch_false lo t : takes lo t -> takes lo (catch_false t).
Proof.
  intros Ht w w' Hu H. apply (Ht w w' Hu). unfold catch_false in H.
  destruct (t w) as [b w1|e w1|w1]; try discriminate H; exact H.
Qed.

Lemma passes_dispatch_all types el : passes 0 (dispatch_all types el).
Proof.
  induction types as [|ty more IH]; cbn [dispatch_all]; [apply passes_ret|].
  apply (passes_and_then 0 0); [acted | intros _; exact IH | lra].
Qed.

(** Every pause of the typing loop lasts [base] ms at least. *)
Lemma passes_pause {B} lo base span (f : unit -> Task B) :
  (0 <= span)%Q ->
  (forall u, passes lo (f u)) ->
  passes (base + lo) (r <-- random ;; u <-- wait (base + r * span) ;; f u).
Proof.
  intros Hs Hf w b w' Hu H. unfold and_then at 1, random in H.
  destruct (Hu (drawn w)) as [Hr _].
  set (w0 := mkWorld (document w) (input_value w) (reactions w) (entropy w)
                     (S (drawn w)) (log w) (sanitize w)) in *.
  assert (Hp : passes (base + lo)
                 (u <-- wait (base + entropy w (drawn w) * span) ;; f u)).
  { apply (passes_and_then (base + entropy w (drawn w) * span) lo);
      [apply passes_wait | exact Hf |].
    pose proof (Qmult_le_0_compat _ _ Hr Hs). lra. }
  exact (Hp w0 b w' Hu H).
Qed.

Lemma count_S n : (count (S n) == count n + 1)%Q.
Proof.
  unfold count. rewrite Nat2Z.inj_succ. unfold Z.succ.
  rewrite inject_Z_plus. reflexivity.
Qed.

Lemma passes_type_chars events base span input chars :
  (0 <= span)%Q ->
  passes (base * count (List.length chars))
         (type_chars events base span input chars).
Proof.
  intros Hs. induction chars as [|c rest IH]; cbn [type_chars List.length].
  - intros w a w' Hu H. destruct (passes_ret tt w a w' Hu H) as [He [l [E L]]].
    split; [exact He|]. exists l. split; [exact E|].
    change (count 0) with 0%Q. lra.
  - apply (passes_and_then 0 (base * count (S (List.length rest))));
      [apply passes_get_value | intros v | lra].
    apply (passes_and_then 0 (base * count (S (List.length rest))));
      [apply passes_set_value | intros _ | lra].
    apply (passes_and_then 0 (base * count (S (List.length rest))));
      [apply passes_dispatch_all | intros _ | lra].
    intros w a w' Hu H.
    destruct (passes_pause (base * count (List.length rest)) base span
                (fun _ => type_chars events base span input rest) Hs
                (fun _ => IH) w a w' Hu H) as [He [l [E L]]].
    split; [exact He|]. exists l. split; [exact E|]. rewrite count_S. lra.
Qed.

Lemma passes_dominos_expand links : passes 0 (dominos_expand links).
Proof.
  induction links as [|l rest IH]; cbn [dominos_expand]; [apply passes_ret|].
  apply (passes_and_then 0 0); [acted | intros _ | lra].
  apply (passes_and_then 1000 0); [apply passes_wait | intros _ | lra].
  apply (passes_and_then 0 0); [apply passes_look | intros [s|] | lra];
    [apply passes_ret | exact IH].
Qed.

Lemma takes_enter_code typing rest typeText chain section g next :
  (forall input, passes typing (typeText input (code g))) ->
  (forall input, takes rest (next input)) ->
  takes (1500 + typing + rest) (enter_code typeText chain section g next).
Proof.
  intros Ht Hn. unfold enter_code.
  apply (takes_and_then 0 (1500 + typing + rest)); [acted | intros _ | lra].
  apply (takes_and_then 1000 (500 + typing + rest)); [apply passes_wait | intros _ | lra].
  apply (takes_and_then 0 (500 + typing + rest));
    [apply passes_look | intros [input|] | lra]; [|apply takes_ret_false].
  apply (takes_and_then 0 (500 + typing + rest)); [acted | intros _ | lra].
  apply (takes_and_then 0 (500 + typing + rest));
    [apply passes_set_value | intros _ | lra].
  apply (takes_and_then 500 (typing + rest)); [apply passes_wait | intros _ | lra].
  apply (takes_and_then typing rest); [apply Ht | intros _; apply Hn | lra].
Qed.

Lemma takes_verified (verify : Document -> Exc bool) (tail : Task bool) :
  takes 0 tail ->
  takes 3000 (_ <-- wait 3000 ;;
              success <-- look verify ;;
              if success then tail else ret false).
Proof.
  intros Ht.
  apply (takes_and_then 3000 0); [apply passes_wait | intros _ | lra].
  apply (takes_and_then 0 0); [apply passes_look | intros [|] | lra];
    [exact Ht | apply takes_ret_false].
Qed.

Lemma takes_notify_and_return message (more : Task unit) :
  passes 0 more ->
  takes 0 (_ <-- showSuccessNotification message ;; _ <-- more ;; ret true).
Proof.
  intros Hm.
  apply (takes_and_then 0 0); [acted | intros _ | lra].
  apply (takes_and_then 0 0); [exact Hm | intros _; apply takes_ret_true | lra].
Qed.

Lemma takes_applyGiftCard n g :
  takes (4500 + typing_pause n * count (List.length (code_points (code g))))
        (applyGiftCard_of n g).
Proof.
  set (T := (typing_pause n * count (List.length (code_points (code g))))%Q).
  destruct n; cbn [applyGiftCard_of typing_pause] in *.
  - unfold amazon_applyGiftCard. apply takes_catch_false.
    apply (takes_and_then 0 (1500 + T + 3000));
      [apply passes_look | intros [section|] | lra]; [|apply takes_ret_false].
    apply takes_enter_code.
    { intros input. apply passes_type_chars. lra. }
    intros _.
    apply (takes_and_then 0 3000); [apply passes_look | intros [button|] | lra];
      [|apply takes_ret_false].
    apply (takes_and_then 0 3000); [acted | intros _ | lra].
    apply takes_verified.
    apply (takes_and_then 0 0); [acted | intros _; apply takes_ret_true | lra].
  - unfold netflix_applyGiftCard. apply takes_catch_false.
    apply (takes_and_then 0 (1500 + T + 3000)); [apply passes_look | intros path | lra].
    apply (takes_and_then 0 (1500 + T + 3000)); [| intros _ | lra].
    { destruct (negb _); [|apply passes_ret].
      unfold netflix_navigateToGiftCardRedemption.
      apply (passes_and_then 0 0); [apply passes_look | intros host | lra].
      apply (passes_and_then 0 0); [apply passes_look | intros [link|] | lra].
      - apply (passes_and_then 0 2000); [acted | intros _; apply passes_wait | lra].
      - apply (passes_and_then 0 3000); [acted | intros _; apply passes_wait | lra]. }
    apply (takes_and_then 0 (1500 + T + 3000));
      [apply passes_look | intros [section|] | lra]; [|apply takes_ret_false].
    apply takes_enter_code.
    { intros input. apply passes_type_chars. lra. }
    intros _.
    apply (takes_and_then 0 3000); [apply passes_look | intros [button|] | lra];
      [|apply takes_ret_false].
    apply (takes_and_then 0 3000); [acted | intros _ | lra].
    apply takes_verified. apply takes_notify_and_return.
    unfold netflix_continueSignupFlow.
    apply (passes_and_then 0 0); [apply passes_look | intros [continue|] | lra];
      [|apply passes_ret].
    apply (passes_and_then 1000 0); [apply passes_wait | intros _; acted | lra].
  - unfold dominos_applyGiftCard. apply takes_catch_false.
    apply (takes_and_then 0 (1500 + T + 3000)); [apply passes_look | intros found | lra].
    apply (takes_and_then 0 (1500 + T + 3000)); [| intros [section|] | lra];
      [| | apply takes_ret_false].
    { destruct found; [apply passes_ret|].
      apply (passes_and_then 0 0); [apply passes_look | intros links | lra].
      apply passes_dominos_expand. }
    apply takes_enter_code.
    { intros input. apply passes_type_chars. lra. }
    intros input.
    apply (takes_and_then 0 3000); [apply passes_look | intros applyButton | lra].
    apply (takes_and_then 0 3000);
      [destruct applyButton; acted | intros _ | lra].
    apply takes_verified.
    apply (takes_and_then 0 0); [acted | intros _; apply takes_ret_true | lra].
Qed.

(** X16.  A redemption that succeeds has taken its time: whenever
    [applyGiftCard] resolves with true, the method has asked to wait for
    at least 4500 ms plus, for every character of the code (a surrogate
    pair counting as one), the shortest typing pause of the platform:
    50 ms on Amazon, 60 ms on Domino's, 80 ms on Netflix. *)
Theorem successful_redemption_takes_time
        (n : PlatformName) (g : GiftCardData) (w w' : World) :
  unit_interval (entropy w) ->
  applyGiftCard_of n g w = Returned true w' ->
  exists added,
    log w' = log w ++ added
    /\ (4500 + typing_pause n * count (List.length (code_points (code g)))
        <= waited added)%Q.
Proof. apply takes_applyGiftCard. Qed.

Lemma successful_redemption_takes_time_witness :
  exists added,
    log (world_of (applyGiftCard_of amazon card_A amazon_redeeming))
    = log amazon_redeeming ++ added
    /\ (4500 + typing_pause amazon * count (List.length (code_points (code card_A)))
        <= waited added)%Q.
Proof.
  refine (successful_redemption_takes_time amazon card_A amazon_redeeming
            (world_of (applyGiftCard_of amazon card_A amazon_redeeming)) _ _).
  - intros i. split; [unfold Qle | unfold Qlt]; simpl; lia.
  - vm_compute. reflexivity.
Defined.

(** *** Typing *)

Lemma code_points_concat_bounded k : forall s,
  (List.length s <= k)%nat -> List.concat (code_points s) = s.
Proof.
  induction k as [|k IH]; intros s H.
  - destruct s; [reflexivity | cbn in H; lia].
  - destruct s as [|c [|c2 rest]]; [reflexivity | reflexivity |].
    change (code_points (c :: c2 :: rest))
      with (if is_high_surrogate c && is_low_surrogate c2
            then [c; c2] :: code_points rest
            else [c] :: code_points (c2 :: rest)).
    cbn [List.length] in H.
    destruct (is_high_surrogate c && is_low_surrogate c2); cbn [List.concat app].
    + rewrite IH; [reflexivity | lia].
    + f_equal. apply IH. cbn [List.length]. lia.
Qed.

Lemma code_points_concat s : List.concat (code_points s) = s.
Proof. apply (code_points_concat_bounded (List.length s)). apply le_n. Qed.

Lemma dispatch_all_spec types el : forall w,
  dispatch_all types el w
  = Returned tt (mkWorld (document w) (input_value w) (reactions w) (entropy w)
                         (drawn w)
                         (log w ++ map (fun ty => DispatchEvent ty el) types)
                         (sanitize w)).
Proof.
  induction types as [|ty more IH]; intros w; cbn [dispatch_all map].
  - unfold ret. rewrite app_nil_r. destruct w; reflexivity.
  - unfold and_then, act. rewrite IH. cbn [document input_value reactions entropy drawn log sanitize].
    rewrite <- app_assoc. reflexivity.
Qed.

Lemma input_events_dispatched el types :
  List.length (filter is_input_event (map (fun ty => DispatchEvent ty el) types))
  = List.length (filter (fun ty => String.eqb ty "input") types).
Proof.
  induction types as [|ty more IH]; [reflexivity|]. cbn [map filter is_input_event].
  destruct (String.eqb ty "input"); cbn [List.length]; rewrite IH; reflexivity.
Qed.

Lemma strip_line_breaks_app a b :
  strip_line_breaks (a ++ b) = strip_line_breaks a ++ strip_line_breaks b.
Proof. apply filter_app. Qed.

Lemma strip_line_breaks_twice s :
  strip_line_breaks (strip_line_breaks s) = strip_line_breaks s.
Proof. unfold strip_line_breaks. apply filter_same. intros x _ H. exact H. Qed.

Lemma type_chars_value events base span input chars : forall w,
  (List.length chars <= List.length (reactions w))%nat ->
  exists w' added,
    type_chars events base span input chars w = Returned tt w'
    /\ input_value w'
       = typed_over (sanitize w) (input_value w) chars (map value_then (reactions w))
    /\ log w' = log w ++ added
    /\ List.length (filter is_input_event added)
       = (List.length chars
          * List.length (filter (fun ty => String.eqb ty "input") events))%nat
    /\ reactions w' = skipn (List.length chars) (reactions w).
Proof.
  induction chars as [|c rest IH]; intros w Hlen.
  - exists w, []. cbn. rewrite !app_nil_r. repeat split.
  - cbn [type_chars]. unfold and_then at 1, get_value. unfold and_then at 1, set_value.
    unfold and_then at 1. rewrite dispatch_all_spec.
    cbn [document input_value reactions entropy drawn log sanitize].
    unfold and_then at 1, random.
    cbn [document input_value reactions entropy drawn log sanitize].
    unfold and_then at 1, wait.
    cbn [document input_value reactions entropy drawn log sanitize].
    destruct (reactions w) as [|r rs] eqn:Er; [cbn in Hlen; lia|].
    cbn [List.length] in Hlen.
    match goal with
    | |- context [type_chars events base span input rest ?w1] =>
      destruct (IH w1) as [w' [added [E [Ev [El [Ec Ere]]]]]]; [cbn; lia|]
    end.
    cbn [document input_value reactions entropy drawn log sanitize] in Ev, El, Ere.
    eexists w', _. split; [exact E|].
    split; [rewrite Ev; reflexivity|].
    split; [rewrite El, <- !app_assoc; reflexivity|].
    split; [|exact Ere].
    rewrite !filter_app, !length_app, Ec, input_events_dispatched. cbn. lia.
Qed.

Lemma typed_over_undisturbed keeps chars : forall value rs,
  (forall v, keeps v = strip_line_breaks v) ->
  strip_line_breaks value = value ->
  (List.length chars <= List.length rs)%nat ->
  undisturbed (firstn (List.length chars) rs) ->
  typed_over keeps value chars (map value_then rs)
  = value ++ strip_line_breaks (List.concat chars).
Proof.
  induction chars as [|c rest IH]; intros value rs Hk Hv Hlen Hund.
  - cbn. rewrite app_nil_r. reflexivity.
  - destruct rs as [|r rs]; [cbn in Hlen; lia|].
    cbn [List.length firstn] in Hlen, Hund. inversion Hund as [|? ? Hr Hrs]; subst.
    cbn [map typed_over List.concat].
    rewrite Hr, Hk, strip_line_breaks_app, Hv.
    rewrite IH; [| exact Hk | | lia | exact Hrs].
    + rewrite strip_line_breaks_app, app_assoc. reflexivity.
    + rewrite strip_line_breaks_app, Hv, strip_line_breaks_twice. reflexivity.
Qed.

(** X17.  [typeText] enters the text as a text field keeps it: when the
    input is a text field, the page lives to see every pause of the typing
    loop end and leaves the field alone meanwhile, the method returns with
    the text, without its line breaks (a text field strips them from what
    is assigned to it), appended to what the field held, having dispatched
    one input event for every character of the text, a surrogate pair
    being typed as one character. *)
Theorem typeText_enters_the_text
        (n : PlatformName) (input : Element) (text : jsstring) (w : World) :
  text_field w ->
  strip_line_breaks (input_value w) = input_value w ->
  (List.length (code_points text) <= List.length (reactions w))%nat ->
  undisturbed (firstn (List.length (code_points text)) (reactions w)) ->
  exists w' added,
    typeText_of n input text w = Returned tt w'
    /\ input_value w' = input_value w ++ strip_line_breaks text
    /\ log w' = log w ++ added
    /\ List.length (filter is_input_event added) = List.length (code_points text)
    /\ reactions w' = skipn (List.length (code_points text)) (reactions w).
Proof.
  intros Hk Hv Hlen Hund.
  destruct (type_chars_value (typing_events n)
              match n with amazon => 50 | netflix => 80 | dominos => 60 end
              match n with amazon => 50 | netflix => 40 | dominos => 40 end
              input (code_points text) w Hlen)
    as [w' [added [E [Ev [El [Ec Er]]]]]].
  exists w', added.
  rewrite (typed_over_undisturbed _ _ _ _ Hk Hv Hlen Hund), code_points_concat in Ev.
  split; [destruct n; exact E|]. split; [exact Ev|]. split; [exact El|].
  split; [|exact Er]. rewrite Ec. destruct n; cbn; lia.
Qed.

Lemma typeText_enters_the_text_witness :
  exists w' added,
    typeText_of amazon (mkElement [] [] no_children) code_with_line_break amazon_redeeming
    = Returned tt w'
    /\ input_value w' = input_value amazon_redeeming ++ strip_line_breaks code_with_line_break
    /\ log w' = log amazon_redeeming ++ added
    /\ List.length (filter is_input_event added) = List.length (code_points code_with_line_break)
    /\ reactions w'
       = skipn (List.length (code_points code_with_line_break)) (reactions amazon_redeeming).
Proof.
  apply typeText_enters_the_text.
  - intros v. reflexivity.
  - reflexivity.
  - vm_compute. lia.
  - vm_compute. repeat constructor.
Defined.

(** *** A page that stays as it is *)

Lemma type_chars_steady events base span input chars d k ent : forall v dr lg,
  strip_line_breaks v = v ->
  exists dr' lg',
    type_chars events base span input chars
      (mkWorld d v (steady d (List.length chars + k)) ent dr lg strip_line_breaks)
    = Returned tt (mkWorld d (v ++ strip_line_breaks (List.concat chars))
                           (steady d k) ent dr' lg' strip_line_breaks).
Proof.
  induction chars as [|c rest IH]; intros v dr lg Hv.
  - exists dr, lg. cbn. rewrite app_nil_r. reflexivity.
  - cbn [type_chars]. unfold and_then at 1, get_value. unfold and_then at 1, set_value.
    unfold and_then at 1. rewrite dispatch_all_spec.
    cbn [document input_value reactions entropy drawn log sanitize].
    unfold and_then at 1, random.
    cbn [document input_value reactions entropy drawn log sanitize].
    unfold and_then at 1, wait.
    cbn [document input_value reactions entropy drawn log sanitize List.length Nat.add
         steady repeat page_then value_then].
    rewrite strip_line_breaks_app, Hv.
    match goal with
    | |- context [type_chars events base span input rest
                    (mkWorld d ?v1 _ ent ?dr1 ?lg1 _)] =>
      destruct (IH v1 dr1 lg1) as [dr' [lg' E]]
    end.
    { rewrite strip_line_breaks_app, Hv, strip_line_breaks_twice. reflexivity. }
    exists dr', lg'. unfold steady in E. rewrite E.
    cbn [List.concat]. rewrite strip_line_breaks_app, app_assoc. reflexivity.
Qed.

Lemma enter_code_steady events base span typeText chain section g next d input k ent :
  (forall i t, typeText i t = type_chars events base span i (code_points t)) ->
  findElement d chain = Ok (Some input) ->
  forall v dr lg, exists dr' lg',
    enter_code typeText chain section g next
      (mkWorld d v (steady d (2 + (List.length (code_points (code g)) + k))) ent dr lg
               strip_line_breaks)
    = next input (mkWorld d (strip_line_breaks (code g)) (steady d k) ent dr' lg'
                          strip_line_breaks).
Proof.
  intros Ht Hf v dr lg. unfold enter_code.
  unfold and_then at 1, act. unfold and_then at 1, wait.
  cbn [document input_value reactions entropy drawn log sanitize Nat.add steady repeat
       page_then value_then].
  unfold and_then at 1, look. cbn [document]. rewrite Hf.
  unfold and_then at 1, act. unfold and_then at 1, set_value.
  unfold and_then at 1, wait.
  cbn [document input_value reactions entropy drawn log sanitize Nat.add steady repeat
       page_then value_then].
  unfold and_then at 1. rewrite Ht.
  change (strip_line_breaks []) with (@nil N).
  match goal with
  | |- context [type_chars events base span input _ (mkWorld d ?v1 _ ent ?dr1 ?lg1 _)] =>
    destruct (type_chars_steady events base span input (code_points (code g))
                d k ent v1 dr1 lg1 eq_refl) as [dr' [lg' E]]
  end.
  unfold steady in E. rewrite E. rewrite code_points_concat. cbn [app].
  exists dr', lg'. reflexivity.
Qed.

(** X18.  On a page that stays as it is while the method runs, holds the
    gift-card section, a text field as the input and the apply button,
    passes the platform's verification and leaves the input field alone,
    [applyGiftCard] resolves with true, the input field holds the code
    without its line breaks (a text field strips them) and the apply
    button has been clicked (on Netflix the page must be a redeem page
    already; four timers more than the code has characters suffice). *)
Theorem redemption_on_a_steady_page
        (n : PlatformName) (g : GiftCardData) (d : Document)
        (section input button : Element) (extra : nat) (ent : nat -> Q) :
  (n = netflix -> js_includes (pathname d) (js "/redeem") = true) ->
  findElement d (section_chain n) = Ok (Some section) ->
  findElement d (input_chain n) = Ok (Some input) ->
  findElement d (button_chain n) = Ok (Some button) ->
  verification n d = Ok true ->
  exists w',
    applyGiftCard_of n g
      (mkWorld d [] (steady d (List.length (code_points (code g)) + 4 + extra)) ent 0 []
               strip_line_breaks)
    = Returned true w'
    /\ input_value w' = strip_line_breaks (code g)
    /\ In (ClickOn button) (log w').
Proof.
  intros Hpath Hs Hi Hb Hv.
  replace (List.length (code_points (code g)) + 4 + extra)%nat
    with (2 + (List.length (code_points (code g)) + (2 + extra)))%nat by lia.
  destruct n; cbn [applyGiftCard_of section_chain input_chain button_chain verification] in *.
  - unfold amazon_applyGiftCard, catch_false.
    unfold and_then at 1. unfold look at 1. cbn [document]. rewrite Hs.
    destruct (enter_code_steady ["input"] 50 50 amazon_typeText
                Amazon.selectors.checkout_giftCardInput section g
                (fun _ =>
                   applyButton <-- look (fun d => findElement d Amazon.selectors.checkout_applyButton) ;;
                   match applyButton with
                   | None => ret false
                   | Some button =>
                     _ <-- act (ClickOn button) ;;
                     _ <-- wait 3000 ;;
                     success <-- look Amazon.verifyGiftCardApplication ;;
                     if success
                     then _ <-- showSuccessNotification "Gift card applied to Amazon checkout!" ;;
                          ret true
                     else ret false
                   end)
                d input (2 + extra) ent (fun _ _ => eq_refl) Hi [] 0%nat [])
      as [dr' [lg' E]].
    rewrite E. clear E.
    cbv [and_then look act wait ret showSuccessNotification].
    cbn [document input_value reactions entropy drawn log sanitize Nat.add steady repeat
         page_then value_then].
    rewrite Hb.
    cbn [document input_value reactions entropy drawn log sanitize Nat.add steady repeat
         page_then value_then].
    rewrite Hv.
    cbn [document input_value reactions entropy drawn log sanitize].
    eexists. split; [reflexivity|]. split; [reflexivity|].
    cbn [log]. apply in_or_app. left. apply in_or_app. left.
    apply in_or_app. right. left. reflexivity.
  - unfold netflix_applyGiftCard, catch_false.
    unfold and_then at 1. unfold look at 1. cbn [document].
    rewrite (Hpath eq_refl). cbn [negb].
    unfold and_then at 1. unfold ret at 1. unfold and_then at 1. unfold look at 1. cbn [document]. rewrite Hs.
    destruct (enter_code_steady ["input"; "change"] 80 40 netflix_typeText
                Netflix.selectors.checkout_giftCardInput section g
                (fun _ =>
                   redeemButton <-- look (fun d => findElement d Netflix.selectors.checkout_applyButton) ;;
                   match redeemButton with
                   | None => ret false
                   | Some button =>
                     _ <-- act (ClickOn button) ;;
                     _ <-- wait 3000 ;;
                     success <-- look Netflix.verifyGiftCardRedemption ;;
                     if success
                     then _ <-- showSuccessNotification "Gift card applied to Netflix account!" ;;
                          _ <-- netflix_continueSignupFlow ;;
                          ret true
                     else ret false
                   end)
                d input (2 + extra) ent (fun _ _ => eq_refl) Hi [] 0%nat [])
      as [dr' [lg' E]].
    rewrite E. clear E.
    cbv [and_then look act wait ret showSuccessNotification netflix_continueSignupFlow].
    cbn [document input_value reactions entropy drawn log sanitize Nat.add steady repeat
         page_then value_then].
    rewrite Hb.
    cbn [document input_value reactions entropy drawn log sanitize Nat.add steady repeat
         page_then value_then].
    rewrite Hv.
    cbn [document input_value reactions entropy drawn log sanitize].
    destruct (findElement d Netflix.selectors.signup_continueButton) as [[c|]|e] eqn:Ec.
    + cbn [document input_value reactions entropy drawn log sanitize page_then value_then].
      eexists. split; [reflexivity|]. split; [reflexivity|].
      cbn [log]. apply in_or_app. left. apply in_or_app. left.
      apply in_or_app. left. apply in_or_app. left.
      apply in_or_app. right. left. reflexivity.
    + eexists. split; [reflexivity|]. split; [reflexivity|].
      cbn [log]. apply in_or_app. left. apply in_or_app. left.
      apply in_or_app. right. left. reflexivity.
    + destruct (findElement_valid d Netflix.selectors.signup_continueButton eq_refl)
        as [r [Hr _]]. congruence.
  - unfold dominos_applyGiftCard, catch_false.
    unfold and_then at 1. unfold look at 1. cbn [document]. rewrite Hs.
    unfold and_then at 1. unfold ret at 1.
    destruct (enter_code_steady ["input"; "change"] 60 40 dominos_typeText
                Dominos.selectors.checkout_giftCardInput section g
                (fun input =>
                   applyButton <-- look (fun d => findElement d Dominos.selectors.checkout_applyButton) ;;
                   _ <-- match applyButton with
                         | None => act (KeyDown "Enter" input)
                         | Some button => act (ClickOn button)
                         end ;;
                   _ <-- wait 3000 ;;
                   success <-- look Dominos.verifyGiftCardApplication ;;
                   if success
                   then _ <-- showSuccessNotification "Gift card applied to your Dominos order!" ;;
                        ret true
                   else ret false)
                d input (2 + extra) ent (fun _ _ => eq_refl) Hi [] 0%nat [])
      as [dr' [lg' E]].
    rewrite E. clear E.
    cbv [and_then look act wait ret showSuccessNotification].
    cbn [document input_value reactions entropy drawn log sanitize Nat.add steady repeat
         page_then value_then].
    rewrite Hb.
    cbn [document input_value reactions entropy drawn log sanitize Nat.add steady repeat
         page_then value_then].
    rewrite Hv.
    cbn [document input_value reactions entropy drawn log sanitize].
    eexists. split; [reflexivity|]. split; [reflexivity|].
    cbn [log]. apply in_or_app. left. apply in_or_app. left.
    apply in_or_app. right. left. reflexivity.
Qed.

Lemma redemption_on_a_steady_page_witness :
  exists w',
    applyGiftCard_of amazon card_with_line_break
      (mkWorld amazon_redeemed []
         (steady amazon_redeemed
                 (List.length (code_points (code card_with_line_break)) + 4 + 0))
         (fun _ => 1 # 2) 0 [] strip_line_breaks)
    = Returned true w'
    /\ input_value w' = strip_line_breaks (code card_with_line_break)
    /\ In (ClickOn (mkElement (js "Apply") [] no_children)) (log w').
Proof.
  apply (redemption_on_a_steady_page amazon card_with_line_break amazon_redeemed
           (mkElement (js "Gift cards") [] no_children)
           (mkElement [] [] no_children)
           (mkElement (js "Apply") [] no_children)).
  - discriminate.
  - reflexivity.
  - reflexivity.
  - reflexivity.
  - reflexivity.
Defined.


(** *** What counts as success on Amazon *)

(** The task returns true only on a page that passes [verify]. *)
Definition ends_verified (verify : Document -> Exc bool) (t : Task bool) : Prop :=
  forall w w', t w = Returned true w' -> verify (document w') = Ok true.

Lemma ends_verified_and_then {A} verify (m : Task A) (f : A -> Task bool) :
  (forall a, ends_verified verify (f a)) -> ends_verified verify (and_then m f).
Proof.
  intros Hf w w' H. unfold and_then in H.
  destruct (m w) as [a w1|e w1|w1]; try discriminate H. apply (Hf a w1 w' H).
Qed.

Lemma ends_verified_ret_false verify : ends_verified verify (ret false).
Proof. intros w w' H. discriminate H. Qed.

Lemma amazon_applyGiftCard_ends_verified g :
  ends_verified Amazon.verifyGiftCardApplication (amazon_applyGiftCard g).
Proof.
  assert (Hc : forall t, ends_verified Amazon.verifyGiftCardApplication t ->
                         ends_verified Amazon.verifyGiftCardApplication (catch_false t)).
  { intros t Ht w w' H. apply (Ht w w'). unfold catch_false in H.
    destruct (t w); try discriminate H; exact H. }
  unfold amazon_applyGiftCard. apply Hc.
  apply ends_verified_and_then. intros [section|]; [|apply ends_verified_ret_false].
  unfold enter_code.
  do 2 (apply ends_verified_and_then; intros _).
  apply ends_verified_and_then. intros [input|]; [|apply ends_verified_ret_false].
  do 4 (apply ends_verified_and_then; intros _).
  apply ends_verified_and_then. intros [button|]; [|apply ends_verified_ret_false].
  do 2 (apply ends_verified_and_then; intros _).
  intros w w' H. unfold and_then at 1 in H. unfold look at 1 in H.
  destruct (Amazon.verifyGiftCardApplication (document w)) as [[|]|e] eqn:E;
    try discriminate H.
  injection H as <-. exact E.
Qed.

(** X19.  On Amazon a redemption is reported as successful only on the
    success text: whenever [applyGiftCard] resolves with true, one of the
    first three success selectors shows an element whose text contains
    "applied".  The balance display and the total never count, because the
    verification throws on its fourth success selector before it reaches
    them. *)
Theorem amazon_success_needs_the_success_text (g : GiftCardData) (w w' : World) :
  amazon_applyGiftCard g w = Returned true w' ->
  any_says "applied" (document w') (firstn 3 Amazon.successSelectors) = Ok true.
Proof.
  intros H. apply amazon_applyGiftCard_ends_verified in H.
  destruct (any_says_valid "applied" (document w') (firstn 3 Amazon.successSelectors)
              eq_refl) as [[|] Hb]; [exact Hb|].
  destruct (amazon_verification_throws _ Hb) as [e He]. congruence.
Qed.

Lemma amazon_success_needs_the_success_text_witness :
  any_says "applied"
           (document (world_of (amazon_applyGiftCard card_A amazon_redeeming)))
           (firstn 3 Amazon.successSelectors) = Ok true.
Proof.
  apply (amazon_success_needs_the_success_text card_A amazon_redeeming).
  vm_compute. reflexivity.
Defined.

(** *** Texts without a digit *)

(** X20.  A text without any digit is never a price: each of the three
    price parsers returns null on it, whatever currency symbols, codes or
    words it holds. *)
Theorem text_without_digit_is_no_price (n : PlatformName) (priceText : jsstring) :
  has_digit priceText = false -> parser n priceText = None.
Proof.
  intros H. destruct (no_digit_no_price priceText H) as [Ha [Hn Hd]].
  destruct n; assumption.
Qed.

Lemma text_without_digit_is_no_price_witness :
  parser netflix (js "USD per month") = None.
Proof.
  apply text_without_digit_is_no_price. vm_compute. reflexivity.
Defined.

(* ===================================================================== *)
(** * Redemption requests that overlap *)
(* ===================================================================== *)

Lemma typed_over_woven keeps chars : forall value rs others,
  (forall v, keeps v = strip_line_breaks v) ->
  strip_line_breaks value = value ->
  Forall (fun y => strip_line_breaks y = y) others ->
  Forall2 (fun r y => forall v, value_then r v = (v ++ y)%list) rs others ->
  List.length chars = List.length others ->
  typed_over keeps value chars (map value_then rs)
  = value ++ weave (map strip_line_breaks chars) others.
Proof.
  induction chars as [|c rest IH]; intros value rs others Hk Hv Ho Hr Hlen.
  - cbn. rewrite app_nil_r. reflexivity.
  - destruct others as [|y ys]; [discriminate Hlen|].
    inversion Hr as [|r ? rs' ? Hy Hrs]; subst.
    inversion Ho as [|? ? Hsy Hys]; subst.
    cbn [map typed_over weave].
    rewrite Hy, Hk, strip_line_breaks_app, Hv.
    rewrite (IH _ rs' ys Hk); [| | exact Hys | exact Hrs | ].
    + rewrite <- !app_assoc. reflexivity.
    + rewrite !strip_line_breaks_app, Hv, strip_line_breaks_twice, Hsy. reflexivity.
    + cbn [List.length] in Hlen. lia.
Qed.

(** C3, as stated, fails.  On an Amazon page with the gift-card form, a
    second APPLY_GIFT_CARD that arrives while the first attempt is pending
    is acknowledged like the first and starts a second attempt next to it:
    both calls of [applyGiftCard] are pausing at the same time.  Resumed in
    the order in which their timers fire, the two [typeText] loops write to
    the one input field in turn; both calls resolve with true and the
    field holds a value that is neither code. *)
Lemma C3_counterexample :
  let first := onMessage (APPLY_GIFT_CARD card_A) amazon_redeemed amazon_form_detected in
  let second := onMessage (APPLY_GIFT_CARD card_B) amazon_redeemed (fst first) in
  map attempt_data (attempts (fst first)) = [card_A]
  /\ snd second = Success true None
  /\ map attempt_data (attempts (fst second)) = [card_A; card_B]
  /\ map call_state (calls two_calls) = [Pausing 1000 0; Pausing 1000 1]
  /\ map call_state (calls (run_tab 40 two_calls)) = [Resolved true; Resolved true]
  /\ field_value (run_tab 40 two_calls) = js "AXBY1829".
Proof. repeat split; vm_compute; reflexivity. Qed.

(** C3 (amended).  The script keeps no in-flight guard.  In every state,
    an APPLY_GIFT_CARD command is acknowledged at once with
    [success: true] and, when a platform is detected, starts a new attempt
    immediately, next to the attempts already pending, which stay as they
    are; in every state the script can reach the new attempt is none of
    those.  Nothing is rejected or queued.  The typing is not protected
    either: each step of [typeText] appends its character to whatever the
    input field holds when the step runs, so when during each pause
    something else appends text to the field, as the [typeText] of an
    overlapping attempt does, the field (a text field, holding no line
    breaks) ends up with the typed characters and that text in turn. *)
Theorem C3_every_request_starts_an_attempt
        (s : State) (es : list Event) (d : Document) (g : GiftCardData)
        (n : PlatformName) (input : Element) (text : jsstring)
        (others : list jsstring) (w : World) :
  (snd (onMessage (APPLY_GIFT_CARD g) d s) = Success true None
   /\ attempts (fst (onMessage (APPLY_GIFT_CARD g) d s))
      = attempts s ++ match currentPlatform s with
                      | Some p => [mkAttempt (started s) p g]
                      | None => []
                      end
   /\ ~ In (started (run es fresh)) (map attempt_id (attempts (run es fresh))))
  /\ (text_field w ->
      strip_line_breaks (input_value w) = input_value w ->
      Forall (fun y => strip_line_breaks y = y) others ->
      Forall2 (fun r y => forall v, value_then r v = (v ++ y)%list) (reactions w) others ->
      List.length (code_points text) = List.length others ->
      exists w',
        typeText_of n input text w = Returned tt w'
        /\ input_value w'
           = input_value w ++ weave (map strip_line_breaks (code_points text)) others).
Proof.
  split; [split; [reflexivity | split]|].
  - cbn [onMessage fst]. unfold applyGiftCard.
    destruct (currentPlatform s); [reflexivity|].
    symmetry. apply app_nil_r.
  - destruct (attempts_ok_reachable es) as [_ Hlt]. intros Hin.
    apply in_map_iff in Hin. destruct Hin as [a [Ea Ha]].
    specialize (Hlt a Ha). lia.
  - intros Hk Hv Ho Hr Hlen.
    assert (Hl : (List.length (code_points text) <= List.length (reactions w))%nat).
    { rewrite Hlen. clear -Hr. induction Hr; cbn [List.length]; lia. }
    destruct (type_chars_value (typing_events n)
                match n with amazon => 50 | netflix => 80 | dominos => 60 end
                match n with amazon => 50 | netflix => 40 | dominos => 40 end
                input (code_points text) w Hl)
      as [w' [added [E [Ev _]]]].
    exists w'. split; [destruct n; exact E|].
    rewrite Ev. apply typed_over_woven; assumption.
Qed.

Lemma C3_every_request_starts_an_attempt_witness :
  exists w',
    typeText_of amazon (mkElement [] [] no_children) (code card_A) others_typing
    = Returned tt w'
    /\ input_value w'
       = input_value others_typing
         ++ weave (map strip_line_breaks (code_points (code card_A)))
                  [js "X"; js "Y"; js "8"; js "9"].
Proof.
  apply (proj2 (C3_every_request_starts_an_attempt
                  fresh [] amazon_redeemed card_A amazon
                  (mkElement [] [] no_children) (code card_A)
                  [js "X"; js "Y"; js "8"; js "9"] others_typing)).
  - intros v. reflexivity.
  - reflexivity.
  - repeat constructor.
  - repeat constructor.
  - reflexivity.
Defined.
